(** * Invoice routes of the fromagerie backend

    A shallow embedding of [src/routes/invoiceRoutes.js] (the invoice
    router and the PDF generator it calls) and the properties of its
    specification.  The handlers embedded are [GET /], [GET /:id],
    [POST /], [PUT /:id], [DELETE /:id], [GET /:id/pdf] and
    [GET /:id/download], with [calculateInvoiceTotals] and
    [generateInvoicePDF]; the HTML template of the generator stays a
    field of the rendering engine.

    JavaScript values are embedded as the inductive type [value]; numbers
    are IEEE 754 binary64 values ([PrimFloat.float]), as in the language.
    Strings are byte strings holding the UTF-8 encoding of the text.  A
    statement that can throw returns a [completion]. *)

From Stdlib Require Import ZArith List String Ascii Bool Lia.
From Stdlib Require Import PrimFloat Decimal DecimalString DecimalN DecimalPos.
From Stdlib Require Import Permutation Sorted.
Import ListNotations.

Set Warnings "-inexact-float,-register-all".
Local Open Scope Z_scope.

(* ================================================================== *)
(** ** Strings *)
(* ================================================================== *)

Module Str.

(** [String.prototype.includes] for a search string. *)
Fixpoint includes (hay needle : string) : bool :=
  if String.prefix needle hay then true
  else match hay with
       | EmptyString => false
       | String _ rest => includes rest needle
       end.

(** [s.padStart(n, "0")]: zeros are put in front until the length is [n]. *)
Definition padStart0 (n : nat) (s : string) : string :=
  String.concat EmptyString (repeat "0"%string (n - String.length s)) ++ s.

(** The text after the first [skip] characters. *)
Fixpoint drop (skip : nat) (s : string) : string :=
  match skip, s with
  | O, _ => s
  | S k, String _ rest => drop k rest
  | S _, EmptyString => EmptyString
  end.

(** [s.split(sep)] for a non-empty separator [sep]: [cur] is the piece
    being read, [skip] the number of characters of a separator just
    found that are still to be passed over. *)
Fixpoint split_from (sep s : string) (skip : nat) (cur : string) : list string :=
  match s with
  | EmptyString => [cur]
  | String c rest =>
      match skip with
      | S k => split_from sep rest k cur
      | O =>
          if String.prefix sep s
          then cur :: split_from sep rest (String.length sep - 1) EmptyString
          else split_from sep rest O (cur ++ String c EmptyString)
      end
  end.

Definition split (s sep : string) : list string := split_from sep s O EmptyString.

End Str.

(* ================================================================== *)
(** ** Values and completions *)
(* ================================================================== *)

(** The values a parsed JSON request body and a stored document hold. *)
Inductive value : Type :=
| VUndefined
| VNull
| VBool (b : bool)
| VNum (x : float)
| VStr (s : string)
| VArr (elems : list value)
| VObj (props : list (string * value)).

(** An [Error] object: the routes read its [message] and its [stack]. *)
Record error : Type := mkError { message : string; stack : string }.

Inductive thrown : Type :=
| TypeError            (* raised by the language: property of null, not a
                          function, no primitive value *)
| Raised (e : error).  (* [throw new Error(...)] *)

Inductive completion (A : Type) : Type :=
| Normal (a : A)
| Throw (t : thrown).
Arguments Normal {A} a.
Arguments Throw {A} t.

Definition bind {A B} (c : completion A) (k : A -> completion B) : completion B :=
  match c with
  | Normal a => k a
  | Throw t => Throw t
  end.

Declare Scope js_scope.
Delimit Scope js_scope with js.
Notation "x <- c ;; k" := (bind c (fun x => k))
  (at level 61, c at next level, right associativity) : js_scope.
Local Open Scope js_scope.

(** The engine's number formatting and parsing, which the routes use only
    through coercions, are parameters of the development:
    [NumberToString] is Number::toString (radix 10) on an arbitrary
    double, [StringToNumber] the StringToNumber conversion, and
    [LargeIntegerToString] Number::toString on an integer-valued double
    of magnitude above 2^53, and [ErrorStack] the stack trace recorded
    in an error object created with the given message. *)
Record Runtime : Type := mkRuntime {
  NumberToString : float -> string;
  StringToNumber : string -> float;
  LargeIntegerToString : Z -> string;
  ErrorStack : string -> string
}.

Module JS.

Fixpoint lookup (key : string) (props : list (string * value)) : option value :=
  match props with
  | [] => None
  | (k, v) :: rest => if String.eqb k key then Some v else lookup key rest
  end.

(** [base.key] for a data key ([items], [totalPrice], [timbre],
    [totalRemise], [invoiceNumber]): none of them is an index, [length]
    or a prototype property, so arrays and primitives answer
    [undefined]; reading a property of [undefined] or [null] throws. *)
Definition Get (base : value) (key : string) : completion value :=
  match base with
  | VUndefined | VNull => Throw TypeError
  | VObj props => Normal (match lookup key props with Some v => v | None => VUndefined end)
  | _ => Normal VUndefined
  end.

Definition ToBoolean (v : value) : bool :=
  match v with
  | VUndefined | VNull => false
  | VBool b => b
  | VNum x => negb ((x =? 0)%float || is_nan x)
  | VStr s => negb (String.eqb s EmptyString)
  | VArr _ | VObj _ => true
  end.

(** [a || b] *)
Definition or (a b : value) : value := if ToBoolean a then a else b.

Section WithRuntime.
Variable rt : Runtime.

(** [Array.prototype.join(",")], given the conversion [piece] of an
    element: [undefined] and [null] elements are empty. *)
Section Join.
Variable piece : value -> completion string.

Fixpoint join (l : list value) : completion string :=
  match l with
  | [] => Normal EmptyString
  | e :: rest =>
      p <- match e with
           | VUndefined | VNull => Normal EmptyString
           | _ => piece e
           end ;;
      match rest with
      | [] => Normal p
      | _ :: _ => tail <- join rest ;; Normal (p ++ "," ++ tail)%string
      end
  end.

End Join.

(** ToString.  The values are those of a parsed JSON text, so that an
    object has no method of its own: a [toString] key of its own hides
    [Object.prototype.toString] with a value that cannot be called,
    [valueOf] answers the object itself (or is hidden as well), no method
    gives a primitive and the conversion throws a TypeError.  Without
    such a key the text is "[object Object]".  An array is joined, which
    converts its elements. *)
Fixpoint ToString (v : value) : completion string :=
  match v with
  | VUndefined => Normal "undefined"
  | VNull => Normal "null"
  | VBool true => Normal "true"
  | VBool false => Normal "false"
  | VNum x => Normal (NumberToString rt x)
  | VStr s => Normal s
  | VArr elems => join ToString elems
  | VObj props =>
      match lookup "toString" props with
      | Some _ => Throw TypeError
      | None => Normal "[object Object]"
      end
  end%string.

(** ToPrimitive: arrays and objects become their string.  The hints
    "default", "number" and "string" try the same two methods,
    [valueOf] and [toString], in a different order, and agree on these
    values. *)
Definition ToPrimitive (v : value) : completion value :=
  match v with
  | VArr _ | VObj _ => s <- ToString v ;; Normal (VStr s)
  | _ => Normal v
  end.

Definition ToNumber (v : value) : completion float :=
  match v with
  | VUndefined => Normal nan
  | VNull => Normal 0
  | VBool true => Normal 1
  | VBool false => Normal 0
  | VNum x => Normal x
  | VStr s => Normal (StringToNumber rt s)
  | VArr _ | VObj _ => s <- ToString v ;; Normal (StringToNumber rt s)
  end%float.

Definition is_string (v : value) : bool :=
  match v with VStr _ => true | _ => false end.

(** [a + b]: both operands are made primitive, left one first; the
    result is a concatenation as soon as one of them is a string. *)
Definition add (a b : value) : completion value :=
  pa <- ToPrimitive a ;;
  pb <- ToPrimitive b ;;
  if is_string pa || is_string pb
  then sa <- ToString pa ;; sb <- ToString pb ;; Normal (VStr (sa ++ sb))
  else x <- ToNumber pa ;; y <- ToNumber pb ;; Normal (VNum (x + y)%float).

(** [a - b] and [a * b] *)
Definition sub (a b : value) : completion value :=
  x <- ToNumber a ;; y <- ToNumber b ;; Normal (VNum (x - y)%float).
Definition mul (a b : value) : completion value :=
  x <- ToNumber a ;; y <- ToNumber b ;; Normal (VNum (x * y)%float).

(** [arr.reduce(f, init)]: a value that is not an array has no [reduce]
    method, and calling it throws. *)
Fixpoint fold (f : value -> value -> completion value)
    (elems : list value) (acc : value) : completion value :=
  match elems with
  | [] => Normal acc
  | e :: rest => acc' <- f acc e ;; fold f rest acc'
  end.

Definition reduce (arr : value) (f : value -> value -> completion value)
    (init : value) : completion value :=
  match arr with
  | VArr elems => fold f elems init
  | _ => Throw TypeError
  end.

End WithRuntime.
End JS.

(* ================================================================== *)
(** ** Monetary calculator *)
(* ================================================================== *)

Record Totals : Type := mkTotals {
  totalHT : value;
  totalTVA : value;
  timbre : value;
  totalRemise : value;
  totalTTC : value
}.

Section Calculator.
Variable rt : Runtime.

(** [calculateInvoiceTotals], lines 8-22. *)
Definition calculateInvoiceTotals (invoiceData : value) : completion Totals :=
  items <- JS.Get invoiceData "items" ;;
  totalHT <- JS.reduce items
      (fun sum item =>
         price <- JS.Get item "totalPrice" ;;
         JS.add rt sum (JS.or price (VNum 0)))
      (VNum 0) ;;
  totalTVA <- JS.mul rt totalHT (VNum 0.19) ;;
  timbre0 <- JS.Get invoiceData "timbre" ;;
  let timbre := JS.or timbre0 (VNum 0.1) in
  totalRemise0 <- JS.Get invoiceData "totalRemise" ;;
  let totalRemise := JS.or totalRemise0 (VNum 0) in
  sum1 <- JS.add rt totalHT totalTVA ;;
  sum2 <- JS.add rt sum1 timbre ;;
  totalTTC <- JS.sub rt sum2 totalRemise ;;
  Normal (mkTotals totalHT totalTVA timbre totalRemise totalTTC).

End Calculator.

(* ================================================================== *)
(** ** Sequence number generator *)
(* ================================================================== *)

(** The numbers of the generator are [parseInt] results: NaN, an
    infinity, or an integer-valued double.  They are embedded by the
    integer they hold, with the binary64 rounding written out
    ([round_to_double]); [-0] and [+0] are one value here, which the
    generator cannot tell apart since it adds 1 before printing. *)
Inductive intnum : Type :=
| INaN
| IInf (negative : bool)
| IFin (z : Z).

Module Num.

(** The double nearest to the integer [z] (ties to even); integers up to
    2^53 in magnitude are doubles themselves. *)
Definition round_to_double (z : Z) : intnum :=
  let a := Z.abs z in
  let r :=
    if a <? 2 ^ 53 then a
    else
      let e := Z.log2 a - 52 in
      let q := a / 2 ^ e in
      let rem := a mod 2 ^ e in
      let half := 2 ^ (e - 1) in
      let q' := if rem <? half then q
                else if half <? rem then q + 1
                else if Z.even q then q else q + 1 in
      q' * 2 ^ e in
  if 2 ^ 1024 <=? r then IInf (z <? 0) else IFin (Z.sgn z * r).

(** [x + 1] *)
Definition add1 (x : intnum) : intnum :=
  match x with
  | IFin z => round_to_double (z + 1)
  | _ => x
  end.

(** The decimal digits of a natural number. *)
Definition decimal (n : N) : string := NilZero.string_of_uint (N.to_uint n).

(** [x.toString()] *)
Definition toString (rt : Runtime) (x : intnum) : string :=
  match x with
  | INaN => "NaN"%string
  | IInf false => "Infinity"%string
  | IInf true => "-Infinity"%string
  | IFin z =>
      if Z.abs z <=? 2 ^ 53
      then String.append (if z <? 0 then "-"%string else EmptyString)
                         (decimal (Z.to_N (Z.abs z)))
      else LargeIntegerToString rt z
  end.

Definition code (c : ascii) : Z := Z.of_N (N_of_ascii c).

(** White space and line terminators that [parseInt] passes over, in
    their UTF-8 encoding: TAB, LF, VT, FF, CR, SP; U+00A0; U+1680;
    U+2000..U+200A, U+2028, U+2029, U+202F, U+205F; U+3000; U+FEFF. *)
Definition space1 (c : ascii) : bool :=
  let n := code c in ((9 <=? n) && (n <=? 13)) || (n =? 32).

Definition space2 (c1 c2 : ascii) : bool :=
  (code c1 =? 194) && (code c2 =? 160).

Definition space3 (c1 c2 c3 : ascii) : bool :=
  let a := code c1 in let b := code c2 in let c := code c3 in
  ((a =? 225) && (b =? 154) && (c =? 128))
  || ((a =? 226) && (b =? 128)
      && (((128 <=? c) && (c <=? 138)) || (c =? 168) || (c =? 169) || (c =? 175)))
  || ((a =? 226) && (b =? 129) && (c =? 159))
  || ((a =? 227) && (b =? 128) && (c =? 128))
  || ((a =? 239) && (b =? 187) && (c =? 191)).

Fixpoint trimStart (s : string) : string :=
  match s with
  | EmptyString => s
  | String c1 r1 =>
      if space1 c1 then trimStart r1
      else match r1 with
           | EmptyString => s
           | String c2 r2 =>
               if space2 c1 c2 then trimStart r2
               else match r2 with
                    | EmptyString => s
                    | String c3 r3 =>
                        if space3 c1 c2 c3 then trimStart r3 else s
                    end
           end
  end.

(** The value of a character as a digit of the radix, if it is one. *)
Definition digit_of (radix : Z) (c : ascii) : option Z :=
  let n := code c in
  let d := if (48 <=? n) && (n <=? 57) then Some (n - 48)
           else if (97 <=? n) && (n <=? 122) then Some (n - 87)
           else if (65 <=? n) && (n <=? 90) then Some (n - 55)
           else None in
  match d with
  | Some v => if v <? radix then Some v else None
  | None => None
  end.

(** The integer written by the longest prefix of digits; [acc] is [None]
    as long as no digit was read. *)
Fixpoint digits (radix : Z) (s : string) (acc : option Z) : option Z :=
  match s with
  | EmptyString => acc
  | String c rest =>
      match digit_of radix c with
      | Some d =>
          digits radix rest
            (Some (radix * match acc with Some a => a | None => 0 end + d))
      | None => acc
      end
  end.

(** [parseInt(s)] without a radix argument. *)
Definition parseInt (s : string) : intnum :=
  let s1 := trimStart s in
  let '(negative, s2) :=
    match s1 with
    | String "-" r => (true, r)
    | String "+" r => (false, r)
    | _ => (false, s1)
    end in
  let '(radix, s3) :=
    match s2 with
    | String "0" (String "x" r) => (16, r)
    | String "0" (String "X" r) => (16, r)
    | _ => (10, s2)
    end in
  match digits radix s3 None with
  | None => INaN
  | Some m => round_to_double (if negative then - m else m)
  end.

End Num.

(* ================================================================== *)
(** ** The invoice store *)
(* ================================================================== *)

(** Modelled from the spec: the persistence collaborator
    ([models/Invoice.js] and the database behind it), of which the spec
    gives the interface [findAll], [findById], [findLatestByCreatedDesc],
    [insert], [updateById], [deleteById], each answering with the record
    or with nothing: a collection of documents, each with the identifier
    and the creation time the store gave it and the fields it was saved
    with. *)
Record document : Type := mkDocument {
  doc_id : string;
  createdAt : Z;
  fields : list (string * value)
}.

Module Store.

Definition t : Type := list document.

Fixpoint findById (db : t) (id : string) : option document :=
  match db with
  | [] => None
  | d :: rest => if String.eqb (doc_id d) id then Some d else findById rest id
  end.

(** [findOne().sort({ createdAt: -1 })]: a document of the greatest
    creation time (the first one in the collection among equals). *)
Fixpoint findLatest (db : t) : option document :=
  match db with
  | [] => None
  | d :: rest =>
      match findLatest rest with
      | Some d' => if createdAt d <? createdAt d' then Some d' else Some d
      | None => Some d
      end
  end.

Definition insert (db : t) (d : document) : t := db ++ [d].

(** [{ ...target, key: v }] *)
Fixpoint set (key : string) (v : value) (props : list (string * value))
    : list (string * value) :=
  match props with
  | [] => [(key, v)]
  | (k, w) :: rest =>
      if String.eqb k key then (k, v) :: rest else (k, w) :: set key v rest
  end.

(** [{ ...target, ...src }] *)
Definition assign (target src : list (string * value)) : list (string * value) :=
  fold_left (fun acc kv => set (fst kv) (snd kv) acc) src target.

(** [findByIdAndUpdate(id, patch, { new: true })]: the fields of the
    patch are set on the document; the answer is the updated document,
    or nothing when the identifier is unknown. *)
Fixpoint updateById (db : t) (id : string) (patch : list (string * value))
    : option document * t :=
  match db with
  | [] => (None, [])
  | d :: rest =>
      if String.eqb (doc_id d) id
      then let d' := mkDocument (doc_id d) (createdAt d) (assign (fields d) patch) in
           (Some d', d' :: rest)
      else let '(r, rest') := updateById rest id patch in (r, d :: rest')
  end.

(** [findByIdAndDelete(id)]: the first document of the identifier is
    taken out of the collection; the answer is that document, or nothing
    when the identifier is unknown. *)
Fixpoint deleteById (db : t) (id : string) : option document * t :=
  match db with
  | [] => (None, [])
  | d :: rest =>
      if String.eqb (doc_id d) id then (Some d, rest)
      else let '(r, rest') := deleteById rest id in (r, d :: rest')
  end.

(** [find().sort({ createdAt: -1 })]: an answer holds the documents of
    the collection, each one once, by decreasing creation time.  The
    order among documents of equal time is the database's: every such
    arrangement is an answer. *)
Definition findAllSorted (db : t) (answer : list document) : Prop :=
  Permutation answer db
  /\ StronglySorted (fun a b => createdAt b <= createdAt a) answer.

End Store.

(* ================================================================== *)
(** ** Document renderer *)
(* ================================================================== *)

Definition buffer : Type := list Byte.byte.

(** What an awaited call of the rendering engine does: it gives a
    result, rejects with an error, or never settles. *)
Inductive answer (A : Type) : Type :=
| Done (a : A)
| Fails (e : error)
| Hangs.
Arguments Done {A} a.
Arguments Fails {A} e.
Arguments Hangs {A}.

(** The behaviour of the engine during one render.  The calls are those
    of [generateInvoicePDF]; [generateInvoiceHTML] is the template of
    lines 304-465, of which the renderer only needs the text or the
    exception; [render_time] is the time, in ms, a render that settles
    takes. *)
Record Engine : Type := mkEngine {
  executablePath : answer unit;
  import_puppeteer : answer unit;
  launch : answer unit;
  newPage : answer unit;
  setViewport : answer unit;
  generateInvoiceHTML : document -> answer string;
  setContent : string -> answer unit;
  pdf : answer buffer;
  close : answer unit;
  render_time : Z
}.

Record Env : Type := mkEnv {
  NODE_ENV : option string;
  VERCEL : option string
}.

Module Render.

Inductive event : Type :=
| Launched (b : nat)
| PageOpened (b : nat)
| ContentSet (b : nat)
| Printed (b : nat)
| CloseCalled (b : nat).

(** The engine instances: [next] numbers the next instance launched,
    [running] lists the instances launched and not closed, [log] the
    calls made (oldest first). *)
Record state : Type := mkState {
  next : nat;
  running : list nat;
  log : list event
}.

Definition M (A : Type) : Type := state -> answer A * state.

Definition ret {A} (a : A) : M A := fun s => (Done a, s).

Definition bind {A B} (m : M A) (k : A -> M B) : M B :=
  fun s =>
    match m s with
    | (Done a, s') => k a s'
    | (Fails e, s') => (Fails e, s')
    | (Hangs, s') => (Hangs, s')
    end.

(** An awaited call that touches no instance. *)
Definition await {A} (r : answer A) : M A := fun s => (r, s).

(** An awaited call on instance [b], logged as [ev]. *)
Definition call {A} (ev : event) (r : answer A) : M A :=
  fun s => (r, mkState (next s) (running s) (log s ++ [ev])).

(** [puppeteer.launch(...)]: a new instance on success. *)
Definition do_launch (eng : Engine) : M nat :=
  fun s =>
    match launch eng with
    | Done _ =>
        let b := next s in
        (Done b, mkState (S b) (running s ++ [b]) (log s ++ [Launched b]))
    | Fails e => (Fails e, s)
    | Hangs => (Hangs, s)
    end.

(** [browser.close()]: the instance is gone when the call succeeds. *)
Definition do_close (eng : Engine) (b : nat) : M unit :=
  fun s =>
    let s' := mkState (next s)
                (match close eng with
                 | Done _ => filter (fun b' => negb (Nat.eqb b' b)) (running s)
                 | _ => running s
                 end)
                (log s ++ [CloseCalled b]) in
    (close eng, s').

(** [try { body } catch (error) { handler } finally { fin }] around a
    body that assigns the local [browser]: the body answers with the
    value of [browser] when it stops, since [finally] reads it.  A call
    that never settles is never left. *)
Definition try_catch_finally {A}
    (body : state -> (answer A * option nat) * state)
    (handler : error -> M A)
    (fin : option nat -> M unit) : M A :=
  fun s =>
    let '((r, browser), s1) := body s in
    let '(r', s2) :=
      match r with
      | Fails e => handler e s1
      | _ => (r, s1)
      end in
    match r' with
    | Hangs => (Hangs, s2)
    | _ =>
        match fin browser s2 with
        | (Done _, s3) => (r', s3)
        | (Fails e, s3) => (Fails e, s3)
        | (Hangs, s3) => (Hangs, s3)
        end
    end.

(** A statement of the body that leaves [browser] as it is. *)
Definition keeping {A} (browser : option nat) (m : M A)
    : state -> (answer A * option nat) * state :=
  fun s => let '(r, s') := m s in ((r, browser), s').

Definition isProduction (env : Env) : bool :=
  match NODE_ENV env with
  | Some v => String.eqb v "production"
  | None => false
  end
  || match VERCEL env with
     | Some v => negb (String.eqb v EmptyString)
     | None => false
     end.

(** Lines 271-293, once [browser] is assigned. *)
Definition print (eng : Engine) (invoice : document) (b : nat) : M buffer :=
  bind (call (PageOpened b) (newPage eng)) (fun _ =>
  bind (await (setViewport eng)) (fun _ =>
  bind (await (generateInvoiceHTML eng invoice)) (fun htmlContent =>
  bind (call (ContentSet b) (setContent eng htmlContent)) (fun _ =>
  bind (call (Printed b) (pdf eng)) (fun pdf =>
  ret pdf))))).

(** [generateInvoicePDF], lines 246-302. *)
Definition generateInvoicePDF (rt : Runtime) (env : Env) (eng : Engine)
    (invoice : document) : M buffer :=
  try_catch_finally
    (fun s =>
       let prepared :=
         if isProduction env
         then await (executablePath eng) s
         else await (import_puppeteer eng) s in
       match prepared with
       | (Done _, s1) =>
           match do_launch eng s1 with
           | (Done b, s2) => keeping (Some b) (print eng invoice b) s2
           | (Fails e, s2) => ((Fails e, None), s2)
           | (Hangs, s2) => ((Hangs, None), s2)
           end
       | (Fails e, s1) => ((Fails e, None), s1)
       | (Hangs, s1) => ((Hangs, None), s1)
       end)
    (fun e =>
       let text := ("Erreur lors de la génération du PDF: " ++ message e)%string in
       await (Fails (mkError text (ErrorStack rt text))))
    (fun browser =>
       match browser with
       | Some b => do_close eng b
       | None => ret tt
       end).

End Render.

(* ================================================================== *)
(** ** The routes *)
(* ================================================================== *)

Inductive access : Type :=
| FindLatest
| FindById (id : string)
| Insert
| UpdateById (id : string).

(** What a handler works on: the store, the store operations issued so
    far (oldest first), the rendering engine's instances, and the lines
    written with [console.warn]. *)
Record world : Type := mkWorld {
  db : Store.t;
  accesses : list access;
  chrome : Render.state;
  warnings : list string
}.

Inductive payload : Type :=
| Message (props : list (string * value))   (* [res.json({ ... })] *)
| Invoice (d : document).                   (* [res.json(invoice)] *)

(** What the caller gets.  [Download] stands for the headers and the body
    of lines 164-180, which are functions of the file name, the
    generation time and the buffer.  [NextError] is an exception that
    [handleAsyncErrors] hands to [next]. *)
Inductive reply : Type :=
| Json (status : Z) (body : payload)
| Download (filename : string) (generationTime : Z) (content : buffer)
| NextError (t : thrown).

Definition touch (a : access) (w : world) : world :=
  mkWorld (db w) (accesses w ++ [a]) (chrome w) (warnings w).

Definition with_db (d : Store.t) (w : world) : world :=
  mkWorld d (accesses w) (chrome w) (warnings w).

(** The own properties an object spread copies.  The spreads of the
    routes come after [calculateInvoiceTotals], which throws unless the
    body is an object. *)
Definition own_props (v : value) : list (string * value) :=
  match v with
  | VObj props => props
  | _ => []
  end.

Definition totals_props (c : Totals) : list (string * value) :=
  [ ("totalHT", totalHT c); ("totalTVA", totalTVA c); ("timbre", timbre c);
    ("totalRemise", totalRemise c); ("totalTTC", totalTTC c) ]%string.

Definition field (d : document) (key : string) : value :=
  match JS.lookup key (fields d) with
  | Some v => v
  | None => VUndefined
  end.

Section Routes.
Variable rt : Runtime.

(** [GET /:id], lines 36-42. *)
Definition get_invoice (id : string) (w : world) : reply * world :=
  let w1 := touch (FindById id) w in
  match Store.findById (db w) id with
  | None => (Json 404 (Message [("message", VStr "Invoice not found")]%string), w1)
  | Some invoice => (Json 200 (Invoice invoice), w1)
  end.

(** Lines 48-53: the number of the next invoice. *)
Definition nextInvoiceNumber (lastInvoice : option document) : completion string :=
  nextNumber <-
    match lastInvoice with
    | None => Normal (IFin 1)
    | Some last =>
        match field last "invoiceNumber" with
        | VStr s =>
            let piece := match nth_error (Str.split s "BCC") 1 with
                         | Some p => p
                         | None => "undefined"%string   (* parseInt(undefined) *)
                         end in
            let lastNumber := Num.parseInt piece in
            Normal (Num.add1 lastNumber)
        | _ => Throw TypeError   (* no [split] to call *)
        end
    end ;;
  Normal ("BCC" ++ Str.padStart0 3 (Num.toString rt nextNumber))%string.

(** [POST /], lines 45-66.  [new_id] and [now] are the identifier and
    the creation time the store gives to the new document. *)
Definition post_invoice (new_id : string) (now : Z) (body : value) (w : world)
    : reply * world :=
  let w1 := touch FindLatest w in
  match nextInvoiceNumber (Store.findLatest (db w)) with
  | Throw t => (NextError t, w1)
  | Normal invoiceNumber =>
      match calculateInvoiceTotals rt body with
      | Throw t => (NextError t, w1)
      | Normal calculatedTotals =>
          let invoice :=
            mkDocument new_id now
              (Store.assign
                 (Store.set "invoiceNumber" (VStr invoiceNumber)
                    (Store.assign [] (own_props body)))
                 (totals_props calculatedTotals)) in
          let w2 := with_db (Store.insert (db w1) invoice) (touch Insert w1) in
          (Json 201 (Invoice invoice), w2)
      end
  end.

(** [PUT /:id], lines 69-85. *)
Definition put_invoice (id : string) (body : value) (w : world) : reply * world :=
  match calculateInvoiceTotals rt body with
  | Throw t => (NextError t, w)
  | Normal calculatedTotals =>
      let patch := Store.assign (Store.assign [] (own_props body))
                     (totals_props calculatedTotals) in
      let w1 := touch (UpdateById id) w in
      match Store.updateById (db w) id patch with
      | (None, _) => (Json 404 (Message [("message", VStr "Invoice not found")]%string), w1)
      | (Some invoice, db') => (Json 200 (Invoice invoice), with_db db' w1)
      end
  end.

End Routes.

(* ================================================================== *)
(** ** The list, delete and download routes *)
(* ================================================================== *)

(** These handlers are given on the store alone. *)

(** [GET /], lines 30-33: the invoices, newest first; [invoices] is
    the array the handler answers with. *)
Definition get_invoices (db : Store.t) (invoices : list document) : Prop :=
  Store.findAllSorted db invoices.

(** [DELETE /:id], lines 88-94. *)
Definition delete_invoice (id : string) (db : Store.t) : reply * Store.t :=
  match Store.deleteById db id with
  | (None, _) =>
      (Json 404 (Message [("message", VStr "Invoice not found")]%string), db)
  | (Some _, db') =>
      (Json 200 (Message [("message", VStr "Invoice deleted successfully")]%string),
       db')
  end.

(** [GET /:id/download], lines 238-241: the status and the location of
    the redirection. *)
Definition get_invoice_download (id : string) : Z * string :=
  (302, ("/api/invoices/" ++ id ++ "/pdf")%string).


(* ================================================================== *)
(** ** Delivery controller: [GET /:id/pdf] *)
(* ================================================================== *)

Module Pdf.

Definition is_hex (c : ascii) : bool :=
  let n := Num.code c in
  ((48 <=? n) && (n <=? 57)) || ((97 <=? n) && (n <=? 102))
  || ((65 <=? n) && (n <=? 70)).

(** [id.match(/^[0-9a-fA-F]{24}$/)] *)
Definition matches_id_format (id : string) : bool :=
  Nat.eqb (String.length id) 24 && forallb is_hex (list_ascii_of_string id).

Local Open Scope string_scope.

Definition timeoutMs : Z := 120000.

Definition timeout_text : string :=
  "PDF generation timeout - Le serveur met trop de temps à générer le PDF".

(** [Promise.race([render, timeoutPromise])]: the render wins when it
    settles before the timer fires, at [timeoutMs]; a render that never
    settles, or settles later, loses.  At equal times the order is the
    event loop's; the timer is taken here.  The answer carries the time
    at which the race was settled. *)
Definition race (rt : Runtime) (render : answer buffer) (render_time : Z)
    : (error + buffer) * Z :=
  let timeout := mkError timeout_text (ErrorStack rt timeout_text) in
  match render with
  | Hangs => (inl timeout, timeoutMs)
  | Done pdfBuffer =>
      if (render_time <? timeoutMs)%Z then (inr pdfBuffer, render_time)
      else (inl timeout, timeoutMs)
  | Fails e =>
      if (render_time <? timeoutMs)%Z then (inl e, render_time)
      else (inl timeout, timeoutMs)
  end.

Definition bytes_eqb (a b : list Byte.byte) : bool :=
  if list_eq_dec Byte.byte_eq_dec a b then true else false.

Definition pdf_magic : list Byte.byte := [Byte.x25; Byte.x50; Byte.x44; Byte.x46].
Definition eof_marker : list Byte.byte :=
  [Byte.x25; Byte.x25; Byte.x45; Byte.x4f; Byte.x46].

(** [buf.subarray(-n)] *)
Definition last_bytes (n : nat) (buf : buffer) : buffer :=
  skipn (List.length buf - n) buf.

(** Whether the bytes hold the marker: the decoded text includes the
    ASCII text ['%%EOF'] exactly when its bytes are there. *)
Fixpoint holds (marker bytes : list Byte.byte) : bool :=
  if bytes_eqb (firstn (List.length marker) bytes) marker then true
  else match bytes with
       | [] => false
       | _ :: rest => holds marker rest
       end.

Inductive verdict : Type :=
| Rejected (e : error)
| Accepted (warn_eof : bool).

(** Lines 142-161.  The header test compares the decoded first four
    bytes with ['%PDF'], which holds exactly for those four bytes. *)
Definition verify (rt : Runtime) (pdfBuffer : buffer) : verdict :=
  let fail text := Rejected (mkError text (ErrorStack rt text)) in
  if Nat.eqb (List.length pdfBuffer) 0 then fail "Le PDF généré est vide"%string
  else if Nat.ltb (List.length pdfBuffer) 1000
  then fail "Le PDF généré semble corrompu (trop petit)"%string
  else if negb (bytes_eqb (firstn 4 pdfBuffer) pdf_magic)
  then fail "Le fichier généré n'est pas un PDF valide"%string
  else Accepted (negb (holds eof_marker (last_bytes 6 pdfBuffer))).

Definition eof_warning : string := "[PDF] PDF may be incomplete - missing EOF marker".

(** Lines 186-210: status, message and code of a failure. *)
Definition classify (e : error) : Z * string * string :=
  let has := Str.includes (message e) in
  if has "timeout" then
    (504, "La génération du PDF prend trop de temps. Veuillez réessayer.", "PDF_TIMEOUT")
  else if has "memory" || has "Memory" then
    (507, "Mémoire insuffisante pour générer le PDF. Veuillez réessayer plus tard.",
     "INSUFFICIENT_MEMORY")
  else if has "browser" || has "puppeteer" then
    (503, "Service de génération PDF temporairement indisponible.",
     "PDF_SERVICE_UNAVAILABLE")
  else if has "not found" then
    (404, "Facture introuvable", "INVOICE_NOT_FOUND")
  else if has "vide" || has "corrompu" then
    (422, message e, "PDF_VALIDATION_ERROR")
  else
    (500, "Erreur lors de la génération du PDF", "PDF_GENERATION_ERROR").

Definition is_development (env : Env) : bool :=
  match NODE_ENV env with
  | Some v => String.eqb v "development"
  | None => false
  end.

(** Lines 222-233: the body of the failure response. *)
Definition failure_body (env : Env) (now : string) (invoice : document) (e : error)
    : list (string * value) :=
  let '(_, errorMessage, errorCode) := classify e in
  ([ ("message", VStr errorMessage);
     ("code", VStr errorCode);
     ("invoiceNumber", field invoice "invoiceNumber");
     ("timestamp", VStr now) ]
   ++ if is_development env
      then [ ("debug", VObj [ ("originalError", VStr (message e));
                              ("stack", VStr (stack e)) ]) ]
      else [])%list.

(** The [catch] block, lines 182-234. *)
Definition fail (env : Env) (now : string) (invoice : document) (e : error) : reply :=
  Json (fst (fst (classify e))) (Message (failure_body env now invoice e)).

(** The TypeErrors that the statements of lines 164-167 raise inside the
    [try] block, with the messages of V8 and of Node: the conversion of
    an object that has no primitive value, and [res.setHeader] on a value
    that holds a character it refuses (ERR_INVALID_CHAR). *)
Definition conversion_text : string := "Cannot convert object to primitive value".

Definition quote : string := String (ascii_of_nat 34) EmptyString.

Definition invalid_char_text : string :=
  "Invalid character in header content [" ++ quote ++ "Content-Disposition"
  ++ quote ++ "]".

(** The characters [res.setHeader] accepts in a value: TAB, U+0020 to
    U+007E and U+0080 to U+00FF.  In UTF-8 the characters up to U+007F
    are one byte, those from U+0080 to U+00FF are a byte C2 or C3 and a
    byte from 80 to BF, and every character above U+00FF starts with a
    byte from C4 on. *)
Definition header_byte (c : ascii) : bool :=
  let n := Num.code c in
  ((n =? 9) || ((32 <=? n) && (n <=? 126)) || ((128 <=? n) && (n <=? 195)))%Z.

Definition valid_header_value (s : string) : bool :=
  forallb header_byte (list_ascii_of_string s).

(** Lines 138-234: what is answered once the race is settled, with the
    error or the buffer that won.  [now] is the current time as
    [toISOString] writes it.  The file name is written twice in the
    Content-Disposition value of line 167, as it is and through
    [encodeURIComponent], between ASCII texts: the value is accepted
    exactly when the file name is.  The exceptions of lines 164-167 are
    caught by the [catch] block like those of the verification. *)
Definition respond (rt : Runtime) (env : Env) (now : string) (invoice : document)
    (settled : (error + buffer) * Z) (w : world) : reply * world :=
  match settled with
  | (inl e, _) => (fail env now invoice e, w)
  | (inr pdfBuffer, generationTime) =>
      match verify rt pdfBuffer with
      | Rejected e => (fail env now invoice e, w)
      | Accepted warn_eof =>
          let w' :=
            if warn_eof
            then mkWorld (db w) (accesses w) (chrome w) (warnings w ++ [eof_warning])
            else w in
          let day := hd EmptyString (Str.split now "T") in
          match JS.ToString rt (field invoice "invoiceNumber") with
          | Throw _ =>
              (fail env now invoice
                 (mkError conversion_text (ErrorStack rt conversion_text)), w')
          | Normal number =>
              let filename := "Facture_" ++ number ++ "_" ++ day ++ ".pdf" in
              if valid_header_value filename
              then (Download filename generationTime pdfBuffer, w')
              else (fail env now invoice
                      (mkError invalid_char_text (ErrorStack rt invalid_char_text)),
                    w')
          end
      end
  end.

(** The handler, lines 97-235.  Of the console, the warning of line 160
    is kept; the lines written with [console.log] and [console.error]
    are left out, but for the conversion of the invoice number in the
    template literal of line 118: it is outside the [try] block, and its
    exception goes to [next].  The store answers the lookup of line 109
    as the interface of the specification says, with the record or with
    nothing; [req.user], which line 119 prints, is the authentication
    layer's and is not modelled. *)
Definition get_invoice_pdf (rt : Runtime) (env : Env) (eng : Engine) (now : string)
    (id : string) (w : world) : reply * world :=
  if String.eqb id EmptyString || negb (matches_id_format id) then
    (Json 400 (Message [ ("message", VStr "Format d'ID de facture invalide");
                         ("code", VStr "INVALID_ID_FORMAT") ]), w)
  else
    let w1 := touch (FindById id) w in
    match Store.findById (db w) id with
    | None =>
        (Json 404 (Message [ ("message", VStr "Facture introuvable");
                             ("code", VStr "INVOICE_NOT_FOUND") ]), w1)
    | Some invoice =>
        match JS.ToString rt (field invoice "invoiceNumber") with
        | Throw t => (NextError t, w1)
        | Normal _ =>
            let '(render, chrome') :=
              Render.generateInvoicePDF rt env eng invoice (chrome w1) in
            let w2 := mkWorld (db w1) (accesses w1) chrome' (warnings w1) in
            respond rt env now invoice (race rt render (render_time eng)) w2
        end
    end.

End Pdf.

(* ================================================================== *)
(** ** Vocabulary of the properties, and sample inputs *)
(* ================================================================== *)

(** Some runtime, to run the definitions on inputs that need none of the
    coercions. *)
Definition any_runtime : Runtime :=
  mkRuntime (fun _ => EmptyString) (fun _ => nan) (fun _ => EmptyString)
            (fun _ => EmptyString).

(** The amount an item adds to the subtotal, in the words of the
    specification: its [totalPrice] when that is a number, and 0 when it
    is missing or not a number (a number that counts as false, 0 or NaN,
    adds 0 as well). *)
Definition contribution (item : value) : float :=
  match JS.Get item "totalPrice" with
  | Normal (VNum x) => if JS.ToBoolean (VNum x) then x else 0
  | _ => 0
  end.

(** The sum of the items' amounts, added from the left starting at 0. *)
Definition sum_of_item_totals (items : list value) : float :=
  fold_left (fun acc item => (acc + contribution item)%float) items 0%float.

(** An optional amount: the number supplied, or the default. *)
Definition amount_or (default : float) (v : value) : float :=
  match v with
  | VNum x => if JS.ToBoolean v then x else default
  | _ => default
  end.

(** A number, or a value that counts as false ([undefined], [null],
    [false], the empty string). *)
Definition number_or_falsy (v : value) : bool :=
  match v with
  | VNum _ => true
  | _ => negb (JS.ToBoolean v)
  end.

(** An item the calculator can read: an object whose [totalPrice] is a
    number or counts as false. *)
Definition priced (item : value) : Prop :=
  exists props, item = VObj props
    /\ number_or_falsy (match JS.lookup "totalPrice" props with
                        | Some p => p
                        | None => VUndefined
                        end) = true.

(** The value an object gives for a key, [undefined] when it has none. *)
Definition prop_of (key : string) (props : list (string * value)) : value :=
  match JS.lookup key props with
  | Some v => v
  | None => VUndefined
  end.

(** A body with a priced item, an item without price and a discount. *)
Definition two_items : list value :=
  [ VObj [("designation", VStr "Gouda"); ("totalPrice", VNum 12.5)];
    VObj [("designation", VStr "Brie")] ]%string.

Definition two_items_body : list (string * value) :=
  [ ("clientName", VStr "Alioui"); ("items", VArr two_items);
    ("totalRemise", VNum 2) ]%string.

(** The keys of an object. *)
Definition keys (props : list (string * value)) : list string := map fst props.

(** A value that has a primitive value: not an object with a [toString]
    key of its own, and not an array that holds such an object, at any
    depth. *)
Fixpoint convertible (v : value) : bool :=
  match v with
  | VArr elems => forallb convertible elems
  | VObj props =>
      match JS.lookup "toString" props with
      | Some _ => false
      | None => true
      end
  | _ => true
  end.

(** An item the calculator can add: its properties can be read (it is
    not [undefined] nor [null]) and its [totalPrice] has a primitive
    value. *)
Definition addable (item : value) : bool :=
  match JS.Get item "totalPrice" with
  | Normal price => convertible price
  | Throw _ => false
  end.

(** A body the calculator accepts: an object whose [items] is an array
    of items it can add, and whose [timbre] and [totalRemise] have a
    primitive value. *)
Definition accepted (body : value) : bool :=
  match body with
  | VObj props =>
      match JS.lookup "items" props with
      | Some (VArr items) =>
          forallb addable items
          && convertible (prop_of "timbre" props)
          && convertible (prop_of "totalRemise" props)
      | _ => false
      end
  | _ => false
  end.

(** A body that asks for a stamp duty of 0. *)
Definition zero_timbre_body : list (string * value) :=
  [ ("items", VArr [VObj [("totalPrice", VNum 40)]]); ("timbre", VNum 0) ]%string.

(** A body that writes a stamp duty of zero as a text. *)
Definition text_zero_timbre_body : list (string * value) :=
  [ ("items", VArr [VObj [("totalPrice", VNum 50)]]); ("timbre", VStr "0") ]%string.

(** A store that holds one invoice, and bodies to update it with. *)
Definition stored_invoice : document :=
  mkDocument "64b7f0c2a1d3e4f5a6b7c8d9" 1000
    [ ("invoiceNumber", VStr "BCC001"); ("clientName", VStr "Alioui");
      ("items", VArr []); ("totalHT", VNum 0) ]%string.

Definition one_invoice : world :=
  mkWorld [stored_invoice] [] (Render.mkState 0 [] []) [].

Definition new_items_body : list (string * value) :=
  [ ("items", VArr [VObj [("totalPrice", VNum 40)]]) ]%string.

Definition renumbering_body : value :=
  VObj [ ("items", VArr []); ("invoiceNumber", VStr "BCC999") ]%string.

(** Decimal digits, strings of decimal digits, and strings of zeros. *)
Definition is_digit (c : ascii) : bool :=
  (48 <=? Num.code c) && (Num.code c <=? 57).

Fixpoint digit_string (s : string) : bool :=
  match s with
  | EmptyString => true
  | String c rest => is_digit c && digit_string rest
  end.

Definition zeros (k : nat) : string :=
  String.concat EmptyString (repeat "0"%string k).

(** A store whose only invoice has the given number, and an empty one. *)
Definition numbered_invoice (number : string) : document :=
  mkDocument "64b7f0c2a1d3e4f5a6b7c8d9" 1000
    [ ("invoiceNumber", VStr number); ("items", VArr []) ]%string.

Definition store_with (number : string) : world :=
  mkWorld [numbered_invoice number] [] (Render.mkState 0 [] []) [].

Definition empty_store : world := mkWorld [] [] (Render.mkState 0 [] []) [].

(** A number without a numeric suffix, as the generator reads it: the
    text holds no "BCC", or the piece that follows the first "BCC" does
    not parse as an integer. *)
Definition unnumbered (s : string) : Prop :=
  Str.includes s "BCC" = false
  \/ exists piece, nth_error (Str.split s "BCC") 1 = Some piece
                   /\ Num.parseInt piece = INaN.

(** The letters A-Z and a-z. *)
Definition is_letter (c : ascii) : bool :=
  ((65 <=? Num.code c) && (Num.code c <=? 90))
  || ((97 <=? Num.code c) && (Num.code c <=? 122)).

(** The characters of an identifier, in the words of the specification. *)
Definition hex_char (c : ascii) : Prop :=
  In c (list_ascii_of_string "0123456789abcdefABCDEF").

(** An identifier of exactly 24 hexadecimal characters. *)
Definition well_formed_id (id : string) : Prop :=
  String.length id = 24%nat /\ Forall hex_char (list_ascii_of_string id).

(** The status of a JSON reply, and a property of its body. *)
Definition reply_status (r : reply) : option Z :=
  match r with
  | Json status _ => Some status
  | _ => None
  end.

Definition reply_prop (key : string) (r : reply) : option value :=
  match r with
  | Json _ (Message props) => JS.lookup key props
  | _ => None
  end.

(** Engines for the examples: one that prints 1000 zero bytes in 1.5 s,
    one that prints a given buffer, one whose content load fails, and
    one that needs 125 s; and the two configurations. *)
Definition idle_engine : Engine :=
  mkEngine (Done tt) (Done tt) (Done tt) (Done tt) (Done tt)
    (fun _ => Done "<html></html>"%string) (fun _ => Done tt)
    (Done (repeat Byte.x00 1000)) (Done tt) 1500.

Definition development : Env := mkEnv (Some "development"%string) None.
Definition production : Env := mkEnv (Some "production"%string) None.

(** What a failure response says: its status, its code and its message. *)
Definition answers (r : reply) (status : Z) (code text : string) : Prop :=
  reply_status r = Some status
  /\ reply_prop "code" r = Some (VStr code)
  /\ reply_prop "message" r = Some (VStr text).

Definition engine_printing (content : buffer) (time : Z) : Engine :=
  mkEngine (Done tt) (Done tt) (Done tt) (Done tt) (Done tt)
    (fun _ => Done "<html></html>"%string) (fun _ => Done tt)
    (Done content) (Done tt) time.

(** The instance a call is made on, and whether the call is a launch. *)
Definition event_handle (ev : Render.event) : nat :=
  match ev with
  | Render.Launched b | Render.PageOpened b | Render.ContentSet b
  | Render.Printed b | Render.CloseCalled b => b
  end.

Definition is_launch (ev : Render.event) : bool :=
  match ev with
  | Render.Launched _ => true
  | _ => false
  end.

(** The calls made on the instance [b] between its launch and its
    close. *)
Definition uses_only (b : nat) (evs : list Render.event) : Prop :=
  Forall (fun ev => event_handle ev = b /\ is_launch ev = false) evs.

(** What a render leaves behind, from the state [s] to the state [s']:
    no instance launched, or one instance, the next new one, on which
    all the calls are made and [close] is called last; and the instance
    occurs in no earlier call. *)
Definition scoped_instance (eng : Engine) (s s' : Render.state) : Prop :=
  let b := Render.next s in
  ((Render.log s' = Render.log s
    /\ Render.next s' = Render.next s
    /\ Render.running s' = Render.running s)
   \/ (exists mid,
         Render.log s'
         = (Render.log s ++ Render.Launched b :: mid ++ [Render.CloseCalled b])%list
         /\ uses_only b mid
         /\ Render.next s' = S b
         /\ (close eng = Done tt -> ~ In b (Render.running s) ->
             Render.running s' = Render.running s)))
  /\ (Forall (fun ev => (event_handle ev < b)%nat) (Render.log s) ->
      ~ In b (map event_handle (Render.log s))
      /\ Forall (fun ev => (event_handle ev < Render.next s')%nat) (Render.log s')).

Definition failing_content_engine : Engine :=
  mkEngine (Done tt) (Done tt) (Done tt) (Done tt) (Done tt)
    (fun _ => Done "<html></html>"%string)
    (fun _ => Fails (mkError "Navigation timeout of 30000 ms exceeded" EmptyString))
    (Done (repeat Byte.x00 1000)) (Done tt) 31000.

(** The world the PDF route hands to [respond]: the store was looked up
    once and the render has made its calls. *)
Definition after_render (rt : Runtime) (env : Env) (eng : Engine)
    (invoice : document) (id : string) (w : world) : world :=
  mkWorld (db w) (accesses w ++ [FindById id])
    (snd (Render.generateInvoicePDF rt env eng invoice (chrome w)))
    (warnings w).

(** An engine whose content load fails on the address of a font
    provider. *)
Definition provider_failing_engine : Engine :=
  mkEngine (Done tt) (Done tt) (Done tt) (Done tt) (Done tt)
    (fun _ => Done "<html></html>"%string)
    (fun _ => Fails (mkError
       "net::ERR_NAME_NOT_RESOLVED at https://fonts.provider.example/css"
       EmptyString))
    (Done (repeat Byte.x00 1000)) (Done tt) 900.

Definition slow_engine : Engine :=
  mkEngine (Done tt) (Done tt) (Done tt) (Done tt) (Done tt)
    (fun _ => Done "<html></html>"%string) (fun _ => Done tt)
    (Done (repeat Byte.x00 1000)) (Done tt) 125000.

(** A sum is a number or a string. *)
Definition number_or_string (v : value) : Prop :=
  (exists x, v = VNum x) \/ (exists s, v = VStr s).

(** A price that makes the sum a text: a string that is not empty, an
    array or an object. *)
Definition textual_price (item : value) : bool :=
  match JS.Get item "totalPrice" with
  | Normal price =>
      match JS.or price (VNum 0) with
      | VStr _ | VArr _ | VObj _ => true
      | _ => false
      end
  | Throw _ => false
  end.

(** A body with a price written as a string. *)
Definition quoted_price_body : list (string * value) :=
  [ ("items", VArr [ VObj [("totalPrice", VNum 12)];
                     VObj [("totalPrice", VStr "7.5")];
                     VObj [("totalPrice", VNum 3)] ]) ]%string.

(** The totals of a call of the calculator that returned. *)
Definition returned (c : completion Totals) : Totals :=
  match c with
  | Normal t => t
  | Throw _ => mkTotals VUndefined VUndefined VUndefined VUndefined VUndefined
  end.

(** The keys of the derived fields. *)
Definition derived_keys : list string :=
  [ "totalHT"; "totalTVA"; "timbre"; "totalRemise"; "totalTTC" ]%string.

(** A document whose derived fields agree: the tax is 0.19 times the
    subtotal, the grand total is subtotal + tax + stamp duty - discount
    (with the operators of the language), and the stamp duty counts as
    true. *)
Definition consistent (rt : Runtime) (d : document) : Prop :=
  JS.mul rt (field d "totalHT") (VNum 0.19) = Normal (field d "totalTVA")
  /\ (sum1 <- JS.add rt (field d "totalHT") (field d "totalTVA") ;;
      sum2 <- JS.add rt sum1 (field d "timbre") ;;
      JS.sub rt sum2 (field d "totalRemise"))
     = Normal (field d "totalTTC")
  /\ JS.ToBoolean (field d "timbre") = true.

(** The invoice number a reply carries, when the reply is an invoice. *)
Definition reply_number (r : reply) : option value :=
  match r with
  | Json _ (Invoice d) => Some (field d "invoiceNumber")
  | _ => None
  end.

(** A body that carries totals and a number of its own. *)
Definition forged_body : list (string * value) :=
  [ ("clientName", VStr "Alioui");
    ("items", VArr [VObj [("totalPrice", VNum 40)]]);
    ("invoiceNumber", VStr "BCC777");
    ("totalHT", VNum 1); ("totalTTC", VNum 1) ]%string.

(** The invoice a creation saves, for the number generated and the
    totals computed; and the invoice an update leaves in the place of
    [d0]. *)
Definition created (new_id : string) (now : Z) (body : value) (number : string)
    (c : Totals) : document :=
  mkDocument new_id now
    (Store.assign
       (Store.set "invoiceNumber" (VStr number) (Store.assign [] (own_props body)))
       (totals_props c)).

Definition merged (d0 : document) (body : value) (c : Totals) : document :=
  mkDocument (doc_id d0) (createdAt d0)
    (Store.assign (fields d0)
       (Store.assign (Store.assign [] (own_props body)) (totals_props c))).

(** Creation requests handled one after the other; each comes with the
    identifier and the creation time the store gives to its invoice. *)
Fixpoint create_all (rt : Runtime) (requests : list (string * Z * value))
    (w : world) : list reply * world :=
  match requests with
  | [] => ([], w)
  | (new_id, now, body) :: rest =>
      let '(r, w1) := post_invoice rt new_id now body w in
      let '(rs, w2) := create_all rt rest w1 in
      (r :: rs, w2)
  end.

(** Requests whose bodies the calculator accepts and whose creation
    times increase, starting after [t0]. *)
Fixpoint in_order (t0 : Z) (requests : list (string * Z * value)) : Prop :=
  match requests with
  | [] => True
  | (_, now, body) :: rest =>
      t0 < now /\ accepted body = true /\ in_order now rest
  end.

(** The [k] numbers after the number [n]. *)
Fixpoint numbers_after (n : N) (k : nat) : list (option value) :=
  match k with
  | O => []
  | S k' =>
      Some (VStr ("BCC" ++ Str.padStart0 3 (Num.decimal (n + 1))))
      :: numbers_after (n + 1) k'
  end.

(** The newest invoice of the store has the number [n] and the creation
    time [t], which no invoice of the store exceeds. *)
Definition newest_numbered (store : Store.t) (n : N) (t : Z) : Prop :=
  exists last,
    Store.findLatest store = Some last
    /\ field last "invoiceNumber"
       = VStr ("BCC" ++ Str.padStart0 3 (Num.decimal n))
    /\ Forall (fun d => createdAt d <= t) store.

(** Three creation requests. *)
Definition three_requests : list (string * Z * value) :=
  [ ("64b7f0c2a1d3e4f5a6b7c8d1", 10, VObj new_items_body);
    ("64b7f0c2a1d3e4f5a6b7c8d2", 20, VObj zero_timbre_body);
    ("64b7f0c2a1d3e4f5a6b7c8d3", 30, VObj new_items_body) ]%string.

(** A store whose only invoice has the number 17 for number. *)
Definition legacy_store : world :=
  mkWorld [ mkDocument "64b7f0c2a1d3e4f5a6b7c8d9" 1000
              [("invoiceNumber", VNum 17); ("items", VArr [])]%string ]
    [] (Render.mkState 0 [] []) [].

(** A store whose newest invoice has [null] for number. *)
Definition unnumbered_store : world :=
  mkWorld [ mkDocument "64b7f0c2a1d3e4f5a6b7c8d9" 1000
              [("invoiceNumber", VNull)]%string ]
    [] (Render.mkState 0 [] []) [].

(** The text [generateInvoicePDF] puts before the message of the error it
    caught. *)
Definition wrap_prefix : string := "Erreur lors de la génération du PDF: ".

(** An error with which a call on the page fails (lines 271-293), the
    calls before it having succeeded; and a call on the page that never
    settles. *)
Definition page_fails_with (eng : Engine) (invoice : document) (cause : error)
    : Prop :=
  newPage eng = Fails cause
  \/ (newPage eng = Done tt /\ setViewport eng = Fails cause)
  \/ (newPage eng = Done tt /\ setViewport eng = Done tt
      /\ (generateInvoiceHTML eng invoice = Fails cause
          \/ (exists html, generateInvoiceHTML eng invoice = Done html
                /\ (setContent eng html = Fails cause
                    \/ (setContent eng html = Done tt
                        /\ pdf eng = Fails cause))))).

Definition page_hangs (eng : Engine) (invoice : document) : Prop :=
  newPage eng = Hangs
  \/ setViewport eng = Hangs
  \/ generateInvoiceHTML eng invoice = Hangs
  \/ (exists html, generateInvoiceHTML eng invoice = Done html
        /\ setContent eng html = Hangs)
  \/ pdf eng = Hangs.

(** The call that prepares the launch: the path of the executable in
    production, the import of the module otherwise. *)
Definition preparation (env : Env) (eng : Engine) : answer unit :=
  if Render.isProduction env then executablePath eng else import_puppeteer eng.

(** An error with which the render of an invoice fails before its close:
    in the preparation, in the launch, or in a call on the page. *)
Definition engine_fails_with (env : Env) (eng : Engine) (invoice : document)
    (cause : error) : Prop :=
  preparation env eng = Fails cause
  \/ (preparation env eng = Done tt /\ launch eng = Fails cause)
  \/ (preparation env eng = Done tt /\ launch eng = Done tt
      /\ page_fails_with eng invoice cause).

(** The name of the file sent at the time [now] for an invoice whose
    number is written [number]. *)
Definition download_name (number : string) (now : string) : string :=
  ("Facture_" ++ number ++ "_" ++ hd EmptyString (Str.split now "T")
   ++ ".pdf")%string.

(** One arrangement of the documents by decreasing creation time: each
    document is put before the first one that is not younger. *)
Fixpoint insert_by_time (d : document) (sorted : list document) : list document :=
  match sorted with
  | [] => [d]
  | d' :: rest =>
      if createdAt d' <=? createdAt d then d :: sorted
      else d' :: insert_by_time d rest
  end.

Definition arranged (store : Store.t) : list document :=
  fold_right insert_by_time [] store.

(** A buffer that passes the verification, with its end marker. *)
Definition small_pdf : buffer :=
  (Pdf.pdf_magic ++ repeat Byte.x00 1000 ++ Pdf.eof_marker)%list.

(** An engine whose [close] fails after a document was printed. *)
Definition close_failing_engine : Engine :=
  mkEngine (Done tt) (Done tt) (Done tt) (Done tt) (Done tt)
    (fun _ => Done "<html></html>"%string) (fun _ => Done tt)
    (Done (repeat Byte.x00 1000))
    (Fails (mkError "Protocol error: Target closed" EmptyString)) 1500.

(* ================================================================== *)
(** ** Properties of the monetary calculator *)
(* ================================================================== *)

Section CalculatorFacts.
Variable rt : Runtime.

Lemma or_number_or_falsy (p : value) (d : float) :
  number_or_falsy p = true ->
  JS.or p (VNum d) = VNum (amount_or d p).
Proof.
  unfold JS.or, amount_or.
  destruct p as [| |b|x|s|l|l]; simpl; intros H;
    try reflexivity; try discriminate.
  - destruct b; [discriminate | reflexivity].
  - destruct (negb _); reflexivity.
  - destruct (negb (String.eqb s EmptyString)); [discriminate | reflexivity].
Qed.

Lemma add_numbers (a b : float) :
  JS.add rt (VNum a) (VNum b) = Normal (VNum (a + b)%float).
Proof. reflexivity. Qed.

Lemma price_step (sum : float) (item : value) :
  priced item ->
  (price <- JS.Get item "totalPrice" ;;
   JS.add rt (VNum sum) (JS.or price (VNum 0)))
  = Normal (VNum (sum + contribution item)%float).
Proof.
  intros (props & -> & Hp). unfold contribution. simpl.
  rewrite (or_number_or_falsy _ 0 Hp), add_numbers.
  do 2 f_equal. unfold amount_or.
  destruct (JS.lookup "totalPrice" props) as [[| |b|x|s|l|l]|]; reflexivity.
Qed.

Lemma fold_prices (items : list value) (sum : float) :
  Forall priced items ->
  JS.fold
    (fun sum item =>
       price <- JS.Get item "totalPrice" ;;
       JS.add rt sum (JS.or price (VNum 0)))
    items (VNum sum)
  = Normal (VNum (fold_left (fun acc item => (acc + contribution item)%float)
                    items sum)).
Proof.
  intros H. revert sum.
  induction H as [|item rest Hitem _ IH]; intros sum; simpl.
  - reflexivity.
  - rewrite (price_step sum item Hitem). simpl. apply IH.
Qed.

End CalculatorFacts.

(** C1, as amended: for a body whose [items] is a list of objects with a
    [totalPrice] that is a number or counts as false, and whose [timbre]
    and [totalRemise] are numbers or count as false, the calculator
    returns (it does not throw) with totalHT the sum of the items' amounts,
    totalTVA = totalHT * 0.19, timbre the amount supplied or 0.1,
    totalRemise the amount supplied or 0, and
    totalTTC = totalHT + totalTVA + timbre - totalRemise, in double
    arithmetic; an absent timbre gives 0.1 and an absent totalRemise 0. *)
Theorem calculateInvoiceTotals_numeric
    (rt : Runtime) (props : list (string * value)) (items : list value) :
  JS.lookup "items" props = Some (VArr items) ->
  Forall priced items ->
  number_or_falsy (prop_of "timbre" props) = true ->
  number_or_falsy (prop_of "totalRemise" props) = true ->
  let ht := sum_of_item_totals items in
  let tva := (ht * 0.19)%float in
  let tb := amount_or 0.1 (prop_of "timbre" props) in
  let rm := amount_or 0 (prop_of "totalRemise" props) in
  calculateInvoiceTotals rt (VObj props)
  = Normal (mkTotals (VNum ht) (VNum tva) (VNum tb) (VNum rm)
              (VNum (ht + tva + tb - rm)%float))
  /\ (JS.lookup "timbre" props = None -> tb = 0.1%float)
  /\ (JS.lookup "totalRemise" props = None -> rm = 0%float).
Proof.
  intros Hitems Hpriced Htb Hrm ht tva tb rm. split; [|split].
  - unfold calculateInvoiceTotals. simpl. rewrite Hitems. simpl.
    rewrite (fold_prices rt items 0 Hpriced). simpl.
    fold (prop_of "timbre" props) (prop_of "totalRemise" props).
    rewrite (or_number_or_falsy _ 0.1 Htb), (or_number_or_falsy _ 0 Hrm).
    reflexivity.
  - intros H. unfold tb, prop_of. rewrite H. reflexivity.
  - intros H. unfold rm, prop_of. rewrite H. reflexivity.
Qed.

Lemma two_items_priced : Forall priced two_items.
Proof.
  repeat constructor; eexists; (split; [reflexivity | reflexivity]).
Defined.

Lemma calculateInvoiceTotals_numeric_witness :
  calculateInvoiceTotals any_runtime (VObj two_items_body)
  = Normal (mkTotals (VNum (sum_of_item_totals two_items))
              (VNum (sum_of_item_totals two_items * 0.19)%float)
              (VNum 0.1) (VNum 2)
              (VNum (sum_of_item_totals two_items
                     + sum_of_item_totals two_items * 0.19 + 0.1 - 2)%float)).
Proof.
  exact (proj1 (calculateInvoiceTotals_numeric any_runtime two_items_body two_items
                  eq_refl two_items_priced eq_refl eq_refl)).
Defined.

(** What one item with the price [true] gives, on every runtime: the
    boolean is added as the number 1. *)
Lemma boolean_price_total (rt : Runtime) :
  calculateInvoiceTotals rt
    (VObj [("items", VArr [VObj [("totalPrice", VBool true)]])])%string
  = Normal (mkTotals (VNum (0 + 1)) (VNum ((0 + 1) * 0.19))
              (VNum 0.1) (VNum 0)
              (VNum ((0 + 1) + (0 + 1) * 0.19 + 0.1 - 0)))%float.
Proof. reflexivity. Qed.

(** A price that is a string makes the subtotal a string. *)
Remark string_price_total (rt : Runtime) :
  exists r,
    calculateInvoiceTotals rt
      (VObj [("items", VArr [VObj [("totalPrice", VStr "abc")]])])%string
    = Normal r
    /\ totalHT r = VStr (NumberToString rt 0 ++ "abc")%string.
Proof. eexists. split; reflexivity. Qed.

(** Without [items], with an item that is [null], and with a price
    that is an object holding a [toString] key, the calculator throws. *)
Remark missing_items_throw (rt : Runtime) :
  calculateInvoiceTotals rt (VObj []) = Throw TypeError
  /\ calculateInvoiceTotals rt (VObj [("items", VArr [VNull])])%string
     = Throw TypeError
  /\ calculateInvoiceTotals rt
       (VObj [("items",
               VArr [VObj [("totalPrice", VObj [("toString", VNum 1)])]])])%string
     = Throw TypeError.
Proof. repeat split; reflexivity. Qed.

Lemma float_one_not_zero : (0 + 1)%float <> (0 + 0)%float.
Proof.
  intros H.
  apply (f_equal (fun x => PrimFloat.eqb x 0)) in H.
  vm_compute in H. discriminate.
Qed.

(** C1, as stated, fails on an item whose [totalPrice] is [true]: the
    price is not a number, and it adds 1 to the subtotal, not 0. *)
Lemma calculateInvoiceTotals_boolean_price :
  (forall rt, exists r,
      calculateInvoiceTotals rt
        (VObj [("items", VArr [VObj [("totalPrice", VBool true)]])])%string
      = Normal r
      /\ totalHT r = VNum (0 + 1)%float)
  /\ VNum (0 + 1)%float
     <> VNum (sum_of_item_totals [VObj [("totalPrice", VBool true)]%string]).
Proof.
  split.
  - intros rt. eexists. split; [apply boolean_price_total | reflexivity].
  - intros H.
    apply (f_equal (fun v => match v with VNum x => x | _ => 0%float end)) in H.
    exact (float_one_not_zero H).
Qed.

(* ================================================================== *)
(** ** Properties of objects and of the store *)
(* ================================================================== *)

Section ObjectFacts.

Lemma lookup_none_keys (k : string) (props : list (string * value)) :
  JS.lookup k props = None <-> ~ In k (keys props).
Proof.
  induction props as [|[k' v] rest IH]; simpl.
  - tauto.
  - destruct (String.eqb_spec k' k) as [->|Hne].
    + split; [discriminate | intros H; exfalso; apply H; now left].
    + rewrite IH. split; [intros H [E|E]; [now apply Hne | now apply H] | tauto].
Qed.

Lemma lookup_set_same (k : string) (v : value) (props : list (string * value)) :
  JS.lookup k (Store.set k v props) = Some v.
Proof.
  induction props as [|[k' w] rest IH]; simpl.
  - now rewrite String.eqb_refl.
  - destruct (String.eqb_spec k' k) as [->|Hne]; simpl.
    + now rewrite String.eqb_refl.
    + destruct (String.eqb_spec k' k); [contradiction | exact IH].
Qed.

Lemma lookup_set_other (k k' : string) (v : value) (props : list (string * value)) :
  k' <> k ->
  JS.lookup k (Store.set k' v props) = JS.lookup k props.
Proof.
  intros Hne. induction props as [|[k0 w] rest IH]; simpl.
  - destruct (String.eqb_spec k' k); [contradiction | reflexivity].
  - destruct (String.eqb_spec k0 k') as [->|Hne0]; simpl.
    + destruct (String.eqb_spec k' k); [contradiction | reflexivity].
    + destruct (String.eqb_spec k0 k); [reflexivity | exact IH].
Qed.

Lemma set_keys (k : string) (v : value) (props : list (string * value)) :
  forall x, In x (keys (Store.set k v props)) <-> x = k \/ In x (keys props).
Proof.
  intros x. induction props as [|[k0 w] rest IH]; simpl.
  - intuition congruence.
  - destruct (String.eqb_spec k0 k) as [->|Hne]; simpl.
    + intuition congruence.
    + rewrite IH. intuition congruence.
Qed.

Lemma set_nodup (k : string) (v : value) (props : list (string * value)) :
  NoDup (keys props) -> NoDup (keys (Store.set k v props)).
Proof.
  induction props as [|[k0 w] rest IH]; simpl; intros H.
  - repeat constructor. intros [].
  - inversion H as [|? ? Hnotin Hrest]; subst.
    destruct (String.eqb_spec k0 k) as [->|Hne]; simpl.
    + now constructor.
    + constructor; [|now apply IH].
      fold (keys (Store.set k v rest)). rewrite set_keys.
      intros [E|E]; [now apply Hne | now apply Hnotin].
Qed.

Lemma assign_nodup (src target : list (string * value)) :
  NoDup (keys target) -> NoDup (keys (Store.assign target src)).
Proof.
  unfold Store.assign. revert target.
  induction src as [|[k v] rest IH]; simpl; intros target H.
  - exact H.
  - apply IH. now apply set_nodup.
Qed.

(** Reading a key after a spread: the source wins where it has the key. *)
Lemma lookup_assign (k : string) (src target : list (string * value)) :
  NoDup (keys src) ->
  JS.lookup k (Store.assign target src)
  = match JS.lookup k src with
    | Some v => Some v
    | None => JS.lookup k target
    end.
Proof.
  unfold Store.assign. revert target.
  induction src as [|[k1 v1] rest IH]; simpl; intros target H.
  - reflexivity.
  - inversion H as [|? ? Hnotin Hrest]; subst.
    rewrite (IH _ Hrest).
    destruct (String.eqb_spec k1 k) as [->|Hne].
    + apply lookup_none_keys in Hnotin. rewrite Hnotin.
      apply lookup_set_same.
    + destruct (JS.lookup k rest); [reflexivity|].
      now apply lookup_set_other.
Qed.

(** A key the source does not have is left as it was. *)
Lemma lookup_assign_absent (k : string) (src target : list (string * value)) :
  JS.lookup k src = None ->
  JS.lookup k (Store.assign target src) = JS.lookup k target.
Proof.
  unfold Store.assign. revert target.
  induction src as [|[k1 v1] rest IH]; simpl; intros target H.
  - reflexivity.
  - destruct (String.eqb_spec k1 k) as [->|Hne]; [discriminate|].
    rewrite (IH _ H). now apply lookup_set_other.
Qed.

Lemma totals_props_nodup (c : Totals) : NoDup (keys (totals_props c)).
Proof.
  unfold totals_props, keys. simpl.
  repeat constructor; simpl; intuition discriminate.
Qed.

(** The patch and the new document hold the computed totals. *)
Lemma lookup_with_totals (target : list (string * value)) (c : Totals) :
  JS.lookup "totalHT" (Store.assign target (totals_props c)) = Some (totalHT c)
  /\ JS.lookup "totalTVA" (Store.assign target (totals_props c)) = Some (totalTVA c)
  /\ JS.lookup "timbre" (Store.assign target (totals_props c)) = Some (timbre c)
  /\ JS.lookup "totalRemise" (Store.assign target (totals_props c))
     = Some (totalRemise c)
  /\ JS.lookup "totalTTC" (Store.assign target (totals_props c)) = Some (totalTTC c).
Proof.
  repeat split; rewrite (lookup_assign _ _ _ (totals_props_nodup c)); reflexivity.
Qed.

Lemma lookup_with_totals_other (k : string) (target : list (string * value))
    (c : Totals) :
  JS.lookup k (totals_props c) = None ->
  JS.lookup k (Store.assign target (totals_props c)) = JS.lookup k target.
Proof. apply lookup_assign_absent. Qed.

(** [findLatest] answers with a document of the store that no document
    of the store is younger than, and with nothing on the empty store
    only. *)
Lemma findLatest_latest (db : Store.t) (d : document) :
  Store.findLatest db = Some d ->
  In d db /\ Forall (fun d' => createdAt d' <= createdAt d) db.
Proof.
  revert d. induction db as [|d0 rest IH]; simpl; intros d H; [discriminate|].
  destruct (Store.findLatest rest) as [d'|] eqn:E.
  - destruct (IH d' eq_refl) as [Hin Hall].
    destruct (Z.ltb_spec (createdAt d0) (createdAt d')) as [Hlt|Hge];
      injection H as <-.
    + split; [now right|]. constructor; [lia | exact Hall].
    + split; [now left|]. constructor; [lia|].
      eapply Forall_impl; [|exact Hall]. cbn. intros; lia.
  - injection H as <-. split; [now left|].
    destruct rest as [|d1 rest']; [repeat constructor; lia|].
    simpl in E. destruct (Store.findLatest rest'); [destruct (_ <? _)|]; discriminate.
Qed.

Lemma findLatest_none (db : Store.t) :
  Store.findLatest db = None <-> db = [].
Proof.
  destruct db as [|d0 rest]; simpl; [tauto|].
  split; [|discriminate].
  destruct (Store.findLatest rest); [destruct (_ <? _)|]; discriminate.
Qed.

Lemma findById_update (db : Store.t) (id : string) (patch : list (string * value))
    (d : document) :
  Store.findById db id = Some d ->
  let d' := mkDocument (doc_id d) (createdAt d) (Store.assign (fields d) patch) in
  Store.updateById db id patch = (Some d', snd (Store.updateById db id patch))
  /\ Store.findById (snd (Store.updateById db id patch)) id = Some d'.
Proof.
  induction db as [|d0 rest IH]; simpl; intros H.
  - discriminate.
  - destruct (String.eqb (doc_id d0) id) eqn:E.
    + injection H as <-. simpl. rewrite E. split; reflexivity.
    + specialize (IH H). destruct IH as [IH1 IH2].
      destruct (Store.updateById rest id patch) as [r rest'] eqn:U.
      simpl in *. rewrite E. injection IH1 as ->. split; [reflexivity | exact IH2].
Qed.

Lemma findById_update_none (db : Store.t) (id : string)
    (patch : list (string * value)) :
  Store.findById db id = None ->
  Store.updateById db id patch = (None, db).
Proof.
  induction db as [|d0 rest IH]; simpl; intros H.
  - reflexivity.
  - destruct (String.eqb (doc_id d0) id); [discriminate|].
    now rewrite (IH H).
Qed.

End ObjectFacts.

(* ================================================================== *)
(** ** Properties of the conversions *)
(* ================================================================== *)

Section ConversionFacts.
Variable rt : Runtime.

(** Induction on a value and on the elements of its arrays. *)
Lemma value_elements_ind (P : value -> Prop) :
  P VUndefined -> P VNull -> (forall b, P (VBool b)) -> (forall x, P (VNum x)) ->
  (forall s, P (VStr s)) ->
  (forall elems, Forall P elems -> P (VArr elems)) ->
  (forall props, P (VObj props)) ->
  forall v, P v.
Proof.
  intros HU HN HB HX HS HA HO.
  fix IH 1. intros [| |b|x|s|elems|props];
    [exact HU | exact HN | apply HB | apply HX | apply HS | | apply HO].
  apply HA. induction elems as [|e rest IHrest]; constructor;
    [apply IH | exact IHrest].
Qed.

Lemma ToString_array (elems : list value) :
  JS.ToString rt (VArr elems) = JS.join (JS.ToString rt) elems.
Proof. reflexivity. Qed.

(** A conversion to a string returns exactly on the values that have a
    primitive value, and throws a TypeError on the others. *)
Lemma ToString_cases (v : value) :
  if convertible v
  then exists s, JS.ToString rt v = Normal s
  else JS.ToString rt v = Throw TypeError.
Proof.
  induction v as [| |b|x|s|elems IH|props] using value_elements_ind;
    try (simpl; eexists; reflexivity).
  - destruct b; simpl; eexists; reflexivity.
  - rewrite ToString_array. cbn [convertible].
    induction IH as [|e rest He _ IHrest]; [simpl; eexists; reflexivity|].
    cbn [forallb JS.join].
    assert (Hp : if convertible e
                 then exists p, match e with
                                | VUndefined | VNull => Normal EmptyString
                                | _ => JS.ToString rt e
                                end = Normal p
                 else match e with
                      | VUndefined | VNull => Normal EmptyString
                      | _ => JS.ToString rt e
                      end = Throw TypeError).
    { destruct e; try exact He; simpl; eexists; reflexivity. }
    destruct (convertible e); cbn [andb].
    + destruct Hp as [p ->]. cbn [bind].
      destruct rest as [|e' rest']; [eexists; reflexivity|].
      destruct (forallb convertible (e' :: rest')).
      * destruct IHrest as [tail ->]. eexists; reflexivity.
      * rewrite IHrest. reflexivity.
    + rewrite Hp. reflexivity.
  - simpl. destruct (JS.lookup "toString" props); [reflexivity | eexists; reflexivity].
Qed.

Lemma ToPrimitive_cases (v : value) :
  if convertible v
  then exists p,
         JS.ToPrimitive rt v = Normal p
         /\ convertible p = true
         /\ match p with VArr _ | VObj _ => False | _ => True end
         /\ JS.is_string p
            = match v with VStr _ | VArr _ | VObj _ => true | _ => false end
  else JS.ToPrimitive rt v = Throw TypeError.
Proof.
  pose proof (ToString_cases v) as H.
  destruct v as [| |b|x|s|elems|props];
    try (simpl; eexists; repeat split; reflexivity);
    unfold JS.ToPrimitive;
    (destruct (convertible _);
     [destruct H as [s ->]; eexists; repeat split; reflexivity
     | rewrite H; reflexivity]).
Qed.

Lemma ToNumber_cases (v : value) :
  if convertible v
  then exists x, JS.ToNumber rt v = Normal x
  else JS.ToNumber rt v = Throw TypeError.
Proof.
  pose proof (ToString_cases v) as H.
  destruct v as [| |b|x|s|elems|props];
    try (simpl; eexists; reflexivity);
    try (destruct b; simpl; eexists; reflexivity);
    unfold JS.ToNumber;
    (destruct (convertible _);
     [destruct H as [s ->]; eexists; reflexivity | rewrite H; reflexivity]).
Qed.

(** The value of [p || d] has a primitive value when [p] has one. *)
Lemma convertible_or (p : value) (d : float) :
  convertible (JS.or p (VNum d)) = convertible p.
Proof.
  unfold JS.or. destruct (JS.ToBoolean p) eqn:E; [reflexivity|].
  destruct p; try reflexivity; discriminate E.
Qed.

(** A sum of a number or a string and of a value: it is a number or a
    string again, a string as soon as a string, an array or an object
    is added; it throws when the value has no primitive value. *)
Lemma add_cases (acc q : value) :
  number_or_string acc ->
  if convertible q
  then exists v,
         JS.add rt acc q = Normal v
         /\ number_or_string v
         /\ JS.is_string v
            = JS.is_string acc
              || match q with VStr _ | VArr _ | VObj _ => true | _ => false end
  else JS.add rt acc q = Throw TypeError.
Proof.
  intros Hacc. pose proof (ToPrimitive_cases q) as Hq.
  unfold JS.add.
  assert (Ha : JS.ToPrimitive rt acc = Normal acc)
    by (destruct Hacc as [[x ->] | [s ->]]; reflexivity).
  rewrite Ha. cbn [bind].
  destruct (convertible q); [|now rewrite Hq].
  destruct Hq as (p & -> & _ & Hprim & Hstr). cbn [bind]. rewrite Hstr.
  destruct Hacc as [[x ->] | [s ->]]; cbn [JS.is_string orb].
  - destruct q as [| |b|y|s|l|o]; cbn [JS.is_string] in Hstr |- *;
      destruct p as [| |b'|y'|s'|l'|o']; try discriminate Hstr;
      try contradiction;
      try (destruct b'); simpl; eexists;
      (split; [reflexivity | split; [unfold number_or_string; eauto | reflexivity]]).
  - destruct p as [| |b'|y'|s'|l'|o']; try contradiction;
      try (destruct b'); simpl; eexists;
      (split; [reflexivity | split; [unfold number_or_string; eauto | reflexivity]]).
Qed.

Lemma mul_cases (a : value) (k : float) :
  number_or_string a -> exists x, JS.mul rt a (VNum k) = Normal (VNum x).
Proof. intros [[x ->] | [s ->]]; eexists; reflexivity. Qed.

Lemma sub_cases (a b : value) :
  number_or_string a ->
  if convertible b
  then exists x, JS.sub rt a b = Normal (VNum x)
  else JS.sub rt a b = Throw TypeError.
Proof.
  intros Ha. pose proof (ToNumber_cases b) as Hb. unfold JS.sub.
  assert (exists x, JS.ToNumber rt a = Normal x) as [x ->]
    by (destruct Ha as [[x ->] | [s ->]]; eexists; reflexivity).
  cbn [bind]. destruct (convertible b).
  - destruct Hb as [y ->]. eexists; reflexivity.
  - now rewrite Hb.
Qed.

End ConversionFacts.

(* ================================================================== *)
(** ** When the calculator returns *)
(* ================================================================== *)

Section CalculatorReturns.
Variable rt : Runtime.

Let step := fun sum item =>
  price <- JS.Get item "totalPrice" ;;
  JS.add rt sum (JS.or price (VNum 0)).

Lemma Get_object (props : list (string * value)) (key : string) :
  JS.Get (VObj props) key = Normal (prop_of key props).
Proof. reflexivity. Qed.

Lemma Get_throws (base : value) (key : string) (t : thrown) :
  JS.Get base key = Throw t -> t = TypeError.
Proof. destruct base; simpl; congruence. Qed.

(** The reduction of line 9 returns exactly on the items the calculator
    can add, with a number or a string, a string as soon as one price
    is a text; on other items it throws a TypeError. *)
Lemma fold_cases (items : list value) (acc : value) :
  number_or_string acc ->
  if forallb addable items
  then exists v,
         JS.fold step items acc = Normal v
         /\ number_or_string v
         /\ JS.is_string v = JS.is_string acc || existsb textual_price items
  else JS.fold step items acc = Throw TypeError.
Proof.
  revert acc. induction items as [|item rest IH]; intros acc Hacc;
    cbn [forallb existsb JS.fold].
  - exists acc. split; [reflexivity | split; [exact Hacc | now rewrite orb_false_r]].
  - assert (Hstep : step acc item
                    = (price <- JS.Get item "totalPrice" ;;
                       JS.add rt acc (JS.or price (VNum 0)))) by reflexivity.
    rewrite Hstep. clear Hstep. unfold addable at 1, textual_price at 1.
    destruct (JS.Get item "totalPrice") as [price|t] eqn:G; cbn [bind andb].
    + pose proof (add_cases rt acc (JS.or price (VNum 0)) Hacc) as A.
      rewrite convertible_or in A.
      destruct (convertible price); cbn [andb]; [|now rewrite A].
      destruct A as (v & -> & Hk & Hs). cbn [bind].
      specialize (IH v Hk). destruct (forallb addable rest); [|exact IH].
      destruct IH as (v' & -> & Hk' & Hs'). exists v'.
      split; [reflexivity | split; [exact Hk'|]].
      rewrite Hs', Hs. now rewrite orb_assoc.
    + now rewrite (Get_throws _ _ _ G).
Qed.

Lemma accepted_object (body : value) :
  accepted body = true ->
  exists props items,
    body = VObj props
    /\ JS.lookup "items" props = Some (VArr items)
    /\ forallb addable items = true
    /\ convertible (prop_of "timbre" props) = true
    /\ convertible (prop_of "totalRemise" props) = true.
Proof.
  destruct body as [| |b|x|s|l|props]; try discriminate. simpl.
  destruct (JS.lookup "items" props) as [[| |b|x|s|items|o]|] eqn:Hi;
    try discriminate.
  intros H. apply andb_prop in H as [H H3]. apply andb_prop in H as [H1 H2].
  exists props, items. repeat split; assumption.
Qed.

(** The calculator returns on the bodies it accepts (see [accepted]),
    and throws a TypeError on every other value. *)
Lemma calculator_returns (props : list (string * value)) :
  accepted (VObj props) = true ->
  exists c,
    calculateInvoiceTotals rt (VObj props) = Normal c
    /\ timbre c = JS.or (prop_of "timbre" props) (VNum 0.1)
    /\ totalRemise c = JS.or (prop_of "totalRemise" props) (VNum 0).
Proof.
  intros H.
  destruct (accepted_object _ H) as (props' & items & E & Hitems & Hadd & Htb & Hrm).
  injection E as <-.
  unfold calculateInvoiceTotals. rewrite !Get_object.
  unfold prop_of at 1. rewrite Hitems. cbn [bind JS.reduce]. fold step.
  pose proof (fold_cases items (VNum 0) (or_introl (ex_intro _ _ eq_refl))) as F.
  rewrite Hadd in F. destruct F as (ht & -> & Hk & _). cbn [bind].
  destruct (mul_cases rt ht 0.19 Hk) as [tva ->]. cbn [bind].
  pose proof (add_cases rt ht (VNum tva) Hk) as A1. cbn [convertible] in A1.
  destruct A1 as (s1 & -> & Hk1 & _). cbn [bind].
  pose proof (add_cases rt s1 (JS.or (prop_of "timbre" props) (VNum 0.1)) Hk1) as A2.
  rewrite convertible_or, Htb in A2.
  destruct A2 as (s2 & -> & Hk2 & _). cbn [bind].
  pose proof (sub_cases rt s2 (JS.or (prop_of "totalRemise" props) (VNum 0)) Hk2)
    as A3.
  rewrite convertible_or, Hrm in A3. destruct A3 as (x & ->). cbn [bind].
  eexists. split; [reflexivity | split; reflexivity].
Qed.

Lemma calculator_throws (body : value) :
  accepted body = false ->
  calculateInvoiceTotals rt body = Throw TypeError.
Proof.
  destruct body as [| |b|x|s|l|props]; try reflexivity.
  unfold accepted, calculateInvoiceTotals. rewrite !Get_object.
  unfold prop_of at 3.
  destruct (JS.lookup "items" props) as [[| |b|x|s|items|o]|]; try reflexivity.
  cbn [bind JS.reduce]. fold step. intros H.
  pose proof (fold_cases items (VNum 0) (or_introl (ex_intro _ _ eq_refl))) as F.
  destruct (forallb addable items); [|now rewrite F].
  destruct F as (ht & -> & Hk & _). cbn [bind].
  destruct (mul_cases rt ht 0.19 Hk) as [tva ->]. cbn [bind].
  pose proof (add_cases rt ht (VNum tva) Hk) as A1. cbn [convertible] in A1.
  destruct A1 as (s1 & -> & Hk1 & _). cbn [bind].
  pose proof (add_cases rt s1 (JS.or (prop_of "timbre" props) (VNum 0.1)) Hk1) as A2.
  rewrite convertible_or in A2.
  destruct (convertible (prop_of "timbre" props)); [|now rewrite A2].
  destruct A2 as (s2 & -> & Hk2 & _). cbn [bind].
  pose proof (sub_cases rt s2 (JS.or (prop_of "totalRemise" props) (VNum 0)) Hk2)
    as A3.
  rewrite convertible_or in A3.
  destruct (convertible (prop_of "totalRemise" props)); [discriminate H|].
  now rewrite A3.
Qed.

Lemma calculator_needs_items (body : value) (c : Totals) :
  calculateInvoiceTotals rt body = Normal c -> accepted body = true.
Proof.
  intros H. destruct (accepted body) eqn:E; [reflexivity|].
  rewrite (calculator_throws body E) in H. discriminate.
Qed.

Lemma calculator_throws_TypeError (body : value) (t : thrown) :
  calculateInvoiceTotals rt body = Throw t -> t = TypeError.
Proof.
  intros H. destruct (accepted body) eqn:E.
  - destruct (accepted_object _ E) as (props & _ & -> & _).
    destruct (calculator_returns props E) as (c & Hc & _). congruence.
  - rewrite (calculator_throws body E) in H. congruence.
Qed.

(** The subtotal returned is the result of the reduction. *)
Lemma calculator_totalHT (props : list (string * value)) (items : list value)
    (c : Totals) :
  JS.lookup "items" props = Some (VArr items) ->
  calculateInvoiceTotals rt (VObj props) = Normal c ->
  JS.fold step items (VNum 0) = Normal (totalHT c).
Proof.
  intros Hitems. unfold calculateInvoiceTotals. rewrite !Get_object.
  unfold prop_of at 1. rewrite Hitems. cbn [bind JS.reduce]. fold step.
  destruct (JS.fold step items (VNum 0)) as [ht|]; cbn [bind]; [|discriminate].
  destruct (JS.mul rt ht (VNum 0.19)) as [tva|]; cbn [bind]; [|discriminate].
  destruct (JS.add rt ht tva) as [s1|]; cbn [bind]; [|discriminate].
  destruct (JS.add rt s1 _) as [s2|]; cbn [bind]; [|discriminate].
  destruct (JS.sub rt s2 _) as [ttc|]; cbn [bind]; [|discriminate].
  intros H. injection H as <-. reflexivity.
Qed.

(** The totals returned agree: the tax is the product, the grand total
    the sum and the difference, that the operators give. *)
Lemma totals_agree (body : value) (c : Totals) :
  calculateInvoiceTotals rt body = Normal c ->
  JS.mul rt (totalHT c) (VNum 0.19) = Normal (totalTVA c)
  /\ (sum1 <- JS.add rt (totalHT c) (totalTVA c) ;;
      sum2 <- JS.add rt sum1 (timbre c) ;;
      JS.sub rt sum2 (totalRemise c))
     = Normal (totalTTC c).
Proof.
  unfold calculateInvoiceTotals.
  destruct (JS.Get body "items") as [items|]; cbn [bind]; [|discriminate].
  destruct (JS.reduce items _ _) as [ht|]; cbn [bind]; [|discriminate].
  destruct (JS.mul rt ht (VNum 0.19)) as [tva|] eqn:M; cbn [bind]; [|discriminate].
  destruct (JS.Get body "timbre") as [tb|]; cbn [bind]; [|discriminate].
  destruct (JS.Get body "totalRemise") as [rm|]; cbn [bind]; [|discriminate].
  destruct (JS.add rt ht tva) as [s1|] eqn:A1; cbn [bind]; [|discriminate].
  destruct (JS.add rt s1 _) as [s2|] eqn:A2; cbn [bind]; [|discriminate].
  destruct (JS.sub rt s2 _) as [ttc|] eqn:A3; cbn [bind]; [|discriminate].
  intros H. injection H as <-.
  cbn [totalHT totalTVA timbre totalRemise totalTTC].
  split; [exact M|]. rewrite A1. cbn [bind]. rewrite A2. cbn [bind]. exact A3.
Qed.

(** The stamp duty the calculator returns never counts as false: it is
    never 0. *)
Lemma timbre_truthy (body : value) (c : Totals) :
  calculateInvoiceTotals rt body = Normal c ->
  JS.ToBoolean (timbre c) = true.
Proof.
  intros H.
  pose proof (calculator_needs_items body c H) as Hacc.
  destruct (accepted_object _ Hacc) as (props & _ & -> & _).
  destruct (calculator_returns props Hacc) as (c' & Hc & Ht & _).
  rewrite H in Hc. injection Hc as <-. rewrite Ht.
  unfold JS.or. destruct (JS.ToBoolean (prop_of "timbre" props)) eqn:E;
    [exact E | reflexivity].
Qed.

(** The document [POST /] saves holds the computed totals. *)
Lemma post_invoice_saved (new_id : string) (now : Z) (body : value) (w w' : world)
    (status : Z) (d : document) :
  post_invoice rt new_id now body w = (Json status (Invoice d), w') ->
  exists c,
    calculateInvoiceTotals rt body = Normal c
    /\ status = 201
    /\ doc_id d = new_id
    /\ JS.lookup "timbre" (fields d) = Some (timbre c)
    /\ In d (db w').
Proof.
  unfold post_invoice. intros H.
  destruct (nextInvoiceNumber rt (Store.findLatest (db w))) as [n|t];
    [|discriminate].
  destruct (calculateInvoiceTotals rt body) as [c|t]; [|discriminate].
  injection H as <- <- <-. exists c.
  repeat split; try reflexivity.
  - apply lookup_with_totals.
  - simpl. unfold Store.insert. apply in_or_app. right. now left.
Qed.

(** What [PUT /:id] does to a document of the store. *)
Lemma put_invoice_found (id : string) (props : list (string * value))
    (c : Totals) (w : world) (d0 : document) :
  calculateInvoiceTotals rt (VObj props) = Normal c ->
  Store.findById (db w) id = Some d0 ->
  let patch := Store.assign (Store.assign [] props) (totals_props c) in
  let d := mkDocument (doc_id d0) (createdAt d0) (Store.assign (fields d0) patch) in
  fst (put_invoice rt id (VObj props) w) = Json 200 (Invoice d)
  /\ Store.findById (db (snd (put_invoice rt id (VObj props) w))) id = Some d
  /\ NoDup (keys patch).
Proof.
  intros Hc Hfind patch d. unfold put_invoice. rewrite Hc. simpl own_props.
  fold patch.
  destruct (findById_update (db w) id patch d0 Hfind) as [Hu Hf].
  fold d in Hu, Hf. rewrite Hu. simpl.
  split; [reflexivity | split; [exact Hf|]].
  apply assign_nodup, assign_nodup. constructor.
Qed.

Lemma put_invoice_replied (id : string) (body : value) (w w' : world)
    (status : Z) (d : document) :
  put_invoice rt id body w = (Json status (Invoice d), w') ->
  exists c, calculateInvoiceTotals rt body = Normal c
    /\ JS.lookup "timbre" (fields d) = Some (timbre c).
Proof.
  intros H. unfold put_invoice in H.
  destruct (calculateInvoiceTotals rt body) as [c|t] eqn:Hc; [|discriminate].
  exists c. split; [reflexivity|].
  destruct (accepted_object _ (calculator_needs_items body c Hc))
    as (props & items & -> & _).
  simpl own_props in H.
  remember (Store.assign (Store.assign [] props) (totals_props c)) as patch
    eqn:Ep.
  destruct (Store.findById (db w) id) as [d0|] eqn:Hf.
  - destruct (findById_update (db w) id patch d0 Hf) as [Hu _].
    rewrite Hu in H. injection H as _ <- _. cbn [fields].
    rewrite lookup_assign.
    + subst patch.
      now rewrite (proj1 (proj2 (proj2 (lookup_with_totals _ c)))).
    + subst patch. apply assign_nodup, assign_nodup. constructor.
  - rewrite (findById_update_none _ _ _ Hf) in H. discriminate.
Qed.

End CalculatorReturns.

(** C9, as amended: on every body the calculator accepts, a supplied
    [timbre] that counts as false (0, NaN, [null], [false], the empty
    string) is replaced by 0.1, and the invoices that creation and update
    answer with hold the 0.1; whatever the body, the stamp duty that the
    calculator returns is the one supplied when that counts as true and
    0.1 otherwise, so that it counts as true, like the one that creation
    and update save: it is never the number 0. *)
Theorem falsy_timbre_is_replaced
    (rt : Runtime) (props : list (string * value)) :
  accepted (VObj props) = true ->
  JS.ToBoolean (prop_of "timbre" props) = false ->
  (exists c, calculateInvoiceTotals rt (VObj props) = Normal c
             /\ timbre c = VNum 0.1)
  /\ (forall new_id now w w' status d,
        post_invoice rt new_id now (VObj props) w = (Json status (Invoice d), w') ->
        field d "timbre" = VNum 0.1)
  /\ (forall id w w' status d,
        put_invoice rt id (VObj props) w = (Json status (Invoice d), w') ->
        field d "timbre" = VNum 0.1)
  /\ (forall props' c,
        calculateInvoiceTotals rt (VObj props') = Normal c ->
        timbre c = JS.or (prop_of "timbre" props') (VNum 0.1))
  /\ (forall body c,
        calculateInvoiceTotals rt body = Normal c ->
        JS.ToBoolean (timbre c) = true)
  /\ (forall body new_id now w w' status d,
        post_invoice rt new_id now body w = (Json status (Invoice d), w') ->
        JS.ToBoolean (field d "timbre") = true)
  /\ (forall body id w w' status d,
        put_invoice rt id body w = (Json status (Invoice d), w') ->
        JS.ToBoolean (field d "timbre") = true).
Proof.
  intros Hacc Hfalsy.
  destruct (calculator_returns rt props Hacc) as (c & Hc & Ht & _).
  assert (Htb : timbre c = VNum 0.1).
  { rewrite Ht. unfold JS.or. now rewrite Hfalsy. }
  repeat match goal with |- _ /\ _ => split end.
  - exists c. split; [exact Hc | exact Htb].
  - intros new_id now w w' status d H.
    destruct (post_invoice_saved rt _ _ _ _ _ _ _ H) as (c' & Hc' & _ & _ & Hl & _).
    rewrite Hc in Hc'. injection Hc' as <-.
    unfold field. now rewrite Hl.
  - intros id w w' status d H.
    destruct (put_invoice_replied rt _ _ _ _ _ _ H) as (c' & Hc' & Hl).
    rewrite Hc in Hc'. injection Hc' as <-.
    unfold field. now rewrite Hl.
  - intros props' c' H'.
    destruct (calculator_returns rt props' (calculator_needs_items rt _ c' H'))
      as (c'' & Hc'' & Ht'' & _).
    rewrite H' in Hc''. injection Hc'' as <-. exact Ht''.
  - intros body c'. apply timbre_truthy.
  - intros body new_id now w w' status d H.
    destruct (post_invoice_saved rt _ _ _ _ _ _ _ H) as (c' & Hc' & _ & _ & Hl & _).
    unfold field. rewrite Hl. exact (timbre_truthy rt body c' Hc').
  - intros body id w w' status d H.
    destruct (put_invoice_replied rt _ _ _ _ _ _ H) as (c' & Hc' & Hl).
    unfold field. rewrite Hl. exact (timbre_truthy rt body c' Hc').
Qed.

Lemma falsy_timbre_is_replaced_witness :
  exists c, calculateInvoiceTotals any_runtime (VObj zero_timbre_body) = Normal c
            /\ timbre c = VNum 0.1.
Proof.
  exact (proj1 (falsy_timbre_is_replaced any_runtime zero_timbre_body
                  eq_refl eq_refl)).
Defined.

(** C9, as stated, fails on two counts.  A body that supplies the
    [timbre] 0 and no [items] gets no totals at all: the calculator
    throws.  And a zero can be written: the text "0" counts as true and
    is kept as the stamp duty; on a runtime that prints 59.5 as "59.5"
    and reads "59.50" as 59.5, as the language does, the grand total of
    one item of 50 is then 50 + 9.5, with no stamp duty in it. *)
Lemma falsy_timbre_without_items :
  (forall rt,
      calculateInvoiceTotals rt (VObj [("timbre", VNum 0)]%string)
      = Throw TypeError)
  /\ (forall rt,
        NumberToString rt 59.5 = "59.5"%string ->
        StringToNumber rt "59.50" = 59.5%float ->
        calculateInvoiceTotals rt (VObj text_zero_timbre_body)
        = Normal (mkTotals (VNum 50) (VNum 9.5) (VStr "0") (VNum 0) (VNum 59.5)))
  /\ VStr "0" <> VNum 0.1.
Proof.
  split; [reflexivity | split; [|discriminate]].
  intros rt Hprint Hread.
  assert (S2 : JS.add rt (VNum 59.5) (VStr "0") = Normal (VStr "59.50")).
  { unfold JS.add. cbn. now rewrite Hprint. }
  assert (S3 : JS.sub rt (VStr "59.50") (VNum 0) = Normal (VNum 59.5)).
  { unfold JS.sub. cbn. now rewrite Hread. }
  change (calculateInvoiceTotals rt (VObj text_zero_timbre_body))
    with (sum2 <- JS.add rt (VNum 59.5) (VStr "0") ;;
          totalTTC <- JS.sub rt sum2 (VNum 0) ;;
          Normal (mkTotals (VNum 50) (VNum 9.5) (VStr "0") (VNum 0) totalTTC)).
  rewrite S2. cbn [bind]. now rewrite S3.
Qed.

(* ================================================================== *)
(** ** Update, then fetch *)
(* ================================================================== *)

(** C3, as amended: for a request body the calculator accepts (its
    [items] is an array of items it can add, its [timbre] and
    [totalRemise] have a primitive value) and that carries no
    [invoiceNumber], updating an invoice of the store and fetching it
    gives the totals the calculator computes from the body, and the
    invoice number the invoice had. *)
Theorem update_then_fetch
    (rt : Runtime) (id : string) (props : list (string * value))
    (w : world) (d0 : document) :
  accepted (VObj props) = true ->
  JS.lookup "invoiceNumber" props = None ->
  Store.findById (db w) id = Some d0 ->
  exists c d,
    calculateInvoiceTotals rt (VObj props) = Normal c
    /\ fst (get_invoice id (snd (put_invoice rt id (VObj props) w)))
       = Json 200 (Invoice d)
    /\ field d "totalHT" = totalHT c
    /\ field d "totalTVA" = totalTVA c
    /\ field d "timbre" = timbre c
    /\ field d "totalRemise" = totalRemise c
    /\ field d "totalTTC" = totalTTC c
    /\ field d "invoiceNumber" = field d0 "invoiceNumber".
Proof.
  intros Hacc Hnum Hfind.
  destruct (calculator_returns rt props Hacc) as (c & Hc & _).
  destruct (put_invoice_found rt id props c w d0 Hc Hfind) as (Hput & Hget & Hnd).
  exists c. eexists. split; [exact Hc|].
  split.
  - unfold get_invoice. rewrite Hget. reflexivity.
  - destruct (lookup_with_totals (Store.assign [] props) c)
      as (H1 & H2 & H3 & H4 & H5).
    unfold field; cbn [fields].
    rewrite !(lookup_assign _ _ _ Hnd), H1, H2, H3, H4, H5.
    repeat split.
    rewrite lookup_with_totals_other by reflexivity.
    rewrite (lookup_assign_absent _ _ _ Hnum). reflexivity.
Qed.

Lemma update_then_fetch_witness :
  exists c d,
    calculateInvoiceTotals any_runtime (VObj new_items_body) = Normal c
    /\ fst (get_invoice "64b7f0c2a1d3e4f5a6b7c8d9"
              (snd (put_invoice any_runtime "64b7f0c2a1d3e4f5a6b7c8d9"
                      (VObj new_items_body) one_invoice)))
       = Json 200 (Invoice d)
    /\ field d "totalHT" = totalHT c
    /\ field d "totalTVA" = totalTVA c
    /\ field d "timbre" = timbre c
    /\ field d "totalRemise" = totalRemise c
    /\ field d "totalTTC" = totalTTC c
    /\ field d "invoiceNumber" = field stored_invoice "invoiceNumber".
Proof.
  exact (update_then_fetch any_runtime "64b7f0c2a1d3e4f5a6b7c8d9" new_items_body
           one_invoice stored_invoice eq_refl eq_refl eq_refl).
Defined.

(** What a body that carries an [invoiceNumber] does, on every runtime. *)
Lemma renumbering_update (rt : Runtime) :
  exists d,
    fst (get_invoice "64b7f0c2a1d3e4f5a6b7c8d9"
           (snd (put_invoice rt "64b7f0c2a1d3e4f5a6b7c8d9"
                   renumbering_body one_invoice)))
    = Json 200 (Invoice d)
    /\ field d "invoiceNumber" = VStr "BCC999".
Proof. eexists. split; reflexivity. Qed.

(** A body without [items] makes the update throw, and the stored invoice
    keeps its totals. *)
Remark update_without_items (rt : Runtime) :
  put_invoice rt "64b7f0c2a1d3e4f5a6b7c8d9" (VObj []) one_invoice
  = (NextError TypeError, one_invoice).
Proof. reflexivity. Qed.

(** C3, as stated, fails on a body that carries an [invoiceNumber]: the
    update writes it over the number the invoice had. *)
Lemma update_overwrites_invoiceNumber :
  (forall rt, exists d,
      fst (get_invoice "64b7f0c2a1d3e4f5a6b7c8d9"
             (snd (put_invoice rt "64b7f0c2a1d3e4f5a6b7c8d9"
                     renumbering_body one_invoice)))
      = Json 200 (Invoice d)
      /\ field d "invoiceNumber" = VStr "BCC999")
  /\ field stored_invoice "invoiceNumber" = VStr "BCC001"
  /\ VStr "BCC999" <> VStr "BCC001".
Proof.
  split; [exact renumbering_update | split; [reflexivity | discriminate]].
Qed.

(* ================================================================== *)
(** ** Properties of the sequence number generator *)
(* ================================================================== *)

Section NumberFacts.

Ltac each_digit c H :=
  destruct c as [[] [] [] [] [] [] [] []]; try discriminate H.

Lemma digit_of_digit (c : ascii) :
  is_digit c = true -> Num.digit_of 10 c = Some (Num.code c - 48).
Proof. intros H. each_digit c H; reflexivity. Qed.

Lemma zeros_succ (k : nat) : zeros (S k) = String "0" (zeros k).
Proof.
  unfold zeros. destruct k; reflexivity.
Qed.

Lemma digit_string_app (a b : string) :
  digit_string (a ++ b) = digit_string a && digit_string b.
Proof.
  induction a as [|c a IH]; simpl; [reflexivity|].
  now rewrite IH, andb_assoc.
Qed.

Lemma digit_string_zeros (k : nat) : digit_string (zeros k) = true.
Proof.
  induction k as [|k IH]; [reflexivity|].
  rewrite zeros_succ. simpl. exact IH.
Qed.

Lemma digit_string_uint (d : uint) : digit_string (NilEmpty.string_of_uint d) = true.
Proof. induction d; simpl; auto. Qed.

Lemma digit_string_decimal (n : N) : digit_string (Num.decimal n) = true.
Proof.
  unfold Num.decimal, NilZero.string_of_uint.
  destruct (N.to_uint n) eqn:E; try reflexivity;
    rewrite <- E at 1; try apply digit_string_uint;
    exact (digit_string_uint (N.to_uint n)).
Qed.

(** Reading the digits of a decimal numeral, with a positive number read
    before them. *)
Lemma digits_step (c : ascii) (rest : string) (acc : option Z) (d : Z) :
  Num.digit_of 10 c = Some d ->
  Num.digits 10 (String c rest) acc
  = Num.digits 10 rest
      (Some (10 * match acc with Some a => a | None => 0 end + d)).
Proof. intros H. cbn [Num.digits]. now rewrite H. Qed.

Lemma digits_uint_pos (d : uint) (p : positive) :
  Num.digits 10 (NilEmpty.string_of_uint d) (Some (Z.pos p))
  = Some (Z.pos (Pos.of_uint_acc d p)).
Proof.
  revert p. induction d; intros p; [reflexivity|..];
    cbn [NilEmpty.string_of_uint Pos.of_uint_acc];
    rewrite <- IHd;
    (erewrite digits_step by (vm_compute; reflexivity));
    do 2 f_equal; lia.
Qed.

Lemma digits_uint_zero (d : uint) :
  Num.digits 10 (NilEmpty.string_of_uint d) (Some 0)
  = Some (Z.of_N (Pos.of_uint d)).
Proof.
  induction d; [reflexivity|..];
    cbn [NilEmpty.string_of_uint Pos.of_uint];
    (erewrite digits_step by (vm_compute; reflexivity));
    [exact IHd | ..];
    (etransitivity; [|apply digits_uint_pos]); reflexivity.
Qed.

Lemma digits_zeros_some (k : nat) (s : string) :
  Num.digits 10 (zeros k ++ s) (Some 0) = Num.digits 10 s (Some 0).
Proof.
  induction k as [|k IH]; [reflexivity|].
  rewrite zeros_succ. cbn [String.append].
  rewrite (digits_step "0" _ _ 0 eq_refl). exact IH.
Qed.

Lemma digits_zeros (k : nat) (s : string) :
  Num.digits 10 (zeros (S k) ++ s) None = Num.digits 10 s (Some 0).
Proof.
  rewrite zeros_succ. cbn [String.append].
  rewrite (digits_step "0" _ _ 0 eq_refl). apply digits_zeros_some.
Qed.

Lemma digits_decimal (n : N) :
  Num.digits 10 (Num.decimal n) None = Some (Z.of_N n).
Proof.
  unfold Num.decimal, NilZero.string_of_uint.
  rewrite <- (DecimalN.Unsigned.of_to n) at 2.
  unfold N.of_uint.
  destruct (N.to_uint n) as [|d|d|d|d|d|d|d|d|d|d]; simpl; try reflexivity;
    try apply digits_uint_zero;
    (etransitivity; [|apply digits_uint_pos]); reflexivity.
Qed.

Lemma digits_some_decimal (n : N) :
  Num.digits 10 (Num.decimal n) (Some 0) = Some (Z.of_N n).
Proof.
  rewrite <- digits_decimal.
  unfold Num.decimal, NilZero.string_of_uint.
  destruct (N.to_uint n); reflexivity.
Qed.

(** A zero-padded numeral reads as its number. *)
Lemma digits_padded (m : nat) (n : N) :
  Num.digits 10 (Str.padStart0 m (Num.decimal n)) None = Some (Z.of_N n).
Proof.
  unfold Str.padStart0. fold (zeros (m - String.length (Num.decimal n))).
  destruct (m - String.length (Num.decimal n))%nat as [|k].
  - apply digits_decimal.
  - rewrite digits_zeros. apply digits_some_decimal.
Qed.

Lemma decimal_not_empty (n : N) : Num.decimal n <> EmptyString.
Proof.
  intros H. pose proof (digits_decimal n) as D. rewrite H in D. discriminate.
Qed.

Lemma padded_digit_string (m : nat) (n : N) :
  digit_string (Str.padStart0 m (Num.decimal n)) = true
  /\ Str.padStart0 m (Num.decimal n) <> EmptyString.
Proof.
  unfold Str.padStart0. fold (zeros (m - String.length (Num.decimal n))).
  split.
  - now rewrite digit_string_app, digit_string_zeros, digit_string_decimal.
  - intros H. pose proof (digits_padded m n) as D.
    unfold Str.padStart0 in D.
    fold (zeros (m - String.length (Num.decimal n))) in D.
    rewrite H in D. discriminate.
Qed.

(** [parseInt] on a string of digits: no white space, sign or hexadecimal
    prefix is found, and the digits are read in radix 10. *)
Lemma parseInt_digit_string (s : string) :
  digit_string s = true -> s <> EmptyString ->
  Num.parseInt s
  = match Num.digits 10 s None with
    | Some m => Num.round_to_double m
    | None => INaN
    end.
Proof.
  destruct s as [|c1 r1]; [congruence|]. simpl. intros H _.
  apply andb_prop in H as [H1 Hr1].
  destruct r1 as [|c2 r2].
  - each_digit c1 H1; reflexivity.
  - simpl in Hr1. apply andb_prop in Hr1 as [H2 Hr2].
    destruct r2 as [|c3 r3].
    + each_digit c1 H1; each_digit c2 H2; reflexivity.
    + each_digit c1 H1; each_digit c2 H2; reflexivity.
Qed.

Lemma round_to_double_exact (z : Z) :
  0 <= z <= 2 ^ 53 -> Num.round_to_double z = IFin z.
Proof.
  intros [H0 H1].
  destruct (Z.eq_dec z (2 ^ 53)) as [->|Hne]; [vm_compute; reflexivity|].
  unfold Num.round_to_double.
  rewrite (Z.abs_eq z H0).
  destruct (Z.ltb_spec z (2 ^ 53)) as [Hlt|]; [|lia].
  assert (Hbig : 2 ^ 53 < 2 ^ 1024) by (apply Z.pow_lt_mono_r; lia).
  destruct (Z.leb_spec (2 ^ 1024) z) as [|_]; [lia|].
  f_equal. destruct z; simpl; lia.
Qed.

Lemma append_empty (s : string) : (s ++ EmptyString)%string = s.
Proof. induction s as [|c r IH]; simpl; [reflexivity | now rewrite IH]. Qed.

Lemma append_assoc (a b c : string) :
  ((a ++ b) ++ c)%string = (a ++ (b ++ c))%string.
Proof. induction a as [|x r IH]; simpl; [reflexivity | now rewrite IH]. Qed.

(** A separator-free text is one piece. *)
Lemma split_from_none (sep s cur : string) :
  Str.includes s sep = false ->
  Str.split_from sep s O cur = [cur ++ s]%string.
Proof.
  revert cur. induction s as [|c r IH]; intros cur H.
  - simpl. now rewrite append_empty.
  - cbn [Str.includes] in H. cbn [Str.split_from].
    destruct (String.prefix sep (String c r)); [discriminate|].
    rewrite (IH _ H). now rewrite append_assoc.
Qed.

End NumberFacts.

Section GeneratorFacts.
Variable rt : Runtime.
Local Open Scope string_scope.

Lemma digit_string_no_separator (s : string) :
  digit_string s = true -> Str.includes s "BCC" = false.
Proof.
  induction s as [|c r IH]; [reflexivity|].
  simpl digit_string. intros H. apply andb_prop in H as [Hc Hr].
  cbn [Str.includes]. rewrite (IH Hr).
  destruct c as [[] [] [] [] [] [] [] []]; try discriminate Hc; reflexivity.
Qed.

(** The piece [split('BCC')[1]] of a number made of the prefix and of
    digits is the digits. *)
Lemma split_numbered (ds : string) :
  digit_string ds = true ->
  nth_error (Str.split ("BCC" ++ ds) "BCC") 1 = Some ds.
Proof.
  intros H. unfold Str.split.
  assert (P : String.prefix "BCC" ("BCC" ++ ds) = true)
    by (simpl; destruct ds; reflexivity).
  assert (E : Str.split_from "BCC" ("BCC" ++ ds) 0 EmptyString
              = EmptyString :: Str.split_from "BCC" ds 0 EmptyString).
  { change ("BCC" ++ ds) with (String "B" (String "C" (String "C" ds))).
    unfold Str.split_from at 1. fold Str.split_from.
    change (String "B" (String "C" (String "C" ds))) with ("BCC" ++ ds).
    rewrite P. reflexivity. }
  rewrite E.
  rewrite (split_from_none "BCC" ds EmptyString (digit_string_no_separator ds H)).
  reflexivity.
Qed.

Lemma toString_counted (z : Z) :
  0 <= z <= 2 ^ 53 ->
  Num.toString rt (IFin z) = Num.decimal (Z.to_N z).
Proof.
  intros [H0 H1]. unfold Num.toString.
  rewrite (Z.abs_eq z H0).
  destruct (Z.leb_spec z (2 ^ 53)) as [_|]; [|lia].
  destruct (Z.ltb_spec z 0) as [|_]; [lia|]. reflexivity.
Qed.

(** The number after a well-formed one. *)
Lemma nextInvoiceNumber_after (last : document) (m : nat) (n : N) :
  field last "invoiceNumber" = VStr ("BCC" ++ Str.padStart0 m (Num.decimal n)) ->
  (n + 1 <= 2 ^ 53)%N ->
  nextInvoiceNumber rt (Some last)
  = Normal ("BCC" ++ Str.padStart0 3 (Num.decimal (n + 1)))%string.
Proof.
  intros Hfield Hn. unfold nextInvoiceNumber. rewrite Hfield.
  destruct (padded_digit_string m n) as [Hds Hne].
  rewrite (split_numbered _ Hds).
  rewrite (parseInt_digit_string _ Hds Hne), digits_padded.
  assert (Hz : 0 <= Z.of_N n /\ Z.of_N n + 1 <= 2 ^ 53).
  { change (2 ^ 53)%N with 9007199254740992%N in Hn.
    replace (2 ^ 53) with 9007199254740992 by reflexivity. lia. }
  destruct Hz as [Hz0 Hz1].
  rewrite round_to_double_exact by lia.
  unfold Num.add1. rewrite round_to_double_exact by lia.
  cbn [bind]. rewrite toString_counted by lia.
  replace (Z.to_N (Z.of_N n + 1)) with (n + 1)%N by lia. reflexivity.
Qed.

(** The invoice [POST /] saves carries the number generated. *)
Lemma post_invoice_numbered (new_id : string) (now : Z)
    (props : list (string * value)) (w : world) (number : string) :
  accepted (VObj props) = true ->
  nextInvoiceNumber rt (Store.findLatest (db w)) = Normal number ->
  exists d w',
    post_invoice rt new_id now (VObj props) w = (Json 201 (Invoice d), w')
    /\ field d "invoiceNumber" = VStr number
    /\ In d (db w').
Proof.
  intros Hacc Hnum.
  destruct (calculator_returns rt props Hacc) as (c & Hc & _).
  unfold post_invoice. rewrite Hnum, Hc.
  eexists. eexists. split; [reflexivity|]. split.
  - unfold field; cbn [fields].
    rewrite lookup_with_totals_other by reflexivity.
    now rewrite lookup_set_same.
  - simpl. unfold Store.insert. apply in_or_app. right. now left.
Qed.

End GeneratorFacts.

(** C2, as amended: on creation with a body the calculator accepts, an
    empty store gives the number "BCC001"; and when the invoice created
    last (the one [findLatest] answers with, see [findLatest_latest]) has
    the number "BCC" followed by the zero-padded numeral of N,
    with N + 1 at most 2^53 (the integers a double counts one by one),
    the number given is "BCC" followed by N + 1, zero-padded to three
    digits at least. *)
Theorem post_invoice_next_number
    (rt : Runtime) (new_id : string) (now : Z)
    (props : list (string * value)) (w : world) :
  accepted (VObj props) = true ->
  (db w = [] ->
   exists d w',
     post_invoice rt new_id now (VObj props) w = (Json 201 (Invoice d), w')
     /\ field d "invoiceNumber" = VStr "BCC001")
  /\ (forall last m n,
        Store.findLatest (db w) = Some last ->
        field last "invoiceNumber"
        = VStr ("BCC" ++ Str.padStart0 m (Num.decimal n)) ->
        (n + 1 <= 2 ^ 53)%N ->
        exists d w',
          post_invoice rt new_id now (VObj props) w = (Json 201 (Invoice d), w')
          /\ field d "invoiceNumber"
             = VStr ("BCC" ++ Str.padStart0 3 (Num.decimal (n + 1)))).
Proof.
  intros Hacc. split.
  - intros Hnone.
    destruct (post_invoice_numbered rt new_id now props w "BCC001" Hacc)
      as (d & w' & Hp & Hf & _).
    + rewrite Hnone. reflexivity.
    + now exists d, w'.
  - intros last m n Hlast Hfield Hn.
    destruct (post_invoice_numbered rt new_id now props w
                ("BCC" ++ Str.padStart0 3 (Num.decimal (n + 1))) Hacc)
      as (d & w' & Hp & Hf & _).
    + rewrite Hlast. now apply nextInvoiceNumber_after with (m := m).
    + now exists d, w'.
Qed.

Lemma post_invoice_next_number_witness :
  (exists d w',
      post_invoice any_runtime "64b7f0c2a1d3e4f5a6b7c8da" 2000
        (VObj new_items_body) empty_store = (Json 201 (Invoice d), w')
      /\ field d "invoiceNumber" = VStr "BCC001")
  /\ (exists d w',
        post_invoice any_runtime "64b7f0c2a1d3e4f5a6b7c8da" 2000
          (VObj new_items_body) (store_with "BCC999") = (Json 201 (Invoice d), w')
        /\ field d "invoiceNumber" = VStr "BCC1000").
Proof.
  split.
  - apply (proj1 (post_invoice_next_number any_runtime
                    "64b7f0c2a1d3e4f5a6b7c8da" 2000 new_items_body empty_store
                    eq_refl)).
    reflexivity.
  - apply (proj2 (post_invoice_next_number any_runtime
                    "64b7f0c2a1d3e4f5a6b7c8da" 2000 new_items_body
                    (store_with "BCC999") eq_refl)
             (numbered_invoice "BCC999") 3%nat 999%N).
    + reflexivity.
    + reflexivity.
    + vm_compute. discriminate.
Defined.

(** The number given after "BCC9007199254740992", on every runtime. *)
Lemma next_after_2_53 (rt : Runtime) :
  nextInvoiceNumber rt (Some (numbered_invoice "BCC9007199254740992"))
  = Normal "BCC9007199254740992"%string.
Proof. vm_compute. reflexivity. Qed.

(** C2, as stated, fails at N = 2^53: the double 2^53 + 1 is 2^53, and
    the new invoice is given the number of the last one again. *)
Lemma post_invoice_repeats_2_53 :
  (forall rt, exists d w',
      post_invoice rt "64b7f0c2a1d3e4f5a6b7c8da" 2000 (VObj new_items_body)
        (store_with "BCC9007199254740992") = (Json 201 (Invoice d), w')
      /\ field d "invoiceNumber" = VStr "BCC9007199254740992")
  /\ field (numbered_invoice "BCC9007199254740992") "invoiceNumber"
     = VStr ("BCC" ++ Str.padStart0 3 (Num.decimal (2 ^ 53)))
  /\ VStr ("BCC" ++ Str.padStart0 3 (Num.decimal (2 ^ 53 + 1)))
     = VStr "BCC9007199254740993"
  /\ VStr "BCC9007199254740992" <> VStr "BCC9007199254740993".
Proof.
  split; [|split; [reflexivity | split; [reflexivity | discriminate]]].
  intros rt.
  destruct (post_invoice_numbered rt "64b7f0c2a1d3e4f5a6b7c8da" 2000
              new_items_body (store_with "BCC9007199254740992")
              "BCC9007199254740992" eq_refl (next_after_2_53 rt))
    as (d & w' & Hp & Hf & _).
  exists d, w'. split; [exact Hp | exact Hf].
Qed.

(* ------------------------------------------------------------------ *)

(** A piece that is empty or starts with a letter does not parse. *)
Lemma parseInt_letter (c : ascii) (rest : string) :
  is_letter c = true -> Num.parseInt (String c rest) = INaN.
Proof.
  intros H.
  destruct rest as [|c2 [|c3 r3]];
    destruct c as [[] [] [] [] [] [] [] []]; try discriminate H; reflexivity.
Qed.

Lemma nextInvoiceNumber_unnumbered (rt : Runtime) (last : document) (s : string) :
  field last "invoiceNumber" = VStr s ->
  unnumbered s ->
  nextInvoiceNumber rt (Some last) = Normal "BCCNaN"%string.
Proof.
  intros Hfield Hs. unfold nextInvoiceNumber. rewrite Hfield.
  destruct Hs as [Hnone | (piece & Hpiece & Hnan)].
  - unfold Str.split. rewrite (split_from_none "BCC" s EmptyString Hnone).
    reflexivity.
  - rewrite Hpiece, Hnan. reflexivity.
Qed.

(** C10, as amended: when the number of the invoice created last is a
    text that has no numeric suffix after "BCC", creation with a body the
    calculator accepts does not fail: it answers 201 with the saved
    invoice, whose number is "BCCNaN". *)
Theorem post_invoice_after_unnumbered
    (rt : Runtime) (new_id : string) (now : Z)
    (props : list (string * value)) (w : world)
    (last : document) (s : string) :
  accepted (VObj props) = true ->
  Store.findLatest (db w) = Some last ->
  field last "invoiceNumber" = VStr s ->
  unnumbered s ->
  exists d w',
    post_invoice rt new_id now (VObj props) w = (Json 201 (Invoice d), w')
    /\ field d "invoiceNumber" = VStr "BCCNaN"
    /\ In d (db w').
Proof.
  intros Hacc Hlast Hfield Hs.
  apply (post_invoice_numbered rt new_id now props w "BCCNaN" Hacc).
  rewrite Hlast. exact (nextInvoiceNumber_unnumbered rt last s Hfield Hs).
Qed.

Lemma post_invoice_after_unnumbered_witness :
  exists d w',
    post_invoice any_runtime "64b7f0c2a1d3e4f5a6b7c8da" 2000
      (VObj new_items_body) (store_with "FAC-2024-17") = (Json 201 (Invoice d), w')
    /\ field d "invoiceNumber" = VStr "BCCNaN"
    /\ In d (db w').
Proof.
  apply (post_invoice_after_unnumbered any_runtime "64b7f0c2a1d3e4f5a6b7c8da"
           2000 new_items_body (store_with "FAC-2024-17")
           (numbered_invoice "FAC-2024-17") "FAC-2024-17").
  - reflexivity.
  - reflexivity.
  - reflexivity.
  - left. reflexivity.
Defined.

(** C10, as stated, fails when the number of the invoice created last is
    not a text (here the number 17, which holds no "BCC"): there is no
    [split] to call, creation throws and nothing is saved, whatever the
    runtime, on a body the calculator accepts.  It fails as well after
    the number "FAC-2024-17" when the body has no [items]. *)
Lemma post_invoice_after_numeric_number :
  (forall rt,
      post_invoice rt "64b7f0c2a1d3e4f5a6b7c8da" 2000 (VObj new_items_body)
        legacy_store
      = (NextError TypeError, touch FindLatest legacy_store))
  /\ db (touch FindLatest legacy_store) = db legacy_store
  /\ accepted (VObj new_items_body) = true
  /\ (forall rt,
        post_invoice rt "64b7f0c2a1d3e4f5a6b7c8da" 2000 (VObj [])
          (store_with "FAC-2024-17")
        = (NextError TypeError, touch FindLatest (store_with "FAC-2024-17"))).
Proof. repeat split; reflexivity. Qed.

(** A number that has the prefix and then letters. *)
Remark unnumbered_letters : unnumbered "BCCabc".
Proof.
  right. exists "abc"%string. split; [reflexivity|].
  now apply parseInt_letter.
Qed.

(* ================================================================== *)
(** ** Properties of the delivery controller *)
(* ================================================================== *)

Section ControllerFacts.

Lemma is_hex_spec (c : ascii) : Pdf.is_hex c = true <-> hex_char c.
Proof.
  assert (E : Pdf.is_hex c
              = existsb (Ascii.eqb c)
                  (list_ascii_of_string "0123456789abcdefABCDEF")).
  { destruct c as [[] [] [] [] [] [] [] []]; reflexivity. }
  rewrite E, existsb_exists. unfold hex_char. split.
  - intros (x & Hin & Heq). apply Ascii.eqb_eq in Heq. now subst.
  - intros Hin. exists c. split; [exact Hin | apply Ascii.eqb_refl].
Qed.

Lemma matches_id_format_spec (id : string) :
  Pdf.matches_id_format id = true <-> well_formed_id id.
Proof.
  unfold Pdf.matches_id_format, well_formed_id.
  rewrite andb_true_iff, Nat.eqb_eq, forallb_forall, Forall_forall.
  split; intros [Hlen Hall]; (split; [exact Hlen|]);
    intros c Hc; apply is_hex_spec; now apply Hall.
Qed.

Lemma well_formed_not_empty (id : string) :
  well_formed_id id -> String.eqb id EmptyString = false.
Proof.
  intros [Hlen _]. destruct id; [discriminate | reflexivity].
Qed.

End ControllerFacts.

(** C7: an identifier that is not exactly 24 hexadecimal characters is
    answered 400 with the code INVALID_ID_FORMAT and the store is not
    accessed (nothing at all is changed); a well-formed identifier that
    the store does not hold is answered 404 with the code
    INVOICE_NOT_FOUND, after one lookup of the store, and the renderer is
    not called. *)
Theorem get_invoice_pdf_identifier
    (rt : Runtime) (env : Env) (eng : Engine) (now id : string) (w : world) :
  (~ well_formed_id id ->
   exists r,
     Pdf.get_invoice_pdf rt env eng now id w = (r, w)
     /\ reply_status r = Some 400
     /\ reply_prop "code" r = Some (VStr "INVALID_ID_FORMAT"))
  /\ (well_formed_id id ->
      Store.findById (db w) id = None ->
      exists r w',
        Pdf.get_invoice_pdf rt env eng now id w = (r, w')
        /\ reply_status r = Some 404
        /\ reply_prop "code" r = Some (VStr "INVOICE_NOT_FOUND")
        /\ accesses w' = (accesses w ++ [FindById id])%list
        /\ db w' = db w
        /\ chrome w' = chrome w).
Proof.
  split.
  - intros Hbad. unfold Pdf.get_invoice_pdf.
    destruct (Pdf.matches_id_format id) eqn:E.
    + apply matches_id_format_spec in E. contradiction.
    + rewrite orb_true_r. eexists. split; [reflexivity | split; reflexivity].
  - intros Hok Hnone. unfold Pdf.get_invoice_pdf.
    rewrite (well_formed_not_empty id Hok).
    rewrite (proj2 (matches_id_format_spec id) Hok). cbn [negb orb].
    rewrite Hnone. eexists. eexists.
    split; [reflexivity | repeat split].
Qed.

Lemma get_invoice_pdf_identifier_witness :
  (exists r,
      Pdf.get_invoice_pdf any_runtime production idle_engine
        "2024-05-01T10:00:00.000Z" "not-an-id" one_invoice = (r, one_invoice)
      /\ reply_status r = Some 400
      /\ reply_prop "code" r = Some (VStr "INVALID_ID_FORMAT"))
  /\ (exists r w',
        Pdf.get_invoice_pdf any_runtime production idle_engine
          "2024-05-01T10:00:00.000Z" "0123456789abcdefABCDEF00" one_invoice
        = (r, w')
        /\ reply_status r = Some 404
        /\ reply_prop "code" r = Some (VStr "INVOICE_NOT_FOUND")
        /\ accesses w'
           = (accesses one_invoice ++ [FindById "0123456789abcdefABCDEF00"])%list
        /\ db w' = db one_invoice
        /\ chrome w' = chrome one_invoice).
Proof.
  split.
  - apply (proj1 (get_invoice_pdf_identifier any_runtime production idle_engine
                    "2024-05-01T10:00:00.000Z" "not-an-id" one_invoice)).
    intros [Hlen _]. vm_compute in Hlen. discriminate.
  - apply (proj2 (get_invoice_pdf_identifier any_runtime production idle_engine
                    "2024-05-01T10:00:00.000Z" "0123456789abcdefABCDEF00"
                    one_invoice)).
    + apply matches_id_format_spec. reflexivity.
    + reflexivity.
Defined.

Lemma in_development (env : Env) :
  Pdf.is_development env = true <-> NODE_ENV env = Some "development"%string.
Proof.
  unfold Pdf.is_development. destruct (NODE_ENV env) as [v|].
  - rewrite String.eqb_eq. split; congruence.
  - split; discriminate.
Qed.

Lemma failure_body_debug (env : Env) (now : string) (invoice : document)
    (e : error) :
  JS.lookup "debug" (Pdf.failure_body env now invoice e)
  = if Pdf.is_development env
    then Some (VObj [ ("originalError", VStr (message e));
                      ("stack", VStr (stack e)) ]%string)
    else None.
Proof.
  unfold Pdf.failure_body. destruct (Pdf.classify e) as [[status text] code].
  destruct (Pdf.is_development env); reflexivity.
Qed.

Lemma failure_body_code (env : Env) (now : string) (invoice : document)
    (e : error) :
  JS.lookup "code" (Pdf.failure_body env now invoice e)
  = Some (VStr (snd (Pdf.classify e)))
  /\ JS.lookup "message" (Pdf.failure_body env now invoice e)
     = Some (VStr (snd (fst (Pdf.classify e)))).
Proof.
  unfold Pdf.failure_body. destruct (Pdf.classify e) as [[status text] code].
  split; reflexivity.
Qed.

(** C4, as amended: the failure response of the PDF route is chosen by
    the first text, in this order, that the error message includes:
    "timeout" (504), "memory" or "Memory" (507), "browser" or
    "puppeteer" (503), "not found" (404), "vide" or "corrompu" (422),
    and 500 otherwise; each status has its code, and its message but for
    422, whose message is the text of the error itself; the object
    [debug], with the raw error and the stack, is in the response exactly
    in development, and outside development the response holds nothing
    but the message and the code of the class, the invoice number and
    the time. *)
Theorem pdf_failure_classification
    (rt : Runtime) (env : Env) (now : string) (invoice : document) (e : error) :
  let has := fun k => Str.includes (message e) k = true in
  let r := Pdf.fail env now invoice e in
  (forall t w, Pdf.respond rt env now invoice (inl e, t) w = (r, w))
  /\ (has "timeout"%string ->
      answers r 504 "PDF_TIMEOUT"
        "La génération du PDF prend trop de temps. Veuillez réessayer.")
  /\ (~ has "timeout"%string ->
      has "memory"%string \/ has "Memory"%string ->
      answers r 507 "INSUFFICIENT_MEMORY"
        "Mémoire insuffisante pour générer le PDF. Veuillez réessayer plus tard.")
  /\ (~ has "timeout"%string ->
      ~ (has "memory"%string \/ has "Memory"%string) ->
      has "browser"%string \/ has "puppeteer"%string ->
      answers r 503 "PDF_SERVICE_UNAVAILABLE"
        "Service de génération PDF temporairement indisponible.")
  /\ (~ has "timeout"%string ->
      ~ (has "memory"%string \/ has "Memory"%string) ->
      ~ (has "browser"%string \/ has "puppeteer"%string) ->
      has "not found"%string ->
      answers r 404 "INVOICE_NOT_FOUND" "Facture introuvable")
  /\ (~ has "timeout"%string ->
      ~ (has "memory"%string \/ has "Memory"%string) ->
      ~ (has "browser"%string \/ has "puppeteer"%string) ->
      ~ has "not found"%string ->
      has "vide"%string \/ has "corrompu"%string ->
      answers r 422 "PDF_VALIDATION_ERROR" (message e))
  /\ (~ has "timeout"%string ->
      ~ (has "memory"%string \/ has "Memory"%string) ->
      ~ (has "browser"%string \/ has "puppeteer"%string) ->
      ~ has "not found"%string ->
      ~ (has "vide"%string \/ has "corrompu"%string) ->
      answers r 500 "PDF_GENERATION_ERROR" "Erreur lors de la génération du PDF")
  /\ (NODE_ENV env = Some "development"%string ->
      reply_prop "debug" r
      = Some (VObj [ ("originalError", VStr (message e));
                     ("stack", VStr (stack e)) ]%string))
  /\ (NODE_ENV env <> Some "development"%string ->
      reply_prop "debug" r = None)
  /\ (NODE_ENV env <> Some "development"%string ->
      r = Json (fst (fst (Pdf.classify e)))
            (Message [ ("message", VStr (snd (fst (Pdf.classify e))));
                       ("code", VStr (snd (Pdf.classify e)));
                       ("invoiceNumber", field invoice "invoiceNumber");
                       ("timestamp", VStr now) ]%string)).
Proof.
  intros has r.
  assert (A : forall status code text,
             Pdf.classify e = (status, text, code) -> answers r status code text).
  { intros status code text E. unfold answers, r, Pdf.fail.
    cbn [reply_status reply_prop].
    destruct (failure_body_code env now invoice e) as [Hc Hm].
    rewrite Hc, Hm, E. repeat split. }
  split; [reflexivity|].
  repeat match goal with |- _ /\ _ => split end.
  - intros H. apply A. unfold Pdf.classify. unfold has in H. now rewrite H.
  - intros H1 H2. apply A. unfold Pdf.classify. unfold has in *.
    destruct (Str.includes (message e) "timeout"); [now elim H1|].
    destruct H2 as [H2|H2]; rewrite H2; [reflexivity | now rewrite orb_true_r].
  - intros H1 H2 H3. apply A. unfold Pdf.classify. unfold has in *.
    destruct (Str.includes (message e) "timeout"); [now elim H1|].
    destruct (Str.includes (message e) "memory"); [elim H2; now left|].
    destruct (Str.includes (message e) "Memory"); [elim H2; now right|].
    destruct H3 as [H3|H3]; rewrite H3; [reflexivity | now rewrite orb_true_r].
  - intros H1 H2 H3 H4. apply A. unfold Pdf.classify. unfold has in *.
    destruct (Str.includes (message e) "timeout"); [now elim H1|].
    destruct (Str.includes (message e) "memory"); [elim H2; now left|].
    destruct (Str.includes (message e) "Memory"); [elim H2; now right|].
    destruct (Str.includes (message e) "browser"); [elim H3; now left|].
    destruct (Str.includes (message e) "puppeteer"); [elim H3; now right|].
    now rewrite H4.
  - intros H1 H2 H3 H4 H5. apply A. unfold Pdf.classify. unfold has in *.
    destruct (Str.includes (message e) "timeout"); [now elim H1|].
    destruct (Str.includes (message e) "memory"); [elim H2; now left|].
    destruct (Str.includes (message e) "Memory"); [elim H2; now right|].
    destruct (Str.includes (message e) "browser"); [elim H3; now left|].
    destruct (Str.includes (message e) "puppeteer"); [elim H3; now right|].
    destruct (Str.includes (message e) "not found"); [now elim H4|].
    destruct H5 as [H5|H5]; rewrite H5; [reflexivity | now rewrite orb_true_r].
  - intros H1 H2 H3 H4 H5. apply A. unfold Pdf.classify. unfold has in *.
    destruct (Str.includes (message e) "timeout"); [now elim H1|].
    destruct (Str.includes (message e) "memory"); [elim H2; now left|].
    destruct (Str.includes (message e) "Memory"); [elim H2; now right|].
    destruct (Str.includes (message e) "browser"); [elim H3; now left|].
    destruct (Str.includes (message e) "puppeteer"); [elim H3; now right|].
    destruct (Str.includes (message e) "not found"); [now elim H4|].
    destruct (Str.includes (message e) "vide"); [elim H5; now left|].
    destruct (Str.includes (message e) "corrompu"); [elim H5; now right|].
    reflexivity.
  - intros Hdev. unfold r, Pdf.fail. cbn [reply_prop].
    rewrite failure_body_debug.
    now rewrite (proj2 (in_development env) Hdev).
  - intros Hdev. unfold r, Pdf.fail. cbn [reply_prop].
    rewrite failure_body_debug.
    destruct (Pdf.is_development env) eqn:D; [|reflexivity].
    apply in_development in D. contradiction.
  - intros Hdev. unfold r, Pdf.fail, Pdf.failure_body.
    destruct (Pdf.is_development env) eqn:D;
      [apply in_development in D; contradiction|].
    destruct (Pdf.classify e) as [[status text] code]. reflexivity.
Qed.

(** C4, as stated, fails in production on an error whose text holds
    "vide" and none of the keywords checked before it: the content load
    fails on the address of a font provider, the failure is classified
    422, and the message of the response is the raw text of the error,
    although the configuration is not development. *)
Lemma raw_error_echoed_in_production :
  (forall rt,
      answers
        (fst (Pdf.get_invoice_pdf rt production provider_failing_engine
                "2024-05-01T10:00:00.000Z" "64b7f0c2a1d3e4f5a6b7c8d9" one_invoice))
        422 "PDF_VALIDATION_ERROR"
        "Erreur lors de la génération du PDF: net::ERR_NAME_NOT_RESOLVED at https://fonts.provider.example/css")
  /\ Pdf.is_development production = false.
Proof. split; [intros rt; vm_compute; repeat split | reflexivity]. Qed.

(* ------------------------------------------------------------------ *)
(** *** Verification of the rendered buffer *)

Lemma classify_empty (rt : Runtime) :
  Pdf.classify (mkError "Le PDF généré est vide" (ErrorStack rt "Le PDF généré est vide"))
  = (422, "Le PDF généré est vide", "PDF_VALIDATION_ERROR")%string.
Proof. reflexivity. Qed.

Lemma classify_too_small (rt : Runtime) :
  Pdf.classify (mkError "Le PDF généré semble corrompu (trop petit)"
                  (ErrorStack rt "Le PDF généré semble corrompu (trop petit)"))
  = (422, "Le PDF généré semble corrompu (trop petit)",
     "PDF_VALIDATION_ERROR")%string.
Proof. reflexivity. Qed.

Lemma classify_bad_header (rt : Runtime) :
  Pdf.classify (mkError "Le fichier généré n'est pas un PDF valide"
                  (ErrorStack rt "Le fichier généré n'est pas un PDF valide"))
  = (500, "Erreur lors de la génération du PDF", "PDF_GENERATION_ERROR")%string.
Proof. reflexivity. Qed.

(** What verification does with a buffer, and how its rejections are
    classified: an empty buffer and a buffer under 1000 bytes are
    rejected and classified 422; a buffer of 1000 bytes or more that does
    not start with "%PDF" is rejected and classified 500; a buffer of
    1000 bytes or more that starts with "%PDF" is accepted, with a
    warning when its last 6 bytes do not hold "%%EOF". *)
Lemma verify_cases (rt : Runtime) (buf : buffer) :
  (List.length buf = 0%nat ->
   exists e, Pdf.verify rt buf = Pdf.Rejected e
             /\ Pdf.classify e = (422, message e, "PDF_VALIDATION_ERROR"%string))
  /\ ((0 < List.length buf < 1000)%nat ->
      exists e, Pdf.verify rt buf = Pdf.Rejected e
                /\ Pdf.classify e = (422, message e, "PDF_VALIDATION_ERROR"%string))
  /\ ((1000 <= List.length buf)%nat ->
      firstn 4 buf <> Pdf.pdf_magic ->
      exists e, Pdf.verify rt buf = Pdf.Rejected e
                /\ Pdf.classify e
                   = (500, "Erreur lors de la génération du PDF",
                      "PDF_GENERATION_ERROR")%string)
  /\ ((1000 <= List.length buf)%nat ->
      firstn 4 buf = Pdf.pdf_magic ->
      Pdf.verify rt buf
      = Pdf.Accepted (negb (Pdf.holds Pdf.eof_marker (Pdf.last_bytes 6 buf)))).
Proof.
  unfold Pdf.verify.
  repeat match goal with |- _ /\ _ => split end.
  - intros H. rewrite H. cbn [Nat.eqb].
    eexists. split; [reflexivity | apply classify_empty].
  - intros [H0 H1].
    destruct (Nat.eqb_spec (List.length buf) 0) as [E|_]; [lia|].
    destruct (Nat.ltb_spec (List.length buf) 1000) as [_|]; [|lia].
    eexists. split; [reflexivity | apply classify_too_small].
  - intros H Hmagic.
    destruct (Nat.eqb_spec (List.length buf) 0) as [E|_]; [lia|].
    destruct (Nat.ltb_spec (List.length buf) 1000) as [|_]; [lia|].
    unfold Pdf.bytes_eqb.
    destruct (list_eq_dec Byte.byte_eq_dec (firstn 4 buf) Pdf.pdf_magic)
      as [E|_]; [contradiction|]. cbn [negb].
    eexists. split; [reflexivity | apply classify_bad_header].
  - intros H Hmagic.
    destruct (Nat.eqb_spec (List.length buf) 0) as [E|_]; [lia|].
    destruct (Nat.ltb_spec (List.length buf) 1000) as [|_]; [lia|].
    unfold Pdf.bytes_eqb at 1.
    destruct (list_eq_dec Byte.byte_eq_dec (firstn 4 buf) Pdf.pdf_magic)
      as [_|N]; [|contradiction]. reflexivity.
Qed.

(** An accepted buffer is sent, with or without the warning, when the
    file name is one that [res.setHeader] takes. *)
Lemma respond_accepted (rt : Runtime) (env : Env) (now : string)
    (invoice : document) (buf : buffer) (t : Z) (w : world) (warn : bool)
    (number : string) :
  Pdf.verify rt buf = Pdf.Accepted warn ->
  JS.ToString rt (field invoice "invoiceNumber") = Normal number ->
  Pdf.valid_header_value (download_name number now) = true ->
  exists w',
    Pdf.respond rt env now invoice (inr buf, t) w
    = (Download (download_name number now) t buf, w')
    /\ warnings w'
       = (warnings w ++ if warn then [Pdf.eof_warning] else [])%list.
Proof.
  intros H Hn Hv. unfold Pdf.respond. rewrite H, Hn.
  unfold download_name in Hv. rewrite Hv.
  eexists. split; [reflexivity|].
  destruct warn; simpl; [reflexivity | now rewrite app_nil_r].
Qed.

(** C5: the renderer gives 1000 bytes that do not start with "%PDF":
    the route answers 500 with the code PDF_GENERATION_ERROR and the
    general message, where 500 bytes are answered 422 with the code
    PDF_VALIDATION_ERROR and the message of the verification. *)
Theorem bad_header_answered_500 :
  let bad := Pdf.get_invoice_pdf any_runtime production
               (engine_printing (repeat Byte.x00 1000) 1500)
               "2024-05-01T10:00:00.000Z" "64b7f0c2a1d3e4f5a6b7c8d9" one_invoice in
  let small := Pdf.get_invoice_pdf any_runtime production
                 (engine_printing (repeat Byte.x00 500) 1500)
                 "2024-05-01T10:00:00.000Z" "64b7f0c2a1d3e4f5a6b7c8d9" one_invoice in
  answers (fst bad) 500 "PDF_GENERATION_ERROR" "Erreur lors de la génération du PDF"
  /\ answers (fst small) 422 "PDF_VALIDATION_ERROR"
       "Le PDF généré semble corrompu (trop petit)".
Proof. vm_compute. repeat split. Qed.

(* ================================================================== *)
(** ** Properties of the document renderer *)
(* ================================================================== *)

Section RendererFacts.

Lemma print_trace (eng : Engine) (invoice : document) (b : nat) (s : Render.state) :
  exists mid,
    snd (Render.print eng invoice b s)
    = Render.mkState (Render.next s) (Render.running s) (Render.log s ++ mid)
    /\ uses_only b mid.
Proof.
  unfold Render.print, Render.bind, Render.call, Render.await, Render.ret, uses_only.
  destruct (newPage eng); cbn;
    [destruct (setViewport eng); cbn;
     [destruct (generateInvoiceHTML eng invoice) as [html| |]; cbn;
      [destruct (setContent eng html); cbn;
       [destruct (pdf eng); cbn|..]|..]|..]|..];
    eexists; (split; [rewrite <- ?app_assoc; reflexivity | repeat constructor]).
Qed.

Lemma print_settles (eng : Engine) (invoice : document) (b : nat) (s : Render.state) :
  newPage eng <> Hangs -> setViewport eng <> Hangs ->
  generateInvoiceHTML eng invoice <> Hangs ->
  (forall html, setContent eng html <> Hangs) -> pdf eng <> Hangs ->
  fst (Render.print eng invoice b s) <> Hangs.
Proof.
  intros H1 H2 H3 H4 H5.
  unfold Render.print, Render.bind, Render.call, Render.await, Render.ret.
  destruct (newPage eng); cbn; try congruence.
  destruct (setViewport eng); cbn; try congruence.
  destruct (generateInvoiceHTML eng invoice) as [html| |]; cbn; try congruence.
  pose proof (H4 html) as H4'.
  destruct (setContent eng html); cbn; try congruence.
  destruct (pdf eng); cbn; congruence.
Qed.

End RendererFacts.

(** C8: a render that settles (with the document or with an error) has
    either launched no engine instance, or launched exactly one, the
    next new one, made its calls on that instance only, and called
    [close] on it last, whatever the answers of the engine were; when
    [close] succeeds the instances running are those that were running
    before.  Instances being numbered as they are launched, the instance
    of a render occurs in no earlier call. *)
Theorem generateInvoicePDF_releases
    (rt : Runtime) (env : Env) (eng : Engine) (invoice : document)
    (s : Render.state) :
  fst (Render.generateInvoicePDF rt env eng invoice s) <> Hangs ->
  scoped_instance eng s (snd (Render.generateInvoicePDF rt env eng invoice s)).
Proof.
  intros Hsettled. unfold scoped_instance.
  set (s' := snd (Render.generateInvoicePDF rt env eng invoice s)).
  set (b := Render.next s).
  assert (Main :
    (Render.log s' = Render.log s
     /\ Render.next s' = Render.next s
     /\ Render.running s' = Render.running s)
    \/ (exists mid,
          Render.log s'
          = (Render.log s ++ Render.Launched b :: mid ++ [Render.CloseCalled b])%list
          /\ uses_only b mid
          /\ Render.next s' = S b
          /\ (close eng = Done tt -> ~ In b (Render.running s) ->
              Render.running s' = Render.running s))).
  { subst s' b. revert Hsettled.
    unfold Render.generateInvoicePDF, Render.try_catch_finally.
    set (prepared := if Render.isProduction env
                     then Render.await (executablePath eng) s
                     else Render.await (import_puppeteer eng) s).
    assert (Hp : snd prepared = s)
      by (unfold prepared; destruct (Render.isProduction env); reflexivity).
    destruct prepared as [[u|e|] s1]; cbn in Hp; subst s1.
    - unfold Render.do_launch.
      destruct (launch eng) as [u'|e|].
      + unfold Render.keeping.
        set (s2 := Render.mkState (S (Render.next s))
                     (Render.running s ++ [Render.next s])
                     (Render.log s ++ [Render.Launched (Render.next s)])).
        destruct (print_trace eng invoice (Render.next s) s2) as (mid & Hs & Hmid).
        destruct (Render.print eng invoice (Render.next s) s2) as [r sp].
        cbn in Hs. subst sp.
        assert (Hfilter : ~ In (Render.next s) (Render.running s) ->
                  filter (fun b' => negb (Nat.eqb b' (Render.next s)))
                    (Render.running s ++ [Render.next s])
                  = Render.running s).
        { intros Hnot. rewrite filter_app. cbn. rewrite Nat.eqb_refl. cbn.
          rewrite app_nil_r. apply forallb_filter_id, forallb_forall.
          intros x Hx. apply negb_true_iff, Nat.eqb_neq. intros ->.
          contradiction. }
        destruct r as [buf|e|]; unfold Render.await, Render.do_close;
          cbn; destruct (close eng) as [u''|e'|] eqn:Hclose; cbn;
          intros Hsettled; try congruence;
          right; exists mid;
          (split; [rewrite <- !app_assoc; reflexivity|]);
          (split; [exact Hmid|]); (split; [reflexivity|]);
          intros Hdone; try discriminate Hdone; exact Hfilter.
      + cbn. intros _. left. repeat split.
      + cbn. congruence.
    - cbn. intros _. left. repeat split.
    - cbn. congruence. }
  split; [exact Main|].
  intros Hbelow. split.
  - intros Hin. apply in_map_iff in Hin as (ev & Hev & Hin).
    rewrite Forall_forall in Hbelow. specialize (Hbelow ev Hin). lia.
  - destruct Main as [(Hl & Hn & _) | (mid & Hl & Hmid & Hn & _)].
    + rewrite Hl, Hn. exact Hbelow.
    + rewrite Hl, Hn. apply Forall_app. split.
      * eapply Forall_impl; [|exact Hbelow]. cbn. intros ev H. fold b in H. lia.
      * constructor; [cbn; lia|]. apply Forall_app. split.
        -- eapply Forall_impl; [|exact Hmid]. cbn. intros ev [H _]. lia.
        -- constructor; [cbn; lia | constructor].
Qed.

Lemma generateInvoicePDF_releases_witness :
  scoped_instance failing_content_engine (Render.mkState 0 [] [])
    (snd (Render.generateInvoicePDF any_runtime production
            failing_content_engine stored_invoice (Render.mkState 0 [] []))).
Proof.
  apply generateInvoicePDF_releases. vm_compute. discriminate.
Defined.

(** The calls of a render whose content load fails. *)
Example content_timeout_trace :
  Render.generateInvoicePDF any_runtime production failing_content_engine
    stored_invoice (Render.mkState 0 [] [])
  = (Fails (mkError
       "Erreur lors de la génération du PDF: Navigation timeout of 30000 ms exceeded"
       EmptyString),
     Render.mkState 1 []
       [ Render.Launched 0; Render.PageOpened 0; Render.ContentSet 0;
         Render.CloseCalled 0 ]).
Proof. reflexivity. Qed.

(** A render settles as soon as no call of the engine hangs. *)
Lemma generateInvoicePDF_settles
    (rt : Runtime) (env : Env) (eng : Engine) (invoice : document)
    (s : Render.state) :
  executablePath eng <> Hangs -> import_puppeteer eng <> Hangs ->
  launch eng <> Hangs -> newPage eng <> Hangs -> setViewport eng <> Hangs ->
  generateInvoiceHTML eng invoice <> Hangs ->
  (forall html, setContent eng html <> Hangs) -> pdf eng <> Hangs ->
  close eng <> Hangs ->
  fst (Render.generateInvoicePDF rt env eng invoice s) <> Hangs.
Proof.
  intros H1 H2 H3 H4 H5 H6 H7 H8 H9.
  unfold Render.generateInvoicePDF, Render.try_catch_finally.
  set (prepared := if Render.isProduction env
                   then Render.await (executablePath eng) s
                   else Render.await (import_puppeteer eng) s).
  assert (Hp : fst prepared <> Hangs)
    by (unfold prepared; destruct (Render.isProduction env); assumption).
  destruct prepared as [[u|e|] s1]; cbn in Hp; [| cbn; congruence | congruence].
  unfold Render.do_launch. destruct (launch eng) as [u'|e|];
    [| cbn; congruence | congruence].
  unfold Render.keeping.
  match goal with
  | |- context [Render.print eng invoice ?b ?s2] =>
      pose proof (print_settles eng invoice b s2 H4 H5 H6 H7 H8) as Hpr;
      destruct (Render.print eng invoice b s2) as [r sp]
  end.
  cbn in Hpr.
  destruct r as [buf|e|]; [| |congruence];
    unfold Render.await, Render.do_close; cbn;
    destruct (close eng); cbn; congruence.
Qed.

(* ================================================================== *)
(** ** The race with the timeout *)
(* ================================================================== *)

Lemma get_invoice_pdf_found (rt : Runtime) (env : Env) (eng : Engine)
    (now id : string) (w : world) (invoice : document) (number : string) :
  well_formed_id id ->
  Store.findById (db w) id = Some invoice ->
  JS.ToString rt (field invoice "invoiceNumber") = Normal number ->
  Pdf.get_invoice_pdf rt env eng now id w
  = Pdf.respond rt env now invoice
      (Pdf.race rt (fst (Render.generateInvoicePDF rt env eng invoice (chrome w)))
         (render_time eng))
      (after_render rt env eng invoice id w).
Proof.
  intros Hid Hfind Hnum. unfold Pdf.get_invoice_pdf, after_render.
  rewrite (well_formed_not_empty id Hid).
  rewrite (proj2 (matches_id_format_spec id) Hid). cbn [negb orb].
  rewrite Hfind, Hnum. cbn [touch db chrome accesses warnings].
  destruct (Render.generateInvoicePDF rt env eng invoice (chrome w)).
  reflexivity.
Qed.

Lemma timeout_is_504 (rt : Runtime) (env : Env) (now : string)
    (invoice : document) :
  answers
    (Pdf.fail env now invoice
       (mkError Pdf.timeout_text (ErrorStack rt Pdf.timeout_text)))
    504 "PDF_TIMEOUT"
    "La génération du PDF prend trop de temps. Veuillez réessayer.".
Proof.
  unfold answers, Pdf.fail. cbn [reply_status reply_prop].
  destruct (failure_body_code env now invoice
              (mkError Pdf.timeout_text (ErrorStack rt Pdf.timeout_text)))
    as [Hc Hm].
  rewrite Hc, Hm. repeat split.
Qed.

(** C6: the render of a stored invoice (whose number line 118 has
    written, so that the [try] block is entered) is raced against a timer
    of 120000 ms.  When the render never settles or settles after the timer,
    the caller is answered 504 with the code PDF_TIMEOUT; when the render
    settles before the timer, the answer is the one its document or its
    error gets, with the time the render took: the timer has no part in
    it. *)
Theorem pdf_render_race
    (rt : Runtime) (env : Env) (eng : Engine) (now id : string) (w : world)
    (invoice : document) (number : string) :
  well_formed_id id ->
  Store.findById (db w) id = Some invoice ->
  JS.ToString rt (field invoice "invoiceNumber") = Normal number ->
  let render := fst (Render.generateInvoicePDF rt env eng invoice (chrome w)) in
  let w' := after_render rt env eng invoice id w in
  Pdf.timeoutMs = 120000
  /\ (render = Hangs \/ 120000 < render_time eng ->
      answers (fst (Pdf.get_invoice_pdf rt env eng now id w)) 504 "PDF_TIMEOUT"
        "La génération du PDF prend trop de temps. Veuillez réessayer.")
  /\ (render_time eng < 120000 ->
      forall pdfBuffer, render = Done pdfBuffer ->
      Pdf.get_invoice_pdf rt env eng now id w
      = Pdf.respond rt env now invoice (inr pdfBuffer, render_time eng) w')
  /\ (render_time eng < 120000 ->
      forall e, render = Fails e ->
      Pdf.get_invoice_pdf rt env eng now id w
      = Pdf.respond rt env now invoice (inl e, render_time eng) w').
Proof.
  intros Hid Hfind Hnum render w'.
  rewrite (get_invoice_pdf_found rt env eng now id w invoice number Hid Hfind Hnum).
  fold render w'. unfold Pdf.race, Pdf.timeoutMs.
  split; [reflexivity|]. split; [|split].
  - intros [Hhang | Hlate].
    + rewrite Hhang. cbn [Pdf.respond fst]. apply timeout_is_504.
    + destruct (Z.ltb_spec (render_time eng) 120000) as [|_]; [lia|].
      destruct render; cbn [Pdf.respond fst]; apply timeout_is_504.
  - intros Hearly pdfBuffer ->.
    destruct (Z.ltb_spec (render_time eng) 120000) as [_|]; [reflexivity | lia].
  - intros Hearly e ->.
    destruct (Z.ltb_spec (render_time eng) 120000) as [_|]; [reflexivity | lia].
Qed.

Lemma stored_id_well_formed : well_formed_id "64b7f0c2a1d3e4f5a6b7c8d9".
Proof. apply matches_id_format_spec. reflexivity. Defined.

Lemma pdf_render_race_witness :
  answers
    (fst (Pdf.get_invoice_pdf any_runtime production slow_engine
            "2024-05-01T10:00:00.000Z" "64b7f0c2a1d3e4f5a6b7c8d9" one_invoice))
    504 "PDF_TIMEOUT"
    "La génération du PDF prend trop de temps. Veuillez réessayer.".
Proof.
  apply (proj1 (proj2 (pdf_render_race any_runtime production slow_engine
                         "2024-05-01T10:00:00.000Z" "64b7f0c2a1d3e4f5a6b7c8d9"
                         one_invoice stored_invoice "BCC001"
                         stored_id_well_formed eq_refl eq_refl))).
  right. reflexivity.
Defined.

(* ================================================================== *)
(** ** Further properties of the calculator *)
(* ================================================================== *)

(** X1: the calculator returns exactly on the bodies it accepts: the
    objects whose [items] is an array of items that are neither
    [undefined] nor [null] and whose [totalPrice] has a primitive value,
    and whose [timbre] and [totalRemise] have a primitive value (an
    object that holds a [toString] key has none); on every other body it
    throws a TypeError. *)
Theorem calculateInvoiceTotals_accepts (rt : Runtime) (body : value) :
  ((exists c, calculateInvoiceTotals rt body = Normal c) <-> accepted body = true)
  /\ (accepted body = false -> calculateInvoiceTotals rt body = Throw TypeError).
Proof.
  split; [split|].
  - intros [c Hc]. exact (calculator_needs_items rt body c Hc).
  - intros Hacc.
    destruct (accepted_object _ Hacc) as (props & _ & -> & _).
    destruct (calculator_returns rt props Hacc) as (c & Hc & _).
    now exists c.
  - apply calculator_throws.
Qed.

(** X2: when the calculator returns, totalHT is a string, not a number,
    exactly when some item has a price that is a non-empty string, an
    array or an object; it is a number otherwise. *)
Theorem totalHT_textual
    (rt : Runtime) (props : list (string * value)) (items : list value)
    (c : Totals) :
  JS.lookup "items" props = Some (VArr items) ->
  calculateInvoiceTotals rt (VObj props) = Normal c ->
  (existsb textual_price items = true -> exists s, totalHT c = VStr s)
  /\ (existsb textual_price items = false -> exists x, totalHT c = VNum x).
Proof.
  intros Hitems Hc.
  pose proof (calculator_totalHT rt props items c Hitems Hc) as F.
  pose proof (fold_cases rt items (VNum 0) (or_introl (ex_intro _ _ eq_refl)))
    as C.
  destruct (forallb addable items); [|rewrite C in F; discriminate].
  destruct C as (v & Hv & Hk & Hs). rewrite F in Hv. injection Hv as <-.
  cbn [JS.is_string orb] in Hs.
  split; intros E; rewrite E in Hs; destruct Hk as [[x Hx] | [s' Hx]];
    rewrite Hx in Hs; try discriminate Hs; eauto.
Qed.

Lemma totalHT_textual_witness :
  exists s,
    totalHT (returned (calculateInvoiceTotals any_runtime (VObj quoted_price_body)))
    = VStr s.
Proof.
  exact (proj1 (totalHT_textual any_runtime quoted_price_body
                  [ VObj [("totalPrice", VNum 12)];
                    VObj [("totalPrice", VStr "7.5")];
                    VObj [("totalPrice", VNum 3)] ]%string
                  (returned (calculateInvoiceTotals any_runtime
                               (VObj quoted_price_body)))
                  eq_refl eq_refl) eq_refl).
Defined.

(* ================================================================== *)
(** ** Further properties of creation, update and deletion *)
(* ================================================================== *)

Section StoreMore.
Variable rt : Runtime.

Lemma lookup_totals_other (k : string) (c : Totals) :
  ~ In k derived_keys -> JS.lookup k (totals_props c) = None.
Proof. intros H. apply lookup_none_keys. exact H. Qed.

Lemma lookup_spread (k : string) (props : list (string * value)) :
  NoDup (keys props) ->
  JS.lookup k (Store.assign [] props) = JS.lookup k props.
Proof.
  intros H. rewrite (lookup_assign _ _ _ H).
  destruct (JS.lookup k props); reflexivity.
Qed.

(** What [POST /] and [PUT /:id] do, case by case. *)
Lemma post_invoice_cases (new_id : string) (now : Z) (body : value) (w : world) :
  (exists number c,
      nextInvoiceNumber rt (Store.findLatest (db w)) = Normal number
      /\ calculateInvoiceTotals rt body = Normal c
      /\ post_invoice rt new_id now body w
         = (Json 201 (Invoice (created new_id now body number c)),
            mkWorld (db w ++ [created new_id now body number c])
              ((accesses w ++ [FindLatest]) ++ [Insert])
              (chrome w) (warnings w)))
  \/ (exists t,
        post_invoice rt new_id now body w = (NextError t, touch FindLatest w)).
Proof.
  unfold post_invoice.
  destruct (nextInvoiceNumber rt (Store.findLatest (db w))) as [number|t].
  - destruct (calculateInvoiceTotals rt body) as [c|t].
    + left. exists number, c. split; [reflexivity | split; reflexivity].
    + right. now exists t.
  - right. now exists t.
Qed.

Lemma put_invoice_cases (id : string) (body : value) (w : world) :
  (exists c d0,
      calculateInvoiceTotals rt body = Normal c
      /\ Store.findById (db w) id = Some d0
      /\ fst (put_invoice rt id body w) = Json 200 (Invoice (merged d0 body c))
      /\ db (snd (put_invoice rt id body w))
         = snd (Store.updateById (db w) id
                  (Store.assign (Store.assign [] (own_props body))
                     (totals_props c))))
  \/ (Store.findById (db w) id = None
      /\ fst (put_invoice rt id body w)
         = Json 404 (Message [("message", VStr "Invoice not found")]%string)
      /\ db (snd (put_invoice rt id body w)) = db w)
  \/ (exists t, put_invoice rt id body w = (NextError t, w)).
Proof.
  unfold put_invoice.
  destruct (calculateInvoiceTotals rt body) as [c|t];
    [|right; right; now exists t].
  destruct (Store.findById (db w) id) as [d0|] eqn:Hf.
  - left. exists c, d0.
    destruct (findById_update (db w) id
                (Store.assign (Store.assign [] (own_props body)) (totals_props c))
                d0 Hf) as [Hu _].
    rewrite Hu. repeat split; reflexivity.
  - right; left. rewrite (findById_update_none _ _ _ Hf).
    repeat split; reflexivity.
Qed.

Lemma created_fields (new_id : string) (now : Z) (body : value)
    (number : string) (c : Totals) :
  let d := created new_id now body number c in
  field d "invoiceNumber" = VStr number
  /\ field d "totalHT" = totalHT c
  /\ field d "totalTVA" = totalTVA c
  /\ field d "timbre" = timbre c
  /\ field d "totalRemise" = totalRemise c
  /\ field d "totalTTC" = totalTTC c
  /\ (forall k, ~ In k ("invoiceNumber"%string :: derived_keys) ->
                NoDup (keys (own_props body)) ->
                field d k = prop_of k (own_props body)).
Proof.
  intros d. unfold d, created, field, prop_of. cbn [fields].
  destruct (lookup_with_totals
              (Store.set "invoiceNumber" (VStr number)
                 (Store.assign [] (own_props body))) c)
    as (H1 & H2 & H3 & H4 & H5).
  rewrite H1, H2, H3, H4, H5.
  split; [|repeat (split; [reflexivity|])].
  - rewrite lookup_with_totals_other by reflexivity.
    now rewrite lookup_set_same.
  - intros k Hk Hnd.
    rewrite lookup_with_totals_other
      by (apply lookup_totals_other; intros Hin; apply Hk; now right).
    rewrite lookup_set_other by (intros E; apply Hk; left; exact E).
    now rewrite (lookup_spread k _ Hnd).
Qed.

Lemma merged_fields (d0 : document) (body : value) (c : Totals) :
  let d := merged d0 body c in
  field d "totalHT" = totalHT c
  /\ field d "totalTVA" = totalTVA c
  /\ field d "timbre" = timbre c
  /\ field d "totalRemise" = totalRemise c
  /\ field d "totalTTC" = totalTTC c
  /\ (forall k, ~ In k derived_keys ->
                NoDup (keys (own_props body)) ->
                field d k = match JS.lookup k (own_props body) with
                            | Some v => v
                            | None => field d0 k
                            end).
Proof.
  intros d. unfold d, merged, field. cbn [fields].
  assert (Hpd : NoDup (keys (Store.assign (Store.assign [] (own_props body))
                               (totals_props c))))
    by (apply assign_nodup, assign_nodup; constructor).
  destruct (lookup_with_totals (Store.assign [] (own_props body)) c)
    as (H1 & H2 & H3 & H4 & H5).
  rewrite !(lookup_assign _ _ _ Hpd), H1, H2, H3, H4, H5.
  repeat (split; [reflexivity|]).
  intros k Hk Hnd. rewrite (lookup_assign _ _ _ Hpd).
  rewrite lookup_with_totals_other by (now apply lookup_totals_other).
  rewrite (lookup_spread k _ Hnd).
  destruct (JS.lookup k (own_props body)); reflexivity.
Qed.

Lemma agreeing_totals_consistent (d : document) (body : value) (c : Totals) :
  calculateInvoiceTotals rt body = Normal c ->
  field d "totalHT" = totalHT c ->
  field d "totalTVA" = totalTVA c ->
  field d "timbre" = timbre c ->
  field d "totalRemise" = totalRemise c ->
  field d "totalTTC" = totalTTC c ->
  consistent rt d.
Proof.
  intros Hc H1 H2 H3 H4 H5. unfold consistent.
  rewrite H1, H2, H3, H4, H5.
  destruct (totals_agree rt body c Hc) as [Ha Hb].
  split; [exact Ha | split; [exact Hb|]].
  exact (timbre_truthy rt body c Hc).
Qed.

(** [updateById] changes the document of the identifier only. *)
Lemma updateById_Forall (P : document -> Prop) (db : Store.t) (id : string)
    (patch : list (string * value)) :
  Forall P db ->
  (forall d, In d db -> P d ->
             P (mkDocument (doc_id d) (createdAt d) (Store.assign (fields d) patch))) ->
  Forall P (snd (Store.updateById db id patch)).
Proof.
  induction db as [|d0 rest IH]; simpl; intros H Hp.
  - constructor.
  - inversion H as [|? ? H0 Hrest]; subst.
    destruct (String.eqb (doc_id d0) id).
    + simpl. constructor; [apply Hp; [now left | exact H0] | exact Hrest].
    + destruct (Store.updateById rest id patch) as [r rest'] eqn:U. simpl.
      constructor; [exact H0|].
      apply IH; [exact Hrest|].
      intros d Hin. apply Hp. now right.
Qed.

Lemma updateById_other (db : Store.t) (id id' : string)
    (patch : list (string * value)) :
  id' <> id ->
  Store.findById (snd (Store.updateById db id patch)) id' = Store.findById db id'.
Proof.
  intros Hne. induction db as [|d0 rest IH]; simpl; [reflexivity|].
  destruct (String.eqb_spec (doc_id d0) id) as [E|E].
  - simpl. rewrite E. destruct (String.eqb_spec id id'); [congruence | reflexivity].
  - destruct (Store.updateById rest id patch) as [r rest']. simpl in *.
    now rewrite IH.
Qed.

Lemma deleteById_sub (P : document -> Prop) (db : Store.t) (id : string) :
  Forall P db -> Forall P (snd (Store.deleteById db id)).
Proof.
  induction db as [|d0 rest IH]; simpl; intros H.
  - constructor.
  - inversion H as [|? ? H0 Hrest]; subst.
    destruct (String.eqb (doc_id d0) id); [exact Hrest|].
    destruct (Store.deleteById rest id) as [r rest']. simpl in *.
    constructor; [exact H0 | now apply IH].
Qed.

Lemma findById_app (db : Store.t) (d : document) (id : string) :
  Store.findById (db ++ [d]) id
  = match Store.findById db id with
    | Some d0 => Some d0
    | None => if String.eqb (doc_id d) id then Some d else None
    end.
Proof.
  induction db as [|d0 rest IH]; simpl; [reflexivity|].
  destruct (String.eqb (doc_id d0) id); [reflexivity | exact IH].
Qed.

Lemma deleteById_inserted (db : Store.t) (d : document) :
  Store.findById db (doc_id d) = None ->
  Store.deleteById (db ++ [d]) (doc_id d) = (Some d, db).
Proof.
  induction db as [|d0 rest IH]; simpl; intros H.
  - now rewrite String.eqb_refl.
  - destruct (String.eqb (doc_id d0) (doc_id d)); [discriminate|].
    now rewrite (IH H).
Qed.

Lemma deleteById_cases (db : Store.t) (id : string) :
  match Store.findById db id with
  | None => Store.deleteById db id = (None, db)
  | Some d =>
      fst (Store.deleteById db id) = Some d
      /\ (forall id', id' <> id ->
            Store.findById (snd (Store.deleteById db id)) id'
            = Store.findById db id')
      /\ (NoDup (map doc_id db) ->
          Store.findById (snd (Store.deleteById db id)) id = None)
  end.
Proof.
  induction db as [|d0 rest IH]; simpl; [reflexivity|].
  destruct (String.eqb_spec (doc_id d0) id) as [E|E].
  - simpl. split; [reflexivity | split].
    + intros id' Hne. destruct (String.eqb_spec (doc_id d0) id'); [congruence|reflexivity].
    + intros Hnd. inversion Hnd as [|? ? Hnotin _]; subst.
      destruct (Store.findById rest (doc_id d0)) as [d1|] eqn:F; [|reflexivity].
      exfalso. apply Hnotin. clear - F.
      induction rest as [|x r IHr]; simpl in F; [discriminate|].
      destruct (String.eqb_spec (doc_id x) (doc_id d0)) as [Ex|Ex].
      * left. exact Ex.
      * right. now apply IHr.
  - destruct (Store.deleteById rest id) as [r rest'] eqn:D.
    destruct (Store.findById rest id) as [d|].
    + destruct IH as (H1 & H2 & H3). simpl in *. split; [exact H1 | split].
      * intros id' Hne. rewrite (H2 id' Hne). reflexivity.
      * intros Hnd. inversion Hnd; subst.
        destruct (String.eqb_spec (doc_id d0) id); [contradiction | now apply H3].
    + injection IH as -> ->. reflexivity.
Qed.

End StoreMore.

(** X3: the invoice that creation saves takes its number from the
    generator and its five derived fields from the calculator, whatever
    the body carries under those keys; every other field is the body's
    (for a body without repeated keys). *)
Theorem post_invoice_fields
    (rt : Runtime) (new_id : string) (now : Z) (props : list (string * value))
    (w w' : world) (status : Z) (d : document) :
  NoDup (keys props) ->
  post_invoice rt new_id now (VObj props) w = (Json status (Invoice d), w') ->
  exists number c,
    nextInvoiceNumber rt (Store.findLatest (db w)) = Normal number
    /\ calculateInvoiceTotals rt (VObj props) = Normal c
    /\ field d "invoiceNumber" = VStr number
    /\ field d "totalHT" = totalHT c
    /\ field d "totalTVA" = totalTVA c
    /\ field d "timbre" = timbre c
    /\ field d "totalRemise" = totalRemise c
    /\ field d "totalTTC" = totalTTC c
    /\ (forall k, ~ In k ("invoiceNumber"%string :: derived_keys) ->
                  field d k = prop_of k props).
Proof.
  intros Hnd H.
  destruct (post_invoice_cases rt new_id now (VObj props) w)
    as [(number & c & Hn & Hc & Hp) | (t & Hp)];
    rewrite Hp in H; [|discriminate].
  injection H as _ <- _. exists number, c.
  destruct (created_fields new_id now (VObj props) number c)
    as (H0 & H1 & H2 & H3 & H4 & H5 & Hk).
  repeat (split; [assumption|]).
  intros k Hin. exact (Hk k Hin Hnd).
Qed.

Lemma post_invoice_fields_witness :
  exists number c,
    nextInvoiceNumber any_runtime (Store.findLatest (db one_invoice)) = Normal number
    /\ calculateInvoiceTotals any_runtime (VObj forged_body) = Normal c
    /\ field (created "64b7f0c2a1d3e4f5a6b7c8da" 2000 (VObj forged_body) "BCC002"
                (returned (calculateInvoiceTotals any_runtime (VObj forged_body))))
         "invoiceNumber" = VStr number
    /\ field (created "64b7f0c2a1d3e4f5a6b7c8da" 2000 (VObj forged_body) "BCC002"
                (returned (calculateInvoiceTotals any_runtime (VObj forged_body))))
         "totalHT" = totalHT c.
Proof.
  destruct (post_invoice_fields any_runtime "64b7f0c2a1d3e4f5a6b7c8da" 2000
              forged_body one_invoice
              (snd (post_invoice any_runtime "64b7f0c2a1d3e4f5a6b7c8da" 2000
                      (VObj forged_body) one_invoice))
              201
              (created "64b7f0c2a1d3e4f5a6b7c8da" 2000 (VObj forged_body) "BCC002"
                 (returned (calculateInvoiceTotals any_runtime
                              (VObj forged_body)))))
    as (number & c & Hn & Hc & Hf & Hht & _).
  - unfold forged_body, keys. simpl.
    repeat constructor; simpl; intuition discriminate.
  - reflexivity.
  - exists number, c. repeat split; assumption.
Defined.

(** X4: an update that answers with an invoice has merged the body into
    the invoice of that identifier: the derived fields are the
    calculator's, every other key of the body takes the body's value,
    the keys the body does not have keep their value, and the identifier
    and the creation time are kept. *)
Theorem put_invoice_merges
    (rt : Runtime) (id : string) (props : list (string * value))
    (w w' : world) (status : Z) (d : document) :
  NoDup (keys props) ->
  put_invoice rt id (VObj props) w = (Json status (Invoice d), w') ->
  exists d0 c,
    Store.findById (db w) id = Some d0
    /\ calculateInvoiceTotals rt (VObj props) = Normal c
    /\ doc_id d = doc_id d0 /\ createdAt d = createdAt d0
    /\ field d "totalHT" = totalHT c
    /\ field d "totalTVA" = totalTVA c
    /\ field d "timbre" = timbre c
    /\ field d "totalRemise" = totalRemise c
    /\ field d "totalTTC" = totalTTC c
    /\ (forall k, ~ In k derived_keys ->
          field d k = match JS.lookup k props with
                      | Some v => v
                      | None => field d0 k
                      end).
Proof.
  intros Hnd H.
  destruct (put_invoice_cases rt id (VObj props) w)
    as [(c & d0 & Hc & Hf & Hr & _) | [(_ & Hs & _) | (t & Hp)]].
  - rewrite H in Hr. cbn [fst] in Hr. injection Hr as _ ->.
    exists d0, c.
    destruct (merged_fields d0 (VObj props) c) as (H1 & H2 & H3 & H4 & H5 & Hk).
    repeat (split; [assumption || reflexivity|]).
    intros k Hin. exact (Hk k Hin Hnd).
  - rewrite H in Hs. cbn in Hs. discriminate.
  - rewrite Hp in H. discriminate.
Qed.

Lemma put_invoice_merges_witness :
  exists d0 c,
    Store.findById (db one_invoice) "64b7f0c2a1d3e4f5a6b7c8d9" = Some d0
    /\ calculateInvoiceTotals any_runtime (VObj new_items_body) = Normal c
    /\ field (merged stored_invoice (VObj new_items_body)
                (returned (calculateInvoiceTotals any_runtime
                             (VObj new_items_body))))
         "clientName" = field d0 "clientName".
Proof.
  destruct (put_invoice_merges any_runtime "64b7f0c2a1d3e4f5a6b7c8d9"
              new_items_body one_invoice
              (snd (put_invoice any_runtime "64b7f0c2a1d3e4f5a6b7c8d9"
                      (VObj new_items_body) one_invoice))
              200
              (merged stored_invoice (VObj new_items_body)
                 (returned (calculateInvoiceTotals any_runtime
                              (VObj new_items_body)))))
    as (d0 & c & Hf & Hc & _ & _ & _ & _ & _ & _ & _ & Hk).
  - repeat constructor; simpl; intuition discriminate.
  - reflexivity.
  - exists d0, c. split; [exact Hf | split; [exact Hc|]].
    apply (Hk "clientName"%string).
    unfold derived_keys; simpl; intuition discriminate.
Defined.

(** X5: the agreement of the derived fields is an invariant of the
    store: when every stored invoice has its tax equal to 0.19 times its
    subtotal, its grand total equal to subtotal + tax + stamp duty -
    discount and a stamp duty that counts as true, the same holds after a
    creation, an update and a deletion, whatever the request. *)
Theorem derived_fields_invariant (rt : Runtime) (w : world) :
  Forall (consistent rt) (db w) ->
  (forall new_id now body,
      Forall (consistent rt) (db (snd (post_invoice rt new_id now body w))))
  /\ (forall id body,
        Forall (consistent rt) (db (snd (put_invoice rt id body w))))
  /\ (forall id,
        Forall (consistent rt) (snd (delete_invoice id (db w)))).
Proof.
  intros Hinv. split; [|split].
  - intros new_id now body.
    destruct (post_invoice_cases rt new_id now body w)
      as [(number & c & Hn & Hc & Hp) | (t & Hp)]; rewrite Hp; cbn [snd db touch].
    + apply Forall_app. split; [exact Hinv|]. constructor; [|constructor].
      destruct (created_fields new_id now body number c)
        as (_ & H1 & H2 & H3 & H4 & H5 & _).
      exact (agreeing_totals_consistent rt _ body c Hc H1 H2 H3 H4 H5).
    + exact Hinv.
  - intros id body.
    destruct (put_invoice_cases rt id body w)
      as [(c & d0 & Hc & Hf & _ & Hdb) | [(_ & _ & Hdb) | (t & Hp)]].
    + rewrite Hdb. apply updateById_Forall; [exact Hinv|].
      intros d1 _ _.
      destruct (merged_fields d1 body c) as (H1 & H2 & H3 & H4 & H5 & _).
      exact (agreeing_totals_consistent rt _ body c Hc H1 H2 H3 H4 H5).
    + now rewrite Hdb.
    + now rewrite Hp.
  - intros id. unfold delete_invoice.
    pose proof (deleteById_sub (consistent rt) (db w) id Hinv) as HD.
    destruct (Store.deleteById (db w) id) as [[d|] db']; cbn in *;
      [exact HD | exact Hinv].
Qed.

Lemma derived_fields_invariant_witness :
  Forall (consistent any_runtime)
    (db (snd (post_invoice any_runtime "64b7f0c2a1d3e4f5a6b7c8da" 2000
                (VObj forged_body) empty_store))).
Proof.
  apply (proj1 (derived_fields_invariant any_runtime empty_store
                  (Forall_nil _))).
Defined.

(** X6: the store is changed by the successful calls only: a creation
    that does not answer 201, an update that does not answer 200 and a
    deletion that does not answer 200 leave every invoice as it was, and
    so does every fetch. *)
Theorem failures_leave_store (rt : Runtime) :
  (forall new_id now body w,
      reply_status (fst (post_invoice rt new_id now body w)) <> Some 201 ->
      db (snd (post_invoice rt new_id now body w)) = db w)
  /\ (forall id body w,
        reply_status (fst (put_invoice rt id body w)) <> Some 200 ->
        db (snd (put_invoice rt id body w)) = db w)
  /\ (forall id store,
        reply_status (fst (delete_invoice id store)) <> Some 200 ->
        snd (delete_invoice id store) = store)
  /\ (forall id w, db (snd (get_invoice id w)) = db w).
Proof.
  repeat match goal with |- _ /\ _ => split end.
  - intros new_id now body w.
    destruct (post_invoice_cases rt new_id now body w)
      as [(number & c & Hn & Hc & Hp) | (t & Hp)]; rewrite Hp; cbn.
    + intros H. now elim H.
    + reflexivity.
  - intros id body w.
    destruct (put_invoice_cases rt id body w)
      as [(c & d0 & Hc & Hf & Hr & _) | [(_ & _ & Hdb) | (t & Hp)]].
    + rewrite Hr. cbn. intros H. now elim H.
    + intros _. exact Hdb.
    + now rewrite Hp.
  - intros id store. unfold delete_invoice.
    destruct (Store.deleteById store id) as [[d|] db']; cbn.
    + intros H. now elim H.
    + reflexivity.
  - intros id w. unfold get_invoice.
    destruct (Store.findById (db w) id); reflexivity.
Qed.

(** X7: an invoice created under an identifier the store did not hold is
    the invoice a fetch of that identifier answers with, and the
    invoices the store held are fetched as before. *)
Theorem post_then_get
    (rt : Runtime) (new_id : string) (now : Z) (body : value) (w w' : world)
    (status : Z) (d : document) :
  Store.findById (db w) new_id = None ->
  post_invoice rt new_id now body w = (Json status (Invoice d), w') ->
  fst (get_invoice new_id w') = Json 200 (Invoice d)
  /\ (forall id d0, Store.findById (db w) id = Some d0 ->
                    fst (get_invoice id w') = Json 200 (Invoice d0)).
Proof.
  intros Hfresh H.
  destruct (post_invoice_cases rt new_id now body w)
    as [(number & c & Hn & Hc & Hp) | (t & Hp)];
    rewrite Hp in H; [|discriminate].
  injection H as _ <- <-. unfold get_invoice; cbn [db]. split.
  - rewrite findById_app, Hfresh. unfold created; cbn [doc_id].
    now rewrite String.eqb_refl.
  - intros id d0 Hd0. now rewrite findById_app, Hd0.
Qed.

Lemma post_then_get_witness :
  fst (get_invoice "64b7f0c2a1d3e4f5a6b7c8da"
         (snd (post_invoice any_runtime "64b7f0c2a1d3e4f5a6b7c8da" 2000
                 (VObj new_items_body) one_invoice)))
  = Json 200
      (Invoice (created "64b7f0c2a1d3e4f5a6b7c8da" 2000 (VObj new_items_body)
                  "BCC002"
                  (returned (calculateInvoiceTotals any_runtime
                               (VObj new_items_body))))).
Proof.
  apply (post_then_get any_runtime "64b7f0c2a1d3e4f5a6b7c8da" 2000
           (VObj new_items_body) one_invoice
           (snd (post_invoice any_runtime "64b7f0c2a1d3e4f5a6b7c8da" 2000
                   (VObj new_items_body) one_invoice))
           201).
  - reflexivity.
  - reflexivity.
Defined.

(** X8: deleting an identifier the store does not hold answers 404 and
    changes nothing; deleting a stored invoice answers 200, leaves the
    invoices of the other identifiers as they were, and, identifiers
    being unique, a fetch of the deleted one answers 404. *)
Theorem delete_invoice_effect (id : string) (store : Store.t) :
  (Store.findById store id = None ->
   reply_status (fst (delete_invoice id store)) = Some 404
   /\ snd (delete_invoice id store) = store)
  /\ (forall d, Store.findById store id = Some d ->
        reply_status (fst (delete_invoice id store)) = Some 200
        /\ (forall id', id' <> id ->
              Store.findById (snd (delete_invoice id store)) id'
              = Store.findById store id')
        /\ (NoDup (map doc_id store) ->
            forall w,
              reply_status
                (fst (get_invoice id (with_db (snd (delete_invoice id store)) w)))
              = Some 404)).
Proof.
  pose proof (deleteById_cases store id) as C. unfold delete_invoice. split.
  - intros Hnone. rewrite Hnone in C. rewrite C. split; reflexivity.
  - intros d Hd. rewrite Hd in C. destruct C as (H1 & H2 & H3).
    destruct (Store.deleteById store id) as [[d1|] db'] eqn:D;
      cbn in H1; [|discriminate].
    cbn in *. split; [reflexivity | split; [exact H2|]].
    intros Hnd w. unfold get_invoice; cbn. now rewrite (H3 Hnd).
Qed.

(* ================================================================== *)
(** ** Further properties of the numbering *)
(* ================================================================== *)

Section NumberingMore.
Variable rt : Runtime.

Lemma findLatest_insert (store : Store.t) (d : document) :
  Forall (fun d' => createdAt d' < createdAt d) store ->
  Store.findLatest (store ++ [d]) = Some d.
Proof.
  induction store as [|d0 rest IH]; simpl; intros H; [reflexivity|].
  inversion H as [|? ? H0 Hrest]; subst.
  rewrite (IH Hrest).
  destruct (Z.ltb_spec (createdAt d0) (createdAt d)); [reflexivity | lia].
Qed.

(** The number in the reply of a creation whose body the calculator
    accepts is the number generated from the newest invoice. *)
Lemma post_invoice_reply_number (new_id : string) (now : Z) (body : value)
    (w : world) :
  accepted body = true ->
  reply_number (fst (post_invoice rt new_id now body w))
  = match nextInvoiceNumber rt (Store.findLatest (db w)) with
    | Normal number => Some (VStr number)
    | Throw _ => None
    end.
Proof.
  intros Hacc. destruct (accepted_object _ Hacc) as (props & _ & -> & _).
  destruct (calculator_returns rt props Hacc) as (c & Hc & _).
  destruct (post_invoice_cases rt new_id now (VObj props) w)
    as [(number & c' & Hn & _ & Hp) | (t & Hp)]; rewrite Hp; cbn [fst reply_number].
  - rewrite Hn.
    now destruct (created_fields new_id now (VObj props) number c') as [-> _].
  - unfold post_invoice in Hp. rewrite Hc in Hp.
    destruct (nextInvoiceNumber rt (Store.findLatest (db w)));
      [discriminate | reflexivity].
Qed.

Lemma post_invoice_step (new_id : string) (now : Z) (body : value) (w : world)
    (number : string) :
  accepted body = true ->
  nextInvoiceNumber rt (Store.findLatest (db w)) = Normal number ->
  exists d,
    post_invoice rt new_id now body w
    = (Json 201 (Invoice d),
       mkWorld (db w ++ [d]) ((accesses w ++ [FindLatest]) ++ [Insert])
         (chrome w) (warnings w))
    /\ field d "invoiceNumber" = VStr number
    /\ createdAt d = now /\ doc_id d = new_id.
Proof.
  intros Hacc Hn. destruct (accepted_object _ Hacc) as (props & _ & -> & _).
  destruct (calculator_returns rt props Hacc) as (c & Hc & _).
  destruct (post_invoice_cases rt new_id now (VObj props) w)
    as [(number' & c' & Hn' & _ & Hp) | (t & Hp)].
  - rewrite Hn in Hn'. injection Hn' as <-.
    exists (created new_id now (VObj props) number c').
    split; [exact Hp|].
    destruct (created_fields new_id now (VObj props) number c') as [H0 _].
    split; [exact H0 | split; reflexivity].
  - unfold post_invoice in Hp. rewrite Hn, Hc in Hp. discriminate.
Qed.

Lemma create_all_numbers (requests : list (string * Z * value)) :
  forall (w : world) (n : N) (t : Z),
    newest_numbered (db w) n t ->
    in_order t requests ->
    (n + N.of_nat (List.length requests) <= 2 ^ 53)%N ->
    map reply_number (fst (create_all rt requests w))
    = numbers_after n (List.length requests).
Proof.
  induction requests as [|[[new_id now] body] rest IH]; intros w n t Hnew Hord Hn.
  - reflexivity.
  - destruct Hord as (Ht & Hacc & Hrest).
    destruct Hnew as (last & Hlast & Hnum & Hall).
    cbn [List.length] in Hn.
    assert (Hn1 : (n + 1 <= 2 ^ 53)%N) by lia.
    pose proof (nextInvoiceNumber_after rt last 3 n Hnum Hn1) as Hnext.
    rewrite <- Hlast in Hnext.
    destruct (post_invoice_step new_id now body w _ Hacc Hnext)
      as (d & Hp & Hd & Hcr & _).
    cbn [create_all]. rewrite Hp.
    match goal with
    | |- context [create_all rt rest ?w1] =>
        specialize (IH w1 (n + 1)%N now);
        destruct (create_all rt rest w1) as [rs w2]
    end.
    cbn [fst map reply_number List.length numbers_after] in *.
    rewrite Hd. f_equal. apply IH.
    + exists d. split; [|split].
      * apply findLatest_insert. rewrite Hcr.
        eapply Forall_impl; [|exact Hall]. cbn. intros; lia.
      * exact Hd.
      * apply Forall_app. split.
        -- eapply Forall_impl; [|exact Hall]. cbn. intros; lia.
        -- constructor; [lia | constructor].
    + exact Hrest.
    + lia.
Qed.

End NumberingMore.

(** X9: creations handled one after the other on an empty store, with
    bodies the calculator accepts and increasing creation times, are
    answered with the numbers BCC001, BCC002, ... in that order (as long
    as there are at most 2^53 of them). *)
Theorem creations_are_numbered_in_order
    (rt : Runtime) (requests : list (string * Z * value)) (w : world) (t0 : Z) :
  db w = [] ->
  in_order t0 requests ->
  (N.of_nat (List.length requests) <= 2 ^ 53)%N ->
  map reply_number (fst (create_all rt requests w))
  = numbers_after 0 (List.length requests).
Proof.
  intros Hempty Hord Hn.
  destruct requests as [|[[new_id now] body] rest]; [reflexivity|].
  destruct Hord as (_ & Hacc & Hrest).
  assert (Hnext : nextInvoiceNumber rt (Store.findLatest (db w)) = Normal "BCC001"%string)
    by (rewrite Hempty; reflexivity).
  destruct (post_invoice_step rt new_id now body w _ Hacc Hnext)
    as (d & Hp & Hd & Hcr & _).
  cbn [create_all]. rewrite Hp.
  match goal with
  | |- context [create_all rt rest ?w1] =>
      pose proof (create_all_numbers rt rest w1 1%N now) as IH;
      destruct (create_all rt rest w1) as [rs w2]
  end.
  cbn [fst map reply_number List.length numbers_after db] in *.
  rewrite Hd. f_equal. apply IH.
  - exists d. rewrite Hempty. cbn [app]. split; [reflexivity | split].
    + exact Hd.
    + constructor; [lia | constructor].
  - exact Hrest.
  - lia.
Qed.

Lemma creations_are_numbered_in_order_witness :
  map reply_number (fst (create_all any_runtime three_requests empty_store))
  = [ Some (VStr "BCC001"); Some (VStr "BCC002"); Some (VStr "BCC003") ].
Proof.
  apply (creations_are_numbered_in_order any_runtime three_requests
           empty_store 0).
  - reflexivity.
  - repeat split; lia.
  - vm_compute. discriminate.
Defined.

(** X10: when the invoice just created is deleted, the store is as it
    was before the creation, and the next creation is given the same
    number again (the bodies being ones the calculator accepts). *)
Theorem deleted_number_is_reused
    (rt : Runtime) (id1 : string) (t1 : Z) (body1 : value) (w : world) :
  Store.findById (db w) id1 = None ->
  accepted body1 = true ->
  let w1 := snd (post_invoice rt id1 t1 body1 w) in
  let store2 := snd (delete_invoice id1 (db w1)) in
  store2 = db w
  /\ (forall id2 t2 body2,
        accepted body2 = true ->
        reply_number (fst (post_invoice rt id2 t2 body2 (with_db store2 w1)))
        = reply_number (fst (post_invoice rt id1 t1 body1 w))).
Proof.
  intros Hfresh Hacc w1 store2.
  assert (Hstore : store2 = db w).
  { unfold store2, w1, delete_invoice.
    destruct (post_invoice_cases rt id1 t1 body1 w)
      as [(number & c & Hn & Hc & Hp) | (t & Hp)]; rewrite Hp; cbn [snd db touch].
    - pose proof (deleteById_inserted (db w) (created id1 t1 body1 number c)) as D.
      cbn [created doc_id] in D. unfold created in *. rewrite (D Hfresh).
      reflexivity.
    - pose proof (deleteById_cases (db w) id1) as C. rewrite Hfresh in C.
      now rewrite C. }
  split; [exact Hstore|].
  intros id2 t2 body2 Hacc2.
  rewrite !post_invoice_reply_number by assumption.
  cbn [with_db db]. now rewrite Hstore.
Qed.

Lemma deleted_number_is_reused_witness :
  reply_number
    (fst (post_invoice any_runtime "64b7f0c2a1d3e4f5a6b7c8db" 3000
            (VObj zero_timbre_body)
            (with_db
               (snd (delete_invoice "64b7f0c2a1d3e4f5a6b7c8da"
                       (db (snd (post_invoice any_runtime
                                   "64b7f0c2a1d3e4f5a6b7c8da" 2000
                                   (VObj new_items_body) one_invoice)))))
               (snd (post_invoice any_runtime "64b7f0c2a1d3e4f5a6b7c8da" 2000
                       (VObj new_items_body) one_invoice)))))
  = reply_number
      (fst (post_invoice any_runtime "64b7f0c2a1d3e4f5a6b7c8da" 2000
              (VObj new_items_body) one_invoice)).
Proof.
  apply (proj2 (deleted_number_is_reused any_runtime "64b7f0c2a1d3e4f5a6b7c8da"
                  2000 (VObj new_items_body) one_invoice
                  eq_refl eq_refl)).
  reflexivity.
Defined.

(** X11: when the newest invoice has no string for number (the field is
    missing, [null], a number), creation throws a TypeError and saves
    nothing. *)
Theorem post_invoice_without_number
    (rt : Runtime) (new_id : string) (now : Z) (body : value) (w : world)
    (last : document) :
  Store.findLatest (db w) = Some last ->
  (forall s, field last "invoiceNumber" <> VStr s) ->
  post_invoice rt new_id now body w = (NextError TypeError, touch FindLatest w)
  /\ db (touch FindLatest w) = db w.
Proof.
  intros Hlast Hno. split; [|reflexivity].
  unfold post_invoice, nextInvoiceNumber. rewrite Hlast.
  destruct (field last "invoiceNumber") as [| |b|x|s|l|o] eqn:E;
    try reflexivity.
  now elim (Hno s).
Qed.

Lemma post_invoice_without_number_witness :
  post_invoice any_runtime "64b7f0c2a1d3e4f5a6b7c8da" 2000
    (VObj new_items_body) unnumbered_store
  = (NextError TypeError, touch FindLatest unnumbered_store)
  /\ db (touch FindLatest unnumbered_store) = db unnumbered_store.
Proof.
  apply (post_invoice_without_number any_runtime "64b7f0c2a1d3e4f5a6b7c8da"
           2000 (VObj new_items_body) unnumbered_store
           (mkDocument "64b7f0c2a1d3e4f5a6b7c8d9" 1000
              [("invoiceNumber", VNull)]%string)).
  - reflexivity.
  - intros s H. discriminate H.
Defined.

(* ================================================================== *)
(** ** Properties of the list route *)
(* ================================================================== *)

Section ListFacts.

Let newer := fun a b : document => createdAt b <= createdAt a.

Lemma insert_by_time_perm (d : document) (l : list document) :
  Permutation (insert_by_time d l) (d :: l).
Proof.
  induction l as [|d' rest IH]; simpl; [apply Permutation_refl|].
  destruct (createdAt d' <=? createdAt d); [apply Permutation_refl|].
  eapply Permutation_trans; [apply perm_skip, IH | apply perm_swap].
Qed.

Lemma insert_by_time_sorted (d : document) (l : list document) :
  StronglySorted newer l -> StronglySorted newer (insert_by_time d l).
Proof.
  induction l as [|d' rest IH]; simpl; intros H.
  - repeat constructor.
  - inversion H as [|? ? Hrest Hall]; subst.
    destruct (Z.leb_spec (createdAt d') (createdAt d)) as [Hle|Hgt].
    + constructor; [exact H|]. constructor; [exact Hle|].
      eapply Forall_impl; [|exact Hall]. unfold newer. intros; lia.
    + constructor; [now apply IH|].
      eapply Permutation_Forall;
        [apply Permutation_sym, insert_by_time_perm|].
      constructor; [unfold newer; lia | exact Hall].
Qed.

(** The list route has an answer on every store. *)
Lemma arranged_answer (store : Store.t) : get_invoices store (arranged store).
Proof.
  unfold get_invoices, Store.findAllSorted, arranged. fold newer.
  induction store as [|d rest [IHp IHs]]; simpl.
  - split; constructor.
  - split.
    + eapply Permutation_trans; [apply insert_by_time_perm | now apply perm_skip].
    + now apply insert_by_time_sorted.
Qed.

Lemma same_time_same_document (store : Store.t) (a b : document) :
  NoDup (map createdAt store) ->
  In a store -> In b store -> createdAt a = createdAt b -> a = b.
Proof.
  induction store as [|d rest IH]; simpl; intros Hnd Ha Hb E; [contradiction|].
  inversion Hnd as [|? ? Hnotin Hrest]; subst.
  destruct Ha as [<-|Ha], Hb as [<-|Hb].
  - reflexivity.
  - exfalso. apply Hnotin. rewrite E. now apply in_map.
  - exfalso. apply Hnotin. rewrite <- E. now apply in_map.
  - now apply IH.
Qed.

(** The first invoice of an answer is in the store, and no invoice of
    the store is younger. *)
Lemma answer_head (store : Store.t) (h : document) (tl : list document) :
  get_invoices store (h :: tl) ->
  In h store /\ Forall (fun d => createdAt d <= createdAt h) store.
Proof.
  intros [Hp Hs]. split.
  - apply (Permutation_in _ Hp). now left.
  - eapply Permutation_Forall; [exact Hp|].
    inversion Hs as [|? ? _ Hall]; subst.
    constructor; [lia | exact Hall].
Qed.

Lemma sorted_unique (l l' : list document) :
  StronglySorted newer l -> StronglySorted newer l' ->
  Permutation l l' -> NoDup (map createdAt l) -> l = l'.
Proof.
  revert l'. induction l as [|h tl IH]; intros l' Hs Hs' Hp Hnd.
  - apply Permutation_nil in Hp. now subst.
  - destruct l' as [|h' tl'];
      [apply Permutation_sym, Permutation_nil in Hp; discriminate|].
    assert (E : h = h').
    { apply (same_time_same_document (h :: tl)); [exact Hnd | now left | |].
      - apply (Permutation_in _ (Permutation_sym Hp)). now left.
      - assert (H1 : createdAt h' <= createdAt h).
        { assert (Hin : In h' (h :: tl))
            by (apply (Permutation_in _ (Permutation_sym Hp)); now left).
          inversion Hs as [|? ? _ Hall]; subst.
          destruct Hin as [<-|Hin]; [lia|].
          rewrite Forall_forall in Hall. exact (Hall h' Hin). }
        assert (H2 : createdAt h <= createdAt h').
        { assert (Hin : In h (h' :: tl'))
            by (apply (Permutation_in _ Hp); now left).
          inversion Hs' as [|? ? _ Hall]; subst.
          destruct Hin as [<-|Hin]; [lia|].
          rewrite Forall_forall in Hall. exact (Hall h Hin). }
        lia. }
    subst h'. f_equal. apply IH.
    + now inversion Hs.
    + now inversion Hs'.
    + exact (Permutation_cons_inv Hp).
    + now inversion Hnd.
Qed.

End ListFacts.

(** X12: the list route answers with the invoices of the store, each one
    once, by decreasing creation time, and there is such an answer on
    every store; the first invoice of an answer has the creation time of
    the newest invoice, from which creation takes the next number; when
    no two invoices of the store have the same creation time, the answer
    is determined and its first invoice is that newest invoice. *)
Theorem get_invoices_newest_first (store : Store.t) :
  (exists invoices, get_invoices store invoices)
  /\ (forall invoices,
        get_invoices store invoices ->
        option_map createdAt (hd_error invoices)
        = option_map createdAt (Store.findLatest store))
  /\ (NoDup (map createdAt store) ->
      forall invoices,
        get_invoices store invoices ->
        hd_error invoices = Store.findLatest store
        /\ (forall invoices', get_invoices store invoices' -> invoices' = invoices)).
Proof.
  assert (Htime : forall invoices,
             get_invoices store invoices ->
             match hd_error invoices, Store.findLatest store with
             | Some h, Some d => In h store /\ In d store
                                 /\ createdAt h = createdAt d
             | None, None => True
             | _, _ => False
             end).
  { intros [|h tl] Hans; cbn [hd_error].
    - destruct Hans as [Hp _]. apply Permutation_nil in Hp. now subst.
    - destruct (answer_head store h tl Hans) as [Hin Hall].
      destruct (Store.findLatest store) as [d|] eqn:E.
      + destruct (findLatest_latest store d E) as [Hd Hle].
        rewrite Forall_forall in Hall, Hle.
        specialize (Hall d Hd). specialize (Hle h Hin). cbn in Hle.
        repeat split; [assumption | assumption | lia].
      + apply findLatest_none in E. subst. contradiction. }
  split; [|split].
  - exists (arranged store). apply arranged_answer.
  - intros invoices Hans. specialize (Htime invoices Hans).
    destruct (hd_error invoices), (Store.findLatest store);
      try contradiction; [|reflexivity].
    destruct Htime as (_ & _ & E). cbn. now rewrite E.
  - intros Hnd invoices Hans. split.
    + specialize (Htime invoices Hans).
      destruct (hd_error invoices), (Store.findLatest store);
        try contradiction; [|reflexivity].
      destruct Htime as (Hh & Hd & E). f_equal.
      exact (same_time_same_document store _ _ Hnd Hh Hd E).
    + intros invoices' Hans'.
      destruct Hans as [Hp Hs], Hans' as [Hp' Hs'].
      apply sorted_unique; try assumption.
      * eapply Permutation_trans; [exact Hp' | now apply Permutation_sym].
      * eapply Permutation_NoDup; [|exact Hnd].
        apply Permutation_map, Permutation_sym, Hp'.
Qed.

(* ================================================================== *)
(** ** The shape of the numbers *)
(* ================================================================== *)

Section ShapeFacts.

Lemma length_append (a b : string) :
  String.length (a ++ b) = (String.length a + String.length b)%nat.
Proof. induction a as [|c a IH]; simpl; [reflexivity | now rewrite IH]. Qed.

Lemma length_zeros (k : nat) : String.length (zeros k) = k.
Proof.
  induction k as [|k IH]; [reflexivity|].
  rewrite zeros_succ. simpl. now rewrite IH.
Qed.

Lemma length_padStart0 (n : nat) (s : string) :
  String.length (Str.padStart0 n s) = Nat.max n (String.length s).
Proof.
  unfold Str.padStart0. fold (zeros (n - String.length s)).
  rewrite length_append, length_zeros. lia.
Qed.

End ShapeFacts.

(** X13: every number that creation gives, "BCCNaN" included, is "BCC"
    followed by three characters at least. *)
Theorem issued_number_shape
    (rt : Runtime) (new_id : string) (now : Z) (body : value) (w w' : world)
    (status : Z) (d : document) :
  post_invoice rt new_id now body w = (Json status (Invoice d), w') ->
  exists tail,
    field d "invoiceNumber" = VStr ("BCC" ++ tail)
    /\ (3 <= String.length tail)%nat.
Proof.
  intros H.
  destruct (post_invoice_cases rt new_id now body w)
    as [(number & c & Hn & Hc & Hp) | (t & Hp)];
    rewrite Hp in H; [|discriminate].
  injection H as _ <- _.
  destruct (created_fields new_id now body number c) as [-> _].
  unfold nextInvoiceNumber in Hn.
  destruct (match Store.findLatest (db w) with
            | Some last => _
            | None => _
            end) as [x|]; cbn [bind] in Hn; [|discriminate].
  injection Hn as <-.
  exists (Str.padStart0 3 (Num.toString rt x)). split; [reflexivity|].
  rewrite length_padStart0. lia.
Qed.

Lemma issued_number_shape_witness :
  exists tail,
    field (created "64b7f0c2a1d3e4f5a6b7c8da" 2000 (VObj new_items_body) "BCCNaN"
             (returned (calculateInvoiceTotals any_runtime (VObj new_items_body))))
      "invoiceNumber" = VStr ("BCC" ++ tail)
    /\ (3 <= String.length tail)%nat.
Proof.
  apply (issued_number_shape any_runtime "64b7f0c2a1d3e4f5a6b7c8da" 2000
           (VObj new_items_body) (store_with "FAC-2024-17")
           (snd (post_invoice any_runtime "64b7f0c2a1d3e4f5a6b7c8da" 2000
                   (VObj new_items_body) (store_with "FAC-2024-17")))
           201).
  reflexivity.
Defined.

(* ================================================================== *)
(** ** Further properties of the renderer and of the PDF route *)
(* ================================================================== *)

Section RendererMore.
Variable rt : Runtime.

Lemma unit_answer (a : answer unit) :
  a = Done tt \/ (exists e, a = Fails e) \/ a = Hangs.
Proof. destruct a as [[]|e|]; eauto. Qed.

(** The result of the statements of lines 271-293. *)
Lemma print_result (eng : Engine) (invoice : document) (b : nat)
    (s : Render.state) :
  (exists buf html,
      fst (Render.print eng invoice b s) = Done buf
      /\ newPage eng = Done tt /\ setViewport eng = Done tt
      /\ generateInvoiceHTML eng invoice = Done html
      /\ setContent eng html = Done tt /\ pdf eng = Done buf)
  \/ (exists cause,
        fst (Render.print eng invoice b s) = Fails cause
        /\ page_fails_with eng invoice cause)
  \/ (fst (Render.print eng invoice b s) = Hangs /\ page_hangs eng invoice).
Proof.
  unfold Render.print, Render.bind, Render.call, Render.await, Render.ret,
    page_fails_with, page_hangs.
  destruct (newPage eng) as [[]|e|] eqn:E1; cbn;
    [|right; left; exists e; intuition | right; right; intuition].
  destruct (setViewport eng) as [[]|e|] eqn:E2; cbn;
    [|right; left; exists e; intuition | right; right; intuition].
  destruct (generateInvoiceHTML eng invoice) as [html|e|] eqn:E3; cbn;
    [|right; left; exists e; intuition | right; right; intuition].
  destruct (setContent eng html) as [[]|e|] eqn:E4; cbn;
    [|right; left; exists e; split; [reflexivity|];
      right; right; repeat (split; [reflexivity|]); right; exists html; intuition
     |right; right; split; [reflexivity|];
      do 3 right; left; exists html; intuition].
  destruct (pdf eng) as [buf|e|] eqn:E5; cbn;
    [|right; left; exists e; split; [reflexivity|];
      right; right; repeat (split; [reflexivity|]); right; exists html; intuition
     |right; right; intuition].
  left. exists buf, html. intuition.
Qed.

(** The result of a render, case by case on the preparation, the launch,
    the calls on the page and the close. *)
Lemma generateInvoicePDF_result (env : Env) (eng : Engine) (invoice : document)
    (s : Render.state) :
  let r := fst (Render.generateInvoicePDF rt env eng invoice s) in
  let wrapped := fun cause =>
    mkError (wrap_prefix ++ message cause)
      (ErrorStack rt (wrap_prefix ++ message cause)) in
  (* no instance launched *)
  ((preparation env eng = Hangs
    \/ (preparation env eng = Done tt /\ launch eng = Hangs)) /\ r = Hangs)
  \/ (exists cause,
        (preparation env eng = Fails cause
         \/ (preparation env eng = Done tt /\ launch eng = Fails cause))
        /\ r = Fails (wrapped cause))
  (* an instance launched *)
  \/ (preparation env eng = Done tt /\ launch eng = Done tt
      /\ ((exists buf html,
              newPage eng = Done tt /\ setViewport eng = Done tt
              /\ generateInvoiceHTML eng invoice = Done html
              /\ setContent eng html = Done tt /\ pdf eng = Done buf
              /\ ((close eng = Done tt /\ r = Done buf)
                  \/ (exists ec, close eng = Fails ec /\ r = Fails ec)
                  \/ (close eng = Hangs /\ r = Hangs)))
          \/ (exists cause,
                page_fails_with eng invoice cause
                /\ ((close eng = Done tt /\ r = Fails (wrapped cause))
                    \/ (exists ec, close eng = Fails ec /\ r = Fails ec)
                    \/ (close eng = Hangs /\ r = Hangs)))
          \/ (page_hangs eng invoice /\ r = Hangs))).
Proof.
  intros r wrapped. subst r.
  unfold Render.generateInvoicePDF, Render.try_catch_finally.
  fold wrap_prefix.
  assert (Hprep : (if Render.isProduction env
                   then Render.await (executablePath eng) s
                   else Render.await (import_puppeteer eng) s)
                  = (preparation env eng, s))
    by (unfold preparation; destruct (Render.isProduction env); reflexivity).
  rewrite Hprep. clear Hprep.
  destruct (preparation env eng) as [[]|e|] eqn:Ep; cbn [fst];
    [| right; left; exists e; split; [now left | reflexivity]
     | left; split; [now left | reflexivity]].
  unfold Render.do_launch.
  destruct (launch eng) as [[]|e|] eqn:El;
    [| right; left; exists e; split; [right; now split | reflexivity]
     | left; split; [right; now split | reflexivity]].
  right; right. split; [reflexivity | split; [reflexivity|]].
  unfold Render.keeping.
  match goal with
  | |- context [Render.print eng invoice ?b ?s2] =>
      pose proof (print_result eng invoice b s2) as P;
      destruct (Render.print eng invoice b s2) as [rp sp]
  end.
  cbn [fst] in P.
  destruct P as [(buf & html & -> & H1 & H2 & H3 & H4 & H5)
                | [(cause & -> & Hcause) | [-> Hhang]]].
  - left. exists buf, html. repeat (split; [assumption|]).
    unfold Render.do_close. destruct (close eng) as [[]|ec|]; cbn.
    + left; now split.
    + right; left. exists ec. now split.
    + right; right. now split.
  - right; left. exists cause. split; [exact Hcause|].
    unfold Render.await, Render.do_close. destruct (close eng) as [[]|ec|]; cbn.
    + left; now split.
    + right; left. exists ec. now split.
    + right; right. now split.
  - right; right. split; [exact Hhang | reflexivity].
Qed.

(** The text put before the cause holds none of the keywords of the
    classification, and no keyword starts in it. *)
Lemma includes_wrapped (m : string) :
  Str.includes (wrap_prefix ++ m) "timeout" = Str.includes m "timeout"
  /\ Str.includes (wrap_prefix ++ m) "memory" = Str.includes m "memory"
  /\ Str.includes (wrap_prefix ++ m) "Memory" = Str.includes m "Memory"
  /\ Str.includes (wrap_prefix ++ m) "browser" = Str.includes m "browser"
  /\ Str.includes (wrap_prefix ++ m) "puppeteer" = Str.includes m "puppeteer"
  /\ Str.includes (wrap_prefix ++ m) "not found" = Str.includes m "not found"
  /\ Str.includes (wrap_prefix ++ m) "vide" = Str.includes m "vide"
  /\ Str.includes (wrap_prefix ++ m) "corrompu" = Str.includes m "corrompu".
Proof. repeat split; reflexivity. Qed.

Lemma classify_wrapped (cause : error) (stack' : string) :
  fst (fst (Pdf.classify (mkError (wrap_prefix ++ message cause) stack')))
  = fst (fst (Pdf.classify cause))
  /\ snd (Pdf.classify (mkError (wrap_prefix ++ message cause) stack'))
     = snd (Pdf.classify cause).
Proof.
  unfold Pdf.classify. cbn [message].
  destruct (includes_wrapped (message cause))
    as (-> & -> & -> & -> & -> & -> & -> & ->).
  destruct (Str.includes (message cause) "timeout"); [split; reflexivity|].
  destruct (Str.includes (message cause) "memory" || Str.includes (message cause) "Memory");
    [split; reflexivity|].
  destruct (Str.includes (message cause) "browser" || Str.includes (message cause) "puppeteer");
    [split; reflexivity|].
  destruct (Str.includes (message cause) "not found"); [split; reflexivity|].
  destruct (Str.includes (message cause) "vide" || Str.includes (message cause) "corrompu");
    split; reflexivity.
Qed.

End RendererMore.

(** X14: a render answers with a document exactly when every call of the
    engine succeeds, the close included, and the document is the buffer
    the engine printed. *)
Theorem generateInvoicePDF_succeeds_iff
    (rt : Runtime) (env : Env) (eng : Engine) (invoice : document)
    (s : Render.state) (buf : buffer) :
  fst (Render.generateInvoicePDF rt env eng invoice s) = Done buf
  <-> (preparation env eng = Done tt /\ launch eng = Done tt
       /\ newPage eng = Done tt /\ setViewport eng = Done tt
       /\ (exists html, generateInvoiceHTML eng invoice = Done html
                        /\ setContent eng html = Done tt)
       /\ pdf eng = Done buf /\ close eng = Done tt).
Proof.
  pose proof (generateInvoicePDF_result rt env eng invoice s) as R.
  cbv zeta in R.
  destruct R as [[Hd Hr] | [(cause & Hd & Hr) | (Hp & Hl & R)]].
  - rewrite Hr. split; [discriminate|].
    intros (H1 & H2 & _). destruct Hd as [Hd | [_ Hd]]; congruence.
  - rewrite Hr. split; [discriminate|].
    intros (H1 & H2 & _). destruct Hd as [Hd | [_ Hd]]; congruence.
  - destruct R as [(buf' & html & H1 & H2 & H3 & H4 & H5 & Hc)
                  | [(cause & Hcause & Hc) | [Hh Hr]]].
    + destruct Hc as [[Hc Hr] | [(ec & Hc & Hr) | [Hc Hr]]]; rewrite Hr.
      * split.
        -- intros E. injection E as <-.
           repeat (split; [assumption|]). split; [|split; assumption].
           exists html. now split.
        -- intros (_ & _ & _ & _ & _ & Hb & _). congruence.
      * split; [discriminate|]. intros (_ & _ & _ & _ & _ & _ & Hx). congruence.
      * split; [discriminate|]. intros (_ & _ & _ & _ & _ & _ & Hx). congruence.
    + assert (Hr : fst (Render.generateInvoicePDF rt env eng invoice s) <> Done buf).
      { destruct Hc as [[_ Hr] | [(ec & _ & Hr) | [_ Hr]]]; rewrite Hr; discriminate. }
      split; [intros E; contradiction|].
      intros (_ & _ & G1 & G2 & (html & G3 & G4) & G5 & _). exfalso.
      unfold page_fails_with in Hcause.
      destruct Hcause as [F | [[_ F] | (_ & _ & [F | (html' & E' & [F | [_ F]])])]];
        congruence.
    + rewrite Hr. split; [discriminate|].
      intros (_ & _ & G1 & G2 & (html & G3 & G4) & G5 & _). exfalso.
      unfold page_hangs in Hh.
      destruct Hh as [F | [F | [F | [(html' & E' & F) | F]]]]; congruence.
Qed.

(** X15: when [close] rejects, the render fails with the error of
    [close] as it is, without the text that wraps the other failures, and
    a document already printed is lost. *)
Theorem close_failure_masks_result
    (rt : Runtime) (env : Env) (eng : Engine) (invoice : document)
    (s : Render.state) (ec : error) :
  preparation env eng = Done tt ->
  launch eng = Done tt ->
  close eng = Fails ec ->
  ~ page_hangs eng invoice ->
  fst (Render.generateInvoicePDF rt env eng invoice s) = Fails ec.
Proof.
  intros Hp Hl Hc Hn.
  pose proof (generateInvoicePDF_result rt env eng invoice s) as R.
  cbv zeta in R.
  destruct R as [[Hd Hr] | [(cause & Hd & Hr) | (_ & _ & R)]].
  - destruct Hd as [Hd | [_ Hd]]; congruence.
  - destruct Hd as [Hd | [_ Hd]]; congruence.
  - destruct R as [(buf' & html & _ & _ & _ & _ & _ & R)
                  | [(cause & _ & R) | [Hh _]]];
      [| |contradiction];
      destruct R as [[Hx _] | [(ec' & Hx & Hr) | [Hx _]]]; congruence.
Qed.

Lemma close_failure_masks_result_witness :
  fst (Render.generateInvoicePDF any_runtime production close_failing_engine
         stored_invoice (Render.mkState 0 [] []))
  = Fails (mkError "Protocol error: Target closed" EmptyString).
Proof.
  apply (close_failure_masks_result any_runtime production close_failing_engine
           stored_invoice (Render.mkState 0 [] [])).
  - reflexivity.
  - reflexivity.
  - reflexivity.
  - unfold page_hangs. cbn.
    intros [F | [F | [F | [(html & _ & F) | F]]]]; discriminate.
Defined.

(** X16: a render that fails while its [close] succeeds fails with the
    message of its cause behind "Erreur lors de la génération du PDF: ",
    and the PDF route gives it the status and the code of the cause: the
    text put in front changes nothing to the classification. *)
Theorem render_failure_keeps_class
    (rt : Runtime) (env : Env) (eng : Engine) (invoice : document)
    (s : Render.state) (e : error) :
  close eng = Done tt ->
  fst (Render.generateInvoicePDF rt env eng invoice s) = Fails e ->
  exists cause,
    engine_fails_with env eng invoice cause
    /\ message e = (wrap_prefix ++ message cause)%string
    /\ fst (fst (Pdf.classify e)) = fst (fst (Pdf.classify cause))
    /\ snd (Pdf.classify e) = snd (Pdf.classify cause).
Proof.
  intros Hc Hr.
  pose proof (generateInvoicePDF_result rt env eng invoice s) as R.
  cbv zeta in R.
  assert (W : forall cause,
             engine_fails_with env eng invoice cause ->
             e = mkError (wrap_prefix ++ message cause)
                   (ErrorStack rt (wrap_prefix ++ message cause)) ->
             exists cause,
               engine_fails_with env eng invoice cause
               /\ message e = (wrap_prefix ++ message cause)%string
               /\ fst (fst (Pdf.classify e)) = fst (fst (Pdf.classify cause))
               /\ snd (Pdf.classify e) = snd (Pdf.classify cause)).
  { intros cause Hcause ->. exists cause.
    split; [exact Hcause | split; [reflexivity|]].
    apply classify_wrapped. }
  destruct R as [[_ Hx] | [(cause & Hd & Hx) | (Hp & Hl & R)]].
  - congruence.
  - apply (W cause).
    + unfold engine_fails_with. destruct Hd as [Hd | Hd]; [now left | right; now left].
    + congruence.
  - destruct R as [(buf' & html & _ & _ & _ & _ & _ & R)
                  | [(cause & Hcause & R) | [_ Hx]]].
    + destruct R as [[_ Hx] | [(ec' & Hx & _) | [Hx _]]]; congruence.
    + destruct R as [[_ Hx] | [(ec' & Hx & _) | [Hx _]]]; try congruence.
      apply (W cause); [|congruence].
      unfold engine_fails_with. right; right. now repeat split.
    + congruence.
Qed.

Lemma render_failure_keeps_class_witness :
  exists cause,
    engine_fails_with production failing_content_engine stored_invoice cause
    /\ message (mkError
         "Erreur lors de la génération du PDF: Navigation timeout of 30000 ms exceeded"
         EmptyString)
       = (wrap_prefix ++ message cause)%string
    /\ fst (fst (Pdf.classify (mkError
         "Erreur lors de la génération du PDF: Navigation timeout of 30000 ms exceeded"
         EmptyString)))
       = fst (fst (Pdf.classify cause))
    /\ snd (Pdf.classify (mkError
         "Erreur lors de la génération du PDF: Navigation timeout of 30000 ms exceeded"
         EmptyString))
       = snd (Pdf.classify cause).
Proof.
  apply (render_failure_keeps_class any_runtime production failing_content_engine
           stored_invoice (Render.mkState 0 [] [])).
  - reflexivity.
  - reflexivity.
Defined.

Section RouteMore.
Variable rt : Runtime.

(** What [respond] answers, and what it changes. *)
Lemma respond_cases (env : Env) (now : string) (invoice : document)
    (settled : (error + buffer) * Z) (w : world) :
  (exists buf number,
      settled = (inr buf, snd settled)
      /\ (1000 <= List.length buf)%nat /\ firstn 4 buf = Pdf.pdf_magic
      /\ JS.ToString rt (field invoice "invoiceNumber") = Normal number
      /\ Pdf.valid_header_value (download_name number now) = true
      /\ fst (Pdf.respond rt env now invoice settled w)
         = Download (download_name number now) (snd settled) buf)
  \/ (exists e,
        fst (Pdf.respond rt env now invoice settled w)
        = Pdf.fail env now invoice e).
Proof.
  destruct settled as [[e|buf] t]; cbn [Pdf.respond fst snd].
  - right. now exists e.
  - destruct (verify_cases rt buf) as (V0 & V1 & V2 & V3).
    destruct (Nat.lt_ge_cases (List.length buf) 1000) as [Hlt|Hge].
    + right.
      assert (exists e, Pdf.verify rt buf = Pdf.Rejected e) as [e He].
      { destruct (Nat.eq_dec (List.length buf) 0) as [E0|N0].
        - destruct (V0 E0) as (e & He & _). now exists e.
        - destruct (V1 ltac:(lia)) as (e & He & _). now exists e. }
      rewrite He. now exists e.
    + destruct (list_eq_dec Byte.byte_eq_dec (firstn 4 buf) Pdf.pdf_magic)
        as [Hm|Hm].
      * rewrite (V3 Hge Hm).
        destruct (JS.ToString rt (field invoice "invoiceNumber"))
          as [number|t'] eqn:N; [|right; eexists; reflexivity].
        fold (download_name number now).
        destruct (Pdf.valid_header_value (download_name number now)) eqn:Hv;
          [|right; eexists; reflexivity].
        left. exists buf, number.
        repeat (split; [reflexivity || assumption|]). reflexivity.
      * right. destruct (V2 Hge Hm) as (e & He & _). rewrite He. now exists e.
Qed.

Lemma respond_world (env : Env) (now : string) (invoice : document)
    (settled : (error + buffer) * Z) (w : world) :
  let w' := snd (Pdf.respond rt env now invoice settled w) in
  db w' = db w /\ accesses w' = accesses w /\ chrome w' = chrome w
  /\ (warnings w' = warnings w
      \/ warnings w' = (warnings w ++ [Pdf.eof_warning])%list).
Proof.
  destruct settled as [[e|buf] t]; cbn [Pdf.respond snd].
  - repeat split. now left.
  - destruct (Pdf.verify rt buf) as [e|[]];
      [| destruct (JS.ToString rt (field invoice "invoiceNumber")) as [number|t'];
         [destruct (Pdf.valid_header_value _)|]..];
      cbn; repeat split; (now left) || (now right).
Qed.

Lemma race_cases (render : answer buffer) (time : Z) :
  (exists buf, render = Done buf /\ time < Pdf.timeoutMs
               /\ Pdf.race rt render time = (inr buf, time))
  \/ (exists e, fst (Pdf.race rt render time) = inl e).
Proof.
  unfold Pdf.race. destruct render as [buf|e|].
  - destruct (Z.ltb_spec time Pdf.timeoutMs).
    + left. exists buf. repeat split. assumption.
    + right. eexists. reflexivity.
  - right. destruct (time <? Pdf.timeoutMs); eexists; reflexivity.
  - right. eexists. reflexivity.
Qed.

(** The four ways through the handler. *)
Lemma get_invoice_pdf_cases (env : Env) (eng : Engine) (now id : string)
    (w : world) :
  (~ well_formed_id id
   /\ snd (Pdf.get_invoice_pdf rt env eng now id w) = w)
  \/ (well_formed_id id /\ Store.findById (db w) id = None
      /\ snd (Pdf.get_invoice_pdf rt env eng now id w) = touch (FindById id) w)
  \/ (well_formed_id id
      /\ exists invoice t,
           Store.findById (db w) id = Some invoice
           /\ JS.ToString rt (field invoice "invoiceNumber") = Throw t
           /\ Pdf.get_invoice_pdf rt env eng now id w
              = (NextError t, touch (FindById id) w))
  \/ (well_formed_id id
      /\ exists invoice number,
           Store.findById (db w) id = Some invoice
           /\ JS.ToString rt (field invoice "invoiceNumber") = Normal number
           /\ Pdf.get_invoice_pdf rt env eng now id w
              = Pdf.respond rt env now invoice
                  (Pdf.race rt
                     (fst (Render.generateInvoicePDF rt env eng invoice (chrome w)))
                     (render_time eng))
                  (after_render rt env eng invoice id w)).
Proof.
  destruct (Pdf.matches_id_format id) eqn:Eid.
  - apply matches_id_format_spec in Eid.
    destruct (Store.findById (db w) id) as [invoice|] eqn:Hf.
    + destruct (JS.ToString rt (field invoice "invoiceNumber")) as [number|t]
        eqn:N.
      * do 3 right. split; [exact Eid|]. exists invoice, number.
        split; [reflexivity | split; [exact N|]].
        exact (get_invoice_pdf_found rt env eng now id w invoice number Eid Hf N).
      * do 2 right; left. split; [exact Eid|]. exists invoice, t.
        split; [reflexivity | split; [exact N|]].
        unfold Pdf.get_invoice_pdf. rewrite (well_formed_not_empty id Eid).
        rewrite (proj2 (matches_id_format_spec id) Eid). cbn [negb orb].
        now rewrite Hf, N.
    + right; left. split; [exact Eid | split; [reflexivity|]].
      unfold Pdf.get_invoice_pdf. rewrite (well_formed_not_empty id Eid).
      rewrite (proj2 (matches_id_format_spec id) Eid). cbn [negb orb].
      now rewrite Hf.
  - left. split.
    + intros H. apply matches_id_format_spec in H. congruence.
    + unfold Pdf.get_invoice_pdf. rewrite Eid. now rewrite orb_true_r.
Qed.

End RouteMore.

(** X17: the PDF route sends a document exactly when the identifier is
    well formed, the store holds the invoice, the number of the invoice
    has a text, the render answers before the 120000 ms with a buffer of
    1000 bytes at least that starts with "%PDF", and the file name
    "Facture_<number>_<date>.pdf" holds only characters that
    [res.setHeader] takes (TAB and U+0020 to U+00FF but U+007F); the
    document sent is that buffer, under that name, with the time the
    render took. *)
Theorem pdf_sent_iff
    (rt : Runtime) (env : Env) (eng : Engine) (now id : string) (w : world)
    (filename : string) (t : Z) (content : buffer) :
  fst (Pdf.get_invoice_pdf rt env eng now id w) = Download filename t content
  <-> (well_formed_id id
       /\ exists invoice number,
            Store.findById (db w) id = Some invoice
            /\ JS.ToString rt (field invoice "invoiceNumber") = Normal number
            /\ fst (Render.generateInvoicePDF rt env eng invoice (chrome w))
               = Done content
            /\ t = render_time eng /\ t < 120000
            /\ (1000 <= List.length content)%nat
            /\ firstn 4 content = Pdf.pdf_magic
            /\ filename = download_name number now
            /\ Pdf.valid_header_value filename = true).
Proof.
  split.
  - intros H. unfold Pdf.get_invoice_pdf in H.
    destruct (Pdf.matches_id_format id) eqn:Eid.
    2:{ rewrite orb_true_r in H. discriminate. }
    apply matches_id_format_spec in Eid.
    rewrite (well_formed_not_empty id Eid) in H. cbn [negb orb] in H.
    split; [exact Eid|].
    destruct (Store.findById (db w) id) as [invoice|]; [|discriminate].
    destruct (JS.ToString rt (field invoice "invoiceNumber")) as [number|t']
      eqn:N; [|discriminate].
    exists invoice, number. split; [reflexivity | split; [exact N|]].
    cbn [touch chrome] in H.
    destruct (Render.generateInvoicePDF rt env eng invoice (chrome w))
      as [render chrome'].
    cbn [fst].
    match type of H with
    | fst (Pdf.respond rt env now invoice ?settled ?w2) = _ =>
        destruct (respond_cases rt env now invoice settled w2)
          as [(buf & number' & Hs & Hlen & Hm & N' & Hv & Hr) | (e & Hr)];
        rewrite Hr in H; [|discriminate]
    end.
    rewrite N in N'. injection N' as <-.
    destruct (race_cases rt render (render_time eng))
      as [(buf' & -> & Ht & Hrace) | (e & Hrace)].
    + rewrite Hrace in Hs, H. cbn [snd] in Hs, H.
      injection Hs as <-. injection H as <- <- <-.
      unfold Pdf.timeoutMs in Ht. repeat split; assumption.
    + rewrite Hs in Hrace. discriminate.
  - intros (Hid & invoice & number & Hf & N & Hr & -> & Ht & Hlen & Hm & -> & Hv).
    rewrite (get_invoice_pdf_found rt env eng now id w invoice number Hid Hf N).
    rewrite Hr. unfold Pdf.race.
    destruct (Z.ltb_spec (render_time eng) Pdf.timeoutMs) as [_|Hge];
      [|unfold Pdf.timeoutMs in Hge; lia].
    destruct (verify_cases rt content) as (_ & _ & _ & V3).
    destruct (respond_accepted rt env now invoice content (render_time eng)
                (after_render rt env eng invoice id w) _ number
                (V3 Hlen Hm) N Hv) as (w' & -> & _).
    reflexivity.
Qed.

(** X18: the PDF route never changes the store, looks the store up once
    at most and writes one warning at most; the engine instances are as
    they were unless the identifier is well formed, the store holds the
    invoice and line 118 has written its number; and a stored invoice
    whose number has no text (an object that holds a [toString] key)
    makes the route hand a TypeError to [next] after the lookup. *)
Theorem get_invoice_pdf_reads_only
    (rt : Runtime) (env : Env) (eng : Engine) (now id : string) (w : world) :
  db (snd (Pdf.get_invoice_pdf rt env eng now id w)) = db w
  /\ (accesses (snd (Pdf.get_invoice_pdf rt env eng now id w)) = accesses w
      \/ accesses (snd (Pdf.get_invoice_pdf rt env eng now id w))
         = (accesses w ++ [FindById id])%list)
  /\ (warnings (snd (Pdf.get_invoice_pdf rt env eng now id w)) = warnings w
      \/ warnings (snd (Pdf.get_invoice_pdf rt env eng now id w))
         = (warnings w ++ [Pdf.eof_warning])%list)
  /\ (chrome (snd (Pdf.get_invoice_pdf rt env eng now id w)) <> chrome w ->
      well_formed_id id
      /\ exists invoice number,
           Store.findById (db w) id = Some invoice
           /\ JS.ToString rt (field invoice "invoiceNumber") = Normal number)
  /\ (forall invoice,
        well_formed_id id ->
        Store.findById (db w) id = Some invoice ->
        convertible (field invoice "invoiceNumber") = false ->
        Pdf.get_invoice_pdf rt env eng now id w
        = (NextError TypeError, touch (FindById id) w)).
Proof.
  assert (Hlast : forall invoice,
             well_formed_id id ->
             Store.findById (db w) id = Some invoice ->
             convertible (field invoice "invoiceNumber") = false ->
             Pdf.get_invoice_pdf rt env eng now id w
             = (NextError TypeError, touch (FindById id) w)).
  { intros invoice Hid Hf Hc. unfold Pdf.get_invoice_pdf.
    rewrite (well_formed_not_empty id Hid).
    rewrite (proj2 (matches_id_format_spec id) Hid). cbn [negb orb].
    rewrite Hf.
    pose proof (ToString_cases rt (field invoice "invoiceNumber")) as T.
    rewrite Hc in T. now rewrite T. }
  split; [|split; [|split; [|split; [|exact Hlast]]]]; clear Hlast;
    destruct (get_invoice_pdf_cases rt env eng now id w)
      as [[Hbad ->] | [(Hid & Hf & ->) | [(Hid & invoice & t & Hf & N & ->)
         | (Hid & invoice & number & Hf & N & ->)]]];
    cbn [snd touch db accesses warnings chrome];
    try reflexivity; try (now left); try (now right);
    try (intros H; now elim H);
    destruct (respond_world rt env now invoice
                (Pdf.race rt
                   (fst (Render.generateInvoicePDF rt env eng invoice (chrome w)))
                   (render_time eng))
                (after_render rt env eng invoice id w))
      as (Hdb & Hacc & _ & Hwarn);
    unfold after_render in Hdb, Hacc, Hwarn at 2 4;
    cbn [db accesses warnings] in Hdb, Hacc, Hwarn.
  - exact Hdb.
  - right. exact Hacc.
  - exact Hwarn.
  - intros _. split; [exact Hid|]. exists invoice, number. now split.
Qed.

(** X19: a file name that [res.setHeader] refuses (the number of the
    invoice holds a control character or a character above U+00FF) makes
    the PDF route fail after the render and the verification have
    succeeded: line 167 throws inside the [try] block, no document is
    sent, and the failure is answered 500 with the code
    PDF_GENERATION_ERROR. *)
Theorem refused_file_name_answered_500
    (rt : Runtime) (env : Env) (eng : Engine) (now id : string) (w : world)
    (invoice : document) (number : string) (content : buffer) :
  well_formed_id id ->
  Store.findById (db w) id = Some invoice ->
  JS.ToString rt (field invoice "invoiceNumber") = Normal number ->
  fst (Render.generateInvoicePDF rt env eng invoice (chrome w)) = Done content ->
  render_time eng < 120000 ->
  (1000 <= List.length content)%nat ->
  firstn 4 content = Pdf.pdf_magic ->
  Pdf.valid_header_value (download_name number now) = false ->
  answers (fst (Pdf.get_invoice_pdf rt env eng now id w))
    500 "PDF_GENERATION_ERROR" "Erreur lors de la génération du PDF".
Proof.
  intros Hid Hf N Hr Ht Hlen Hm Hv.
  rewrite (get_invoice_pdf_found rt env eng now id w invoice number Hid Hf N).
  rewrite Hr. unfold Pdf.race.
  destruct (Z.ltb_spec (render_time eng) Pdf.timeoutMs) as [_|Hge];
    [|unfold Pdf.timeoutMs in Hge; lia].
  destruct (verify_cases rt content) as (_ & _ & _ & V3).
  unfold Pdf.respond. rewrite (V3 Hlen Hm), N.
  unfold download_name in Hv. rewrite Hv. cbn [fst].
  unfold answers, Pdf.fail. cbn [reply_status reply_prop].
  destruct (failure_body_code env now invoice
              (mkError Pdf.invalid_char_text (ErrorStack rt Pdf.invalid_char_text)))
    as [Hc Hmsg].
  rewrite Hc, Hmsg. repeat split.
Qed.

Lemma refused_file_name_answered_500_witness :
  answers
    (fst (Pdf.get_invoice_pdf any_runtime production (engine_printing small_pdf 1500)
            "2024-05-01T10:00:00.000Z" "64b7f0c2a1d3e4f5a6b7c8d9"
            (store_with "BCC€1")))
    500 "PDF_GENERATION_ERROR" "Erreur lors de la génération du PDF".
Proof.
  apply (refused_file_name_answered_500 any_runtime production
           (engine_printing small_pdf 1500) "2024-05-01T10:00:00.000Z"
           "64b7f0c2a1d3e4f5a6b7c8d9" (store_with "BCC€1")
           (numbered_invoice "BCC€1") "BCC€1" small_pdf).
  - exact stored_id_well_formed.
  - reflexivity.
  - reflexivity.
  - reflexivity.
  - reflexivity.
  - apply Nat.leb_le. reflexivity.
  - reflexivity.
  - reflexivity.
Defined.
